(** * Document ingestion and retrieval pipeline (day2): a shallow embedding

    The development follows the three Python modules of the pipeline:

    - [document_processor]: text cleaning, page and sentence splitting, and
      the sentence-accumulating chunker ([chunk_text]);
    - [vector_store_manager]: batched embedding, the flat L2 index, search,
      context assembly, save and load;
    - [doc_qa_agent]: session state, [ask], [load_document] and the
      vector-store persistence commands.

    Conventions of the embedding.

    - Python [int] is [Z]; [len] returns a [Z].
    - A Python [float] is the rational [Q] it approximates.  The distances
      of the index and the similarity [1 / (1 + distance)] are exact;
      [round], the mean of the similarities and its comparison with the
      thresholds round as binary64 does ([fl64]).
    - Python [str] is [string]; one [ascii] stands for one code point, so
      the texts are those of code points 0 to 255.  The classes [\w], [\s]
      and [\d] of the regular expressions, [strip] and [lower] are Python's
      on that range.
    - Exceptions are values of [exn]; a method is a function from the state
      it can touch to a result-or-exception and the new state ([M]).
    - The outside world (embedding service, completion service, PDF reader,
      clock, file system) is the record [World]; every request to a service
      is appended to [calls], and the answer of a service may depend on the
      whole history of calls.  Paths are built as [pathlib] builds them; a
      file is identified by the text of its path.  The file system can
      refuse to make a directory, and it refuses a file by the directory
      the file is in; both may depend on the directories made so far.
      Output written with [print] is not modelled. *)

From Stdlib Require Import ZArith QArith Qround String Ascii List Lia DecimalString.
From Stdlib Require Import Sorted Permutation.
From Stdlib Require DecimalPos.
From stdpp Require Import gmap strings list.

Close Scope Q_scope.
Local Open Scope Z_scope.
Local Open Scope string_scope.
Local Open Scope list_scope.

(* ===================================================================== *)
(** * Python runtime: exceptions, results, the state-and-exception monad *)
(* ===================================================================== *)

Module py.

(** Exception classes raised or caught by the modelled code. *)
Inductive exn_class :=
| Exception | ValueError | AssertionError | FileNotFoundError
| IndexError | ZeroDivisionError | RuntimeError | UnpicklingError
| JSONDecodeError.

(** An exception instance: its class and [str(e)]. *)
Record exn := mk_exn { exn_cls : exn_class; exn_str : string }.

Inductive Res (A : Type) :=
| Ok (a : A)
| Raise (e : exn).
Arguments Ok {A} a.
Arguments Raise {A} e.

(** A computation over a mutable state [S] that returns or raises. *)
Definition M (S A : Type) : Type := S -> Res A * S.

Definition ret {S A} (a : A) : M S A := fun s => (Ok a, s).
Definition raise {S A} (e : exn) : M S A := fun s => (Raise e, s).
Definition bind {S A B} (m : M S A) (f : A -> M S B) : M S B :=
  fun s => match m s with
           | (Ok a, s') => f a s'
           | (Raise e, s') => (Raise e, s')
           end.
Definition get {S} : M S S := fun s => (Ok s, s).
Definition gets {S A} (f : S -> A) : M S A := fun s => (Ok (f s), s).
Definition modify {S} (f : S -> S) : M S unit := fun s => (Ok tt, f s).

(** [try: body except Exception as e: handler(e)].  State changes made by
    the body before it raised are kept, as in Python. *)
Definition try_except {S A} (body : M S A) (handler : exn -> M S A) : M S A :=
  fun s => match body s with
           | (Ok a, s') => (Ok a, s')
           | (Raise e, s') => handler e s'
           end.

(** Run a computation on a component of the state. *)
Definition zoom {S T A} (proj : S -> T) (upd : T -> S -> S) (m : M T A) : M S A :=
  fun s => let '(r, t') := m (proj s) in (r, upd t' s).

(** Lift a pure result-or-exception. *)
Definition lift_res {S A} (r : Res A) : M S A := fun s => (r, s).

Module Import notations.
  Notation "'let*' x ':=' c1 'in' c2" := (bind c1 (fun x => c2))
    (at level 10, x name, c1 at level 100, c2 at level 200).
  Notation "'let*' ' p ':=' c1 'in' c2" :=
    (bind c1 (fun x => match x with p => c2 end))
    (at level 10, p pattern, c1 at level 100, c2 at level 200).
  Notation "c1 ;; c2" := (bind c1 (fun _ => c2))
    (at level 100, c2 at level 200, right associativity).
End notations.

(** [len(s)] for a string and for a list. *)
Definition len (s : string) : Z := Z.of_nat (String.length s).
Definition llen {A} (l : list A) : Z := Z.of_nat (List.length l).

(** [sep.join(parts)]. *)
Fixpoint join (sep : string) (parts : list string) : string :=
  match parts with
  | [] => ""
  | [p] => p
  | p :: rest => p ++ sep ++ join sep rest
  end.

(** [str(n)] for an integer. *)
Definition str_of_int (n : Z) : string := NilZero.string_of_int (Z.to_int n).

(** [l[i]] with Python's negative indices; out of range is [IndexError]. *)
Definition index {A} (l : list A) (i : Z) : option A :=
  if (0 <=? i)%Z then nth_error l (Z.to_nat i)
  else if (- llen l <=? i)%Z then nth_error l (Z.to_nat (llen l + i))
  else None.

(** [l[i:i+n]] for [0 <= i], [0 <= n]. *)
Definition slice {A} (l : list A) (i n : nat) : list A := firstn n (skipn i l).

(** Character classes, as Python has them on code points 0 to 255. *)
Definition is_digit (c : ascii) : bool :=
  let n := nat_of_ascii c in ((48 <=? n) && (n <=? 57))%nat.
Definition in_range (lo hi n : nat) : bool := ((lo <=? n) && (n <=? hi))%nat.
(** [\s] and [str.isspace]: the ASCII white space, NEL and the no-break
    space. *)
Definition is_space (c : ascii) : bool :=
  let n := nat_of_ascii c in
  in_range 9 13 n || in_range 28 32 n || (n =? 133)%nat || (n =? 160)%nat.
(** [\w]: the underscore and the alphanumeric characters, among them the
    letters, superscript digits and fractions of Latin-1. *)
Definition is_word (c : ascii) : bool :=
  let n := nat_of_ascii c in
  in_range 48 57 n || in_range 65 90 n || in_range 97 122 n || (n =? 95)%nat
  || (n =? 170)%nat || in_range 178 179 n || (n =? 181)%nat
  || in_range 185 186 n || in_range 188 190 n
  || in_range 192 214 n || in_range 216 246 n || in_range 248 255 n.

Definition newline : ascii := ascii_of_nat 10.
Definition nl : string := String newline "".

(** [int(s)] for a string of ASCII digits. *)
Definition int_of_digits (s : string) : Z :=
  fold_left (fun acc c => 10 * acc + (Z.of_nat (nat_of_ascii c) - 48))
            (list_ascii_of_string s) 0.

Definition rev_string (l : list ascii) : string := string_of_list_ascii (rev l).

(** [s.strip()]. *)
Fixpoint lstrip (s : string) : string :=
  match s with
  | String c s' => if is_space c then lstrip s' else s
  | EmptyString => EmptyString
  end.
Definition strip (s : string) : string :=
  let l := list_ascii_of_string (lstrip s) in
  string_of_list_ascii (rev (list_ascii_of_string
     (lstrip (string_of_list_ascii (rev l))))).

(** [round(x)] to an integer, ties to even. *)
Definition round_half_even (x : Q) : Z :=
  let f := Qfloor x in
  let r := (x - inject_Z f)%Q in
  match (r ?= 1 # 2)%Q with
  | Lt => f
  | Gt => f + 1
  | Eq => if Z.even f then f else f + 1
  end.

(** [floor(log2(x))] for [0 < x]. *)
Definition floor_log2 (x : Q) : Z :=
  let n := Qnum x in
  let d := Z.pos (Qden x) in
  let e := Z.log2 n - Z.log2 d in
  if (if (0 <=? e)%Z then (d * 2 ^ e <=? n)%Z else (d <=? n * 2 ^ (- e))%Z)
  then e else e - 1.

(** [x * 2^k]. *)
Definition scale2 (x : Q) (k : Z) : Q :=
  if (0 <=? k)%Z then (x * inject_Z (2 ^ k))%Q
  else (x / inject_Z (2 ^ (- k)))%Q.

(** The binary64 number nearest to [x], ties to even: 53 bits, or the
    multiple of [2^-1074] for a subnormal.  A value beyond the largest
    finite float, an overflow in Python, is rounded in the same way. *)
Definition fl64 (x : Q) : Q :=
  match Qnum x with
  | 0%Z => 0%Q
  | _ =>
      let a := (Z.abs (Qnum x) # Qden x)%Q in
      let q := Z.max (floor_log2 a - 52) (-1074) in
      let m := round_half_even (scale2 a (- q)) in
      let r := Qred (scale2 (inject_Z m) q) in
      if Qle_bool 0 x then r else (- r)%Q
  end.

(** [x + y] and [x / y] on floats. *)
Definition float_add (x y : Q) : Q := fl64 (fl64 x + fl64 y).
Definition float_div (x y : Q) : Q := fl64 (fl64 x / fl64 y).

(** [round(x, 3)] on a float: the decimal with three places nearest to the
    float, ties to even; the result stands for the float nearest to it. *)
Definition round3 (x : Q) : Q :=
  (inject_Z (round_half_even (fl64 x * 1000)) / 1000)%Q.

End py.
Import py py.notations.

(* ===================================================================== *)
(** * pathlib: pure POSIX paths                                          *)
(* ===================================================================== *)

Module pathlib.

(** [s.split('/')]. *)
Fixpoint components (s : string) : list string :=
  match s with
  | EmptyString => [EmptyString]
  | String c s' =>
      if Ascii.eqb c "/"%char then EmptyString :: components s'
      else match components s' with
           | x :: r => String c x :: r
           | [] => [String c EmptyString]
           end
  end.

(** A component that is kept: not empty and not [.]. *)
Definition kept (x : string) : bool :=
  negb (String.eqb x "") && negb (String.eqb x ".").

(** The root of a path: two leading slashes are kept, one slash, or three
    and more, give [/]. *)
Fixpoint leading_slashes (s : string) : nat :=
  match s with
  | String c s' => if Ascii.eqb c "/"%char then S (leading_slashes s') else O
  | EmptyString => O
  end.
Definition root_of (s : string) : string :=
  match leading_slashes s with
  | 0%nat => ""
  | 2%nat => "//"
  | _ => "/"
  end.

(** A parsed path: its root and its components. *)
Record PurePath := mk_path {
  root : string;
  parts : list string
}.

(** [PurePosixPath(s)]. *)
Definition Path (s : string) : PurePath :=
  {| root := root_of s; parts := List.filter kept (components s) |}.

(** [p / segment]: an absolute segment replaces the path. *)
Definition truediv (p : PurePath) (segment : string) : PurePath :=
  match root_of segment with
  | EmptyString =>
      {| root := root p;
         parts := parts p ++ List.filter kept (components segment) |}
  | _ => Path segment
  end.

(** [str(p)]. *)
Definition str (p : PurePath) : string :=
  match root p, parts p with
  | EmptyString, [] => "."
  | r, ps => r ++ join "/" ps
  end.

(** [p.parent]. *)
Definition parent (p : PurePath) : PurePath :=
  {| root := root p; parts := removelast (parts p) |}.

End pathlib.

(* ===================================================================== *)
(** * document_processor.py                                              *)
(* ===================================================================== *)

Module document_processor.

(** The [metadata] dictionary of a chunk always has these four keys. *)
Record Metadata := mk_metadata {
  source : string;
  page : Z;
  chunk_index : Z;
  char_count : Z
}.

Record DocumentChunk := mk_chunk {
  content : string;
  metadata : Metadata;
  chunk_id : string
}.

Record DocumentProcessor := mk_processor {
  chunk_size : Z;
  chunk_overlap : Z;
  min_chunk_size : Z
}.

(** ** Regular expressions used by the module *)

(** [re.sub(r'\s+', ' ', text)]: [in_ws] tells that the run was replaced. *)
Fixpoint collapse_whitespace (in_ws : bool) (s : string) : string :=
  match s with
  | EmptyString => EmptyString
  | String c s' =>
      if is_space c
      then (if in_ws then collapse_whitespace true s'
            else String " "%char (collapse_whitespace true s'))
      else String c (collapse_whitespace false s')
  end.

(** The class [[\w\s\.\,\?\!\:\;\-\(\)\[\]\n]]. *)
Definition keep_char (c : ascii) : bool :=
  is_word c || is_space c
  || existsb (Ascii.eqb c) (list_ascii_of_string ".,?!:;-()[]").

(** [re.sub(r'[^...]', '', text)]. *)
Fixpoint remove_special (s : string) : string :=
  match s with
  | EmptyString => EmptyString
  | String c s' => if keep_char c then String c (remove_special s')
                   else remove_special s'
  end.

Fixpoint newlines (n : nat) : string :=
  match n with O => EmptyString | S k => String newline (newlines k) end.

(** [re.sub(r'\n{3,}', '\n\n', text)]: [pending] newlines were read. *)
Fixpoint normalize_breaks (pending : nat) (s : string) : string :=
  let flush := newlines (if (3 <=? pending)%nat then 2 else pending) in
  match s with
  | EmptyString => flush
  | String c s' =>
      if Ascii.eqb c newline then normalize_breaks (S pending) s'
      else flush ++ String c (normalize_breaks 0 s')
  end.

Definition clean_text (text : string) : string :=
  let text := collapse_whitespace false text in
  let text := remove_special text in
  let text := normalize_breaks 0 text in
  strip text.

Fixpoint strip_prefix (p s : string) : option string :=
  match p, s with
  | EmptyString, _ => Some s
  | String a p', String b s' => if Ascii.eqb a b then strip_prefix p' s' else None
  | _, _ => None
  end.

Fixpoint span_digits (s : string) : string * string :=
  match s with
  | String c s' =>
      if is_digit c
      then let '(ds, r) := span_digits s' in (String c ds, r)
      else (EmptyString, s)
  | EmptyString => (EmptyString, EmptyString)
  end.

(** A match of [\[PAGE_(\d+)\]] at the head of [s]: the captured digits. *)
Definition match_page_marker (s : string) : option string :=
  match strip_prefix "[PAGE_" s with
  | Some r =>
      match span_digits r with
      | (String d ds, String c _) =>
          if Ascii.eqb c "]"%char then Some (String d ds) else None
      | _ => None
      end
  | None => None
  end.

(** [re.split(r'\[PAGE_(\d+)\]', text)]: text, digits, text, digits, ...
    [skip] characters of a marker just matched are still to be passed;
    [cur] is the piece being read, reversed. *)
Fixpoint split_page_markers (skip : nat) (cur : list ascii) (s : string)
  : list string :=
  match s with
  | EmptyString => [rev_string cur]
  | String c s' =>
      match skip with
      | S k => split_page_markers k cur s'
      | O =>
          match match_page_marker s with
          | Some ds =>
              rev_string cur :: ds
                :: split_page_markers (6 + String.length ds) [] s'
          | None => split_page_markers 0 (c :: cur) s'
          end
      end
  end.

Definition is_sentence_end (c : ascii) : bool :=
  existsb (Ascii.eqb c) (list_ascii_of_string ".!?").

(** [re.split(r'(?<=[.!?])\s+', text)].  [prev_end] tells that the last
    character read ends a sentence; [in_gap] that a separating run of white
    space is being passed; [cur] is the piece being read, reversed. *)
Fixpoint split_sentences (prev_end in_gap : bool) (cur : list ascii)
    (s : string) : list string :=
  match s with
  | EmptyString => [rev_string cur]
  | String c s' =>
      if is_space c then
        if in_gap then split_sentences false true cur s'
        else if prev_end then rev_string cur :: split_sentences false true [] s'
        else split_sentences false false (c :: cur) s'
      else split_sentences (is_sentence_end c) false (c :: cur) s'
  end.

(** ** chunk_text *)

(** The loop [for i in range(1, len(pages), 2)] over the pieces that follow
    the first one. *)
Fixpoint page_contents_of (pieces : list string) : list (Z * string) :=
  match pieces with
  | num :: txt :: rest => (int_of_digits num, txt) :: page_contents_of rest
  | [num] => [(int_of_digits num, "")]
  | [] => []
  end.

Definition page_contents (text : string) : list (Z * string) :=
  match page_contents_of (tl (split_page_markers 0 [] text)) with
  | [] => [(1, text)]
  | pcs => pcs
  end.

(** The variables the loops of [chunk_text] update. *)
Record loop_state := mk_loop {
  st_chunks : list DocumentChunk;
  st_chunk_index : Z;
  st_current_chunk : list string;
  st_current_length : Z
}.

Definition new_chunk (src : string) (page_num idx : Z) (chunk_text : string)
  : DocumentChunk :=
  {| content := chunk_text;
     metadata := {| source := src; page := page_num; chunk_index := idx;
                    char_count := len chunk_text |};
     chunk_id := src ++ "_page" ++ str_of_int page_num
                     ++ "_chunk" ++ str_of_int idx |}.

(** [if len(chunk_text) >= self.min_chunk_size: chunks.append(...);
    chunk_index += 1] for the buffer of [st]. *)
Definition emit (self : DocumentProcessor) (src : string) (page_num : Z)
    (st : loop_state) : loop_state :=
  let chunk_text := join " " (st_current_chunk st) in
  if (min_chunk_size self <=? len chunk_text)%Z
  then {| st_chunks := st_chunks st
                       ++ [new_chunk src page_num (st_chunk_index st) chunk_text];
          st_chunk_index := st_chunk_index st + 1;
          st_current_chunk := st_current_chunk st;
          st_current_length := st_current_length st |}
  else st.

Definition seed (sentence : string) (st : loop_state) : loop_state :=
  {| st_chunks := st_chunks st;
     st_chunk_index := st_chunk_index st;
     st_current_chunk := [sentence];
     st_current_length := len sentence |}.

(** The condition of the [if] at the head of the sentence loop. *)
Definition overflows (self : DocumentProcessor) (st : loop_state)
    (sentence : string) : bool :=
  (chunk_size self <? st_current_length st + len sentence)%Z
  && match st_current_chunk st with [] => false | _ => true end.

(** One iteration of [for sentence in sentences]. *)
Definition sentence_step (self : DocumentProcessor) (src : string)
    (page_num : Z) (st : loop_state) (sentence : string) : loop_state :=
  let sentence_length := len sentence in
  if overflows self st sentence then
    let st1 := emit self src page_num st in
    let overlap_text := join " " (st_current_chunk st) in
    if (chunk_overlap self <? len overlap_text)%Z
    then seed sentence st1
    else seed sentence st1
  else
    {| st_chunks := st_chunks st;
       st_chunk_index := st_chunk_index st;
       st_current_chunk := st_current_chunk st ++ [sentence];
       st_current_length := st_current_length st + (sentence_length + 1) |}.

(** The sentences of a page. *)
Definition sentences_of (page_text : string) : list string :=
  split_sentences false false [] (clean_text page_text).

(** One iteration of [for page_num, page_text in page_contents]; the state
    carried from page to page is the chunk list and [chunk_index]. *)
Definition page_step (self : DocumentProcessor) (src : string)
    (acc : list DocumentChunk * Z) (pc : Z * string) : list DocumentChunk * Z :=
  let '(page_num, page_text) := pc in
  let st0 := {| st_chunks := fst acc; st_chunk_index := snd acc;
                st_current_chunk := []; st_current_length := 0 |} in
  let st := fold_left (sentence_step self src page_num)
                      (sentences_of page_text) st0 in
  let st := match st_current_chunk st with
            | [] => st
            | _ => emit self src page_num st
            end in
  (st_chunks st, st_chunk_index st).

Definition chunk_text (self : DocumentProcessor) (text : string)
    (src : string) : list DocumentChunk :=
  fst (fold_left (page_step self src) (page_contents text) ([], 0)).

End document_processor.

(* ===================================================================== *)
(** * The libraries and services the pipeline calls                      *)
(* ===================================================================== *)

(** ** faiss.IndexFlatL2 (third-party library)

    The exact index keeps the vectors in insertion order.  [search] returns
    the [k] smallest squared Euclidean distances in ascending order with the
    positions of their vectors; when fewer than [k] vectors are stored the
    missing results have label [-1] and the largest [float32] as distance.
    Among equal distances the model lists the lower position first. *)
Module faiss.

Record IndexFlatL2 := mk_index {
  d : Z;
  xb : list (list Q)
}.

Definition ntotal (self : IndexFlatL2) : Z := llen (xb self).

(** The shape of [np.array(rows, dtype='float32')] when it is a matrix:
    no row gives a 1-dimensional array, rows of different lengths are
    refused by numpy. *)
Definition shape (rows : list (list Q)) : option (Z * Z) :=
  match rows with
  | [] => None
  | r :: rs =>
      if forallb (fun r' => (List.length r' =? List.length r)%nat) rs
      then Some (llen rows, llen r) else None
  end.

Definition add (self : IndexFlatL2) (x : list (list Q)) : Res IndexFlatL2 :=
  match shape x with
  | None => Raise (mk_exn ValueError "not enough values to unpack (expected 2, got 1)")
  | Some (_, dx) =>
      if (dx =? d self)%Z
      then Ok {| d := d self; xb := xb self ++ x |}
      else Raise (mk_exn AssertionError "")
  end.

Fixpoint fvec_L2sqr (x y : list Q) : Q :=
  match x, y with
  | a :: x', b :: y' => ((a - b) * (a - b) + fvec_L2sqr x' y')%Q
  | _, _ => 0%Q
  end.

(** The largest finite [float32]. *)
Definition FLT_MAX : Q := inject_Z (2 ^ 128 - 2 ^ 104).

Fixpoint insert_by_distance (x : Q * Z) (l : list (Q * Z)) : list (Q * Z) :=
  match l with
  | [] => [x]
  | y :: l' =>
      if Qle_bool (fst x) (fst y) then x :: y :: l'
      else y :: insert_by_distance x l'
  end.

Definition sort_by_distance (l : list (Q * Z)) : list (Q * Z) :=
  fold_right insert_by_distance [] l.

Definition labelled_distances (self : IndexFlatL2) (q : list Q)
  : list (Q * Z) :=
  combine (map (fvec_L2sqr q) (xb self))
          (map Z.of_nat (seq 0 (List.length (xb self)))).

Definition knn (self : IndexFlatL2) (q : list Q) (k : nat) : list (Q * Z) :=
  let top := firstn k (sort_by_distance (labelled_distances self q)) in
  top ++ repeat (FLT_MAX, -1) (k - List.length top).

(** [self.search(np.array([q]), k)]: the rows [distances[0]] and
    [indices[0]]. *)
Definition search (self : IndexFlatL2) (q : list Q) (k : Z)
  : Res (list Q * list Z) :=
  if negb (llen q =? d self)%Z then Raise (mk_exn AssertionError "")
  else if negb (0 <? k)%Z then Raise (mk_exn AssertionError "")
  else Ok (List.split (knn self q (Z.to_nat k))).

End faiss.

(** ** The outside world *)
Module world.
Import document_processor.

(** The [input] argument of an embeddings request. *)
Inductive embed_input :=
| Text (text : string)
| Batch (texts : list string).

(** A request sent to one of the two services. *)
Inductive call :=
| EmbeddingsCreate (model : string) (input : embed_input)
| ChatCompletionsCreate (model system_prompt user_prompt : string).

(** The descriptor written next to a saved store. *)
Record store_metadata := mk_store_metadata {
  meta_embedding_model : string;
  meta_dimension : Z;
  num_chunks : Z;
  num_embeddings : Z
}.

Inductive file :=
| FaissFile (idx : faiss.IndexFlatL2)
| PickleFile (chunks : list DocumentChunk)
| JsonFile (meta : store_metadata)
| OtherFile (raw : string).

Record World := mk_world {
  (** [client.embeddings.create(model, input)]: the embeddings of
      [response.data] in order, or the exception of the request. *)
  embeddings_create : list call -> string -> embed_input -> Res (list (list Q));
  (** [client.chat.completions.create(...)]: the text
      [response.choices[0].message.content], or the exception. *)
  chat_completions_create : list call -> string -> string -> string -> Res string;
  (** [PdfReader(path)]: [None] when the file does not exist, else the
      text extracted from each page or the exception of the reader. *)
  pdf_reader : string -> option (Res (list string));
  (** [datetime.now().isoformat()]. *)
  now_isoformat : list call -> string;
  (** The error with which the directory at a path cannot be made, if
      any, given the directories made so far. *)
  mkdir_error : list string -> string -> option exn;
  (** The error with which no file can be created or replaced in the
      directory at a path, if any (the directory does not exist or may not
      be written), given the directories made so far. *)
  create_error : list string -> string -> option exn;
  files : gmap string file;
  dirs_made : list string;
  calls : list call
}.

Definition log_call (c : call) (w : World) : World :=
  {| embeddings_create := embeddings_create w;
     chat_completions_create := chat_completions_create w;
     pdf_reader := pdf_reader w;
     now_isoformat := now_isoformat w;
     mkdir_error := mkdir_error w;
     create_error := create_error w;
     files := files w;
     dirs_made := dirs_made w;
     calls := calls w ++ [c] |}.

Definition write_file (path : string) (f : file) (w : World) : World :=
  {| embeddings_create := embeddings_create w;
     chat_completions_create := chat_completions_create w;
     pdf_reader := pdf_reader w;
     now_isoformat := now_isoformat w;
     mkdir_error := mkdir_error w;
     create_error := create_error w;
     files := <[path := f]> (files w);
     dirs_made := dirs_made w;
     calls := calls w |}.

Definition log_dir (path : string) (w : World) : World :=
  {| embeddings_create := embeddings_create w;
     chat_completions_create := chat_completions_create w;
     pdf_reader := pdf_reader w;
     now_isoformat := now_isoformat w;
     mkdir_error := mkdir_error w;
     create_error := create_error w;
     files := files w;
     dirs_made := dirs_made w ++ [path];
     calls := calls w |}.

(** [path.mkdir(parents=True, exist_ok=True)]. *)
Definition mkdir (path : pathlib.PurePath) : M World unit :=
  fun w => match mkdir_error w (dirs_made w) (pathlib.str path) with
           | Some e => (Raise e, w)
           | None => (Ok tt, log_dir (pathlib.str path) w)
           end.

(** Opening the file at [path] for writing and writing [f]: the file
    system can refuse the directory of the file. *)
Definition create_file (path : pathlib.PurePath) (f : file) : M World unit :=
  fun w => match create_error w (dirs_made w)
                   (pathlib.str (pathlib.parent path)) with
           | Some e => (Raise e, w)
           | None => (Ok tt, write_file (pathlib.str path) f w)
           end.

Definition request_embeddings (model : string) (input : embed_input)
  : M World (list (list Q)) :=
  fun w => (embeddings_create w (calls w) model input,
            log_call (EmbeddingsCreate model input) w).

Definition request_completion (model system_prompt user_prompt : string)
  : M World string :=
  fun w => (chat_completions_create w (calls w) model system_prompt user_prompt,
            log_call (ChatCompletionsCreate model system_prompt user_prompt) w).

(** [str(Path(directory) / file_name)]. *)
Definition path_join (directory file_name : string) : string :=
  pathlib.str (pathlib.truediv (pathlib.Path directory) file_name).

End world.

(* ===================================================================== *)
(** * vector_store_manager.py                                            *)
(* ===================================================================== *)

Module vector_store_manager.
Import document_processor world.

Record VectorStoreManager := mk_store {
  embedding_model : string;
  dimension : Z;
  index : faiss.IndexFlatL2;
  chunks : list DocumentChunk;
  embeddings : list (list Q)
}.

(** [__init__] once the API key was found: an empty flat index of the
    configured dimension and two empty lists. *)
Definition init (model : string) (dim : Z) : VectorStoreManager :=
  {| embedding_model := model; dimension := dim;
     index := faiss.mk_index dim [];
     chunks := []; embeddings := [] |}.

(** What a method can touch: the object and the outside world. *)
Definition state : Type := VectorStoreManager * World.

Definition self_ : M state VectorStoreManager := gets fst.
Definition in_world {A} (m : M World A) : M state A :=
  zoom snd (fun w s => (fst s, w)) m.
Definition update_self (f : VectorStoreManager -> VectorStoreManager)
  : M state unit :=
  modify (fun s => (f (fst s), snd s)).

Definition create_embedding (text : string) : M state (list Q) :=
  let* self := self_ in
  try_except
    (let* data := in_world (request_embeddings (embedding_model self) (Text text)) in
     match data with
     | e :: _ => ret e
     | [] => raise (mk_exn IndexError "list index out of range")
     end)
    (fun e => raise (mk_exn Exception
                       ("Failed to create embedding: " ++ exn_str e))).

(** [range(0, stop, step)] for [0 <= stop]. *)
Definition range (stop step : Z) : Res (list Z) :=
  if (step =? 0)%Z
  then Raise (mk_exn ValueError "range() arg 3 must not be zero")
  else if (step <? 0)%Z then Ok []
  else Ok (map (fun j => Z.of_nat j * step)
               (seq 0 (Z.to_nat ((stop + step - 1) / step)))).

(** [for x in l: acc = body(acc, x)]. *)
Fixpoint for_each {S A B} (l : list A) (acc : B) (body : B -> A -> M S B)
  : M S B :=
  match l with
  | [] => ret acc
  | x :: l' => let* acc' := body acc x in for_each l' acc' body
  end.

(** [[[0.0] * self.dimension] * n]. *)
Definition zero_vectors (dim : Z) (n : nat) : list (list Q) :=
  repeat (repeat 0%Q (Z.to_nat dim)) n.

(** The body of the loop of [create_embeddings_batch] for the batch that
    starts at [i]. *)
Definition embed_batch (self : VectorStoreManager) (texts : list string)
    (batch_size : Z) (embeddings : list (list Q)) (i : Z)
  : M state (list (list Q)) :=
  let batch := slice texts (Z.to_nat i) (Z.to_nat batch_size) in
  try_except
    (let* batch_embeddings :=
       in_world (request_embeddings (embedding_model self) (Batch batch)) in
     ret (embeddings ++ batch_embeddings))
    (fun e => ret (embeddings ++ zero_vectors (dimension self) (List.length batch))).

Definition create_embeddings_batch (texts : list string) (batch_size : Z)
  : M state (list (list Q)) :=
  let* self := self_ in
  let* starts := lift_res (range (llen texts) batch_size) in
  for_each starts [] (embed_batch self texts batch_size).

(** [np.array(embeddings, dtype='float32')]: rows of different lengths are
    refused. *)
Definition np_array (rows : list (list Q)) : Res (list (list Q)) :=
  match rows with
  | [] => Ok rows
  | r :: rs =>
      if forallb (fun r' => (List.length r' =? List.length r)%nat) rs
      then Ok rows
      else Raise (mk_exn ValueError "inhomogeneous shape")
  end.

Definition add_documents (new_chunks : list DocumentChunk) : M state unit :=
  match new_chunks with
  | [] => ret tt
  | _ =>
      let texts := map content new_chunks in
      let* new_embeddings := create_embeddings_batch texts 100 in
      let* embeddings_array := lift_res (np_array new_embeddings) in
      let* self := self_ in
      let* idx := lift_res (faiss.add (index self) embeddings_array) in
      update_self (fun s =>
        {| embedding_model := embedding_model s; dimension := dimension s;
           index := idx;
           chunks := chunks s ++ new_chunks;
           embeddings := embeddings s ++ new_embeddings |})
  end.

(** The loop [for i, idx in enumerate(indices[0])] of [search], over the
    labels paired with [distances[0][i]]. *)
Fixpoint collect_results (cs : list DocumentChunk) (hits : list (Q * Z))
    (results : list (DocumentChunk * Q)) : Res (list (DocumentChunk * Q)) :=
  match hits with
  | [] => Ok results
  | (distance, idx) :: rest =>
      if (idx <? llen cs)%Z then
        match py.index cs idx with
        | None => Raise (mk_exn IndexError "list index out of range")
        | Some chunk =>
            if Qeq_bool (1 + distance) 0
            then Raise (mk_exn ZeroDivisionError "float division by zero")
            else collect_results cs rest
                   (results ++ [(chunk, (1 / (1 + distance))%Q)])
        end
      else collect_results cs rest results
  end.

Definition search (query : string) (k : Z)
  : M state (list (DocumentChunk * Q)) :=
  let* self := self_ in
  match chunks self with
  | [] => ret []
  | _ =>
      let* query_embedding := create_embedding query in
      let* '(distances, indices) :=
        lift_res (faiss.search (index self) query_embedding k) in
      lift_res (collect_results (chunks self) (combine distances indices) [])
  end.

(** An entry of the [sources] list. *)
Record source_info := mk_source {
  src_source : string;
  src_page : Z;
  src_similarity : Q
}.

Definition source_of (chunk : DocumentChunk) (similarity : Q) : source_info :=
  {| src_source := source (metadata chunk);
     src_page := page (metadata chunk);
     src_similarity := round3 similarity |}.

(** The loop [for chunk, similarity in results] of
    [get_context_for_query], with its [break]. *)
Fixpoint accumulate (max_context_length : Z)
    (results : list (DocumentChunk * Q))
    (context_parts : list string) (sources : list source_info)
    (current_length : Z) : list string * list source_info :=
  match results with
  | [] => (context_parts, sources)
  | (chunk, similarity) :: rest =>
      let chunk_text := content chunk in
      let chunk_length := len chunk_text in
      if (max_context_length <? current_length + chunk_length)%Z
      then (context_parts, sources)
      else accumulate max_context_length rest
             (context_parts ++ [chunk_text])
             (sources ++ [source_of chunk similarity])
             (current_length + chunk_length)
  end.

(** The delimiter ["\n\n---\n\n"]. *)
Definition delimiter : string := nl ++ nl ++ "---" ++ nl ++ nl.

Definition get_context_for_query (query : string) (k : Z)
    (max_context_length : Z) : M state (string * list source_info) :=
  let* results := search query k in
  match results with
  | [] => ret ("", [])
  | _ =>
      let '(context_parts, sources) :=
        accumulate max_context_length results [] [] 0 in
      ret (join delimiter context_parts, sources)
  end.

Definition index_path (directory name : string) : string :=
  path_join directory (name ++ ".faiss").
Definition chunks_path (directory name : string) : string :=
  path_join directory (name ++ "_chunks.pkl").
Definition metadata_path (directory name : string) : string :=
  path_join directory (name ++ "_metadata.json").

(** [faiss.write_index(index, path)]: an error of the file system comes
    back as the [RuntimeError] of the library. *)
Definition write_index (idx : faiss.IndexFlatL2) (path : pathlib.PurePath)
  : M World unit :=
  try_except (create_file path (FaissFile idx))
    (fun e => raise (mk_exn RuntimeError
       ("Error: 'f' failed: could not open " ++ pathlib.str path
        ++ " for writing: " ++ exn_str e))).

Definition save (directory name : string) : M state unit :=
  let* self := self_ in
  let path := pathlib.Path directory in
  in_world (mkdir path) ;;
  in_world (write_index (index self)
              (pathlib.truediv path (name ++ ".faiss"))) ;;
  in_world (create_file (pathlib.truediv path (name ++ "_chunks.pkl"))
              (PickleFile (chunks self))) ;;
  in_world (create_file (pathlib.truediv path (name ++ "_metadata.json"))
     (JsonFile {| meta_embedding_model := embedding_model self;
                  meta_dimension := dimension self;
                  num_chunks := llen (chunks self);
                  num_embeddings := llen (embeddings self) |})).

(** [open(path, mode)] for reading. *)
Definition read_file (path : string) : M state file :=
  let* w := gets snd in
  match files w !! path with
  | Some f => ret f
  | None => raise (mk_exn FileNotFoundError
                     ("[Errno 2] No such file or directory: '" ++ path ++ "'"))
  end.

Definition load (directory name : string) : M state unit :=
  let* w := gets snd in
  match files w !! index_path directory name with
  | None => raise (mk_exn FileNotFoundError
                     ("Vector store not found: " ++ index_path directory name))
  | Some f =>
      let* idx := match f with
                  | FaissFile idx => ret idx
                  | _ => raise (mk_exn RuntimeError "could not read index")
                  end in
      update_self (fun s =>
        {| embedding_model := embedding_model s; dimension := dimension s;
           index := idx; chunks := chunks s; embeddings := embeddings s |}) ;;
      let* f := read_file (chunks_path directory name) in
      let* cs := match f with
                 | PickleFile cs => ret cs
                 | _ => raise (mk_exn UnpicklingError "invalid pickle data")
                 end in
      update_self (fun s =>
        {| embedding_model := embedding_model s; dimension := dimension s;
           index := index s; chunks := cs; embeddings := embeddings s |}) ;;
      let* f := read_file (metadata_path directory name) in
      let* _ := match f with
                | JsonFile meta => ret (num_chunks meta)
                | _ => raise (mk_exn JSONDecodeError "invalid JSON")
                end in
      ret tt
  end.

Record stats := mk_stats {
  stats_total_chunks : Z;
  stats_total_embeddings : Z;
  stats_embedding_model : string;
  stats_dimension : Z;
  stats_index_size : Z
}.

Definition get_stats (self : VectorStoreManager) : stats :=
  {| stats_total_chunks := llen (chunks self);
     stats_total_embeddings := llen (embeddings self);
     stats_embedding_model := embedding_model self;
     stats_dimension := dimension self;
     stats_index_size := faiss.ntotal (index self) |}.

End vector_store_manager.

(** ** The methods of [DocumentProcessor] that read a file *)
Module document_loading.
Import document_processor world.

(** The loop of [load_pdf] over [enumerate(reader.pages, 1)]. *)
Fixpoint mark_pages (page_num : Z) (page_texts : list string) (text : string)
  : string :=
  match page_texts with
  | [] => text
  | page_text :: rest =>
      mark_pages (page_num + 1) rest
        (match page_text with
         | EmptyString => text
         | _ => text ++ nl ++ "[PAGE_" ++ str_of_int page_num ++ "]" ++ nl
                     ++ page_text ++ nl
         end)
  end.

Definition load_pdf (file_path : string) : M World string :=
  let* w := get in
  match pdf_reader w file_path with
  | None => raise (mk_exn FileNotFoundError ("PDF file not found: " ++ file_path))
  | Some reader =>
      try_except
        (let* page_texts := lift_res reader in
         let text := mark_pages 1 page_texts "" in
         match strip text with
         | EmptyString =>
             raise (mk_exn ValueError "No text could be extracted from the PDF")
         | _ => ret text
         end)
        (fun e => raise (mk_exn Exception ("Error processing PDF: " ++ exn_str e)))
  end.

(** [Path(file_path).name]: the text after the last [/]. *)
Fixpoint path_name_from (cur : string) (s : string) : string :=
  match s with
  | EmptyString => cur
  | String c s' =>
      if Ascii.eqb c "/"%char then path_name_from s' s' else path_name_from cur s'
  end.
Definition path_name (file_path : string) : string :=
  path_name_from file_path file_path.

Record document_metadata := mk_document_metadata {
  doc_source : string;
  doc_total_chunks : Z;
  doc_total_characters : Z;
  doc_avg_chunk_size : Q
}.

Definition process_document (self : DocumentProcessor) (file_path : string)
  : M World (list DocumentChunk * document_metadata) :=
  let filename := path_name file_path in
  let* raw_text := load_pdf file_path in
  let cs := chunk_text self raw_text filename in
  let total_chars := fold_left Z.add (map (fun c => len (content c)) cs) 0 in
  let avg_chunk_size :=
    match cs with
    | [] => 0%Q
    | _ => (inject_Z total_chars / inject_Z (llen cs))%Q
    end in
  ret (cs, {| doc_source := filename; doc_total_chunks := llen cs;
              doc_total_characters := total_chars;
              doc_avg_chunk_size := avg_chunk_size |}).

End document_loading.

(* ===================================================================== *)
(** * doc_qa_agent.py                                                    *)
(* ===================================================================== *)

Module doc_qa_agent.
Import document_processor world vector_store_manager document_loading.

Record session := mk_session {
  start_time : string;
  documents_loaded : list string;
  total_chunks : Z;
  queries_processed : Z
}.

Record history_entry := mk_entry {
  h_question : string;
  h_answer : string;
  h_sources : list source_info;
  h_timestamp : string
}.

Record DocumentQAAgent := mk_agent {
  name : string;
  processor : DocumentProcessor;
  vector_store : VectorStoreManager;
  conversation_history : list history_entry;
  session_info : session;
  system_prompt : string
}.

(** The dictionary returned by [ask]; [error] and [context_used] are the
    keys that are present only in some of the answers. *)
Record ask_result := mk_result {
  answer : string;
  sources : list source_info;
  confidence : string;
  error : option string;
  context_used : option Z
}.

Definition the_system_prompt : string :=
  "You are a helpful AI assistant that answers questions based on provided document context. 

Your responsibilities:
1. Answer questions using ONLY the information from the provided context
2. If the answer is not in the context, clearly state that you don't have that information
3. Cite the source document and page when providing answers
4. Be concise but thorough in your explanations
5. If the context is ambiguous, acknowledge uncertainty

Always ground your answers in the provided context and avoid speculation.".

(** [__init__] once the API key was found. *)
Definition init (chunk_size chunk_overlap : Z) (model : string)
    (w : World) : DocumentQAAgent :=
  {| name := "Document Q&A Agent";
     processor := {| document_processor.chunk_size := chunk_size;
                     document_processor.chunk_overlap := chunk_overlap;
                     min_chunk_size := 100 |};
     vector_store := vector_store_manager.init model 1536;
     conversation_history := [];
     session_info := {| start_time := now_isoformat w (calls w);
                        documents_loaded := []; total_chunks := 0;
                        queries_processed := 0 |};
     system_prompt := the_system_prompt |}.

Definition state : Type := DocumentQAAgent * World.

Definition self_ : M state DocumentQAAgent := gets fst.
Definition in_world {A} (m : M World A) : M state A :=
  zoom snd (fun w s => (fst s, w)) m.
Definition update_self (f : DocumentQAAgent -> DocumentQAAgent) : M state unit :=
  modify (fun s => (f (fst s), snd s)).

Definition set_vector_store (vs : VectorStoreManager) (a : DocumentQAAgent)
  : DocumentQAAgent :=
  {| name := name a; processor := processor a; vector_store := vs;
     conversation_history := conversation_history a;
     session_info := session_info a; system_prompt := system_prompt a |}.

Definition set_session (si : session) (a : DocumentQAAgent) : DocumentQAAgent :=
  {| name := name a; processor := processor a; vector_store := vector_store a;
     conversation_history := conversation_history a;
     session_info := si; system_prompt := system_prompt a |}.

Definition set_history (h : list history_entry) (a : DocumentQAAgent)
  : DocumentQAAgent :=
  {| name := name a; processor := processor a; vector_store := vector_store a;
     conversation_history := h;
     session_info := session_info a; system_prompt := system_prompt a |}.

(** Run a method of [self.vector_store]. *)
Definition in_vector_store {A} (m : M vector_store_manager.state A) : M state A :=
  zoom (fun s => (vector_store (fst s), snd s))
       (fun t s => (set_vector_store (fst t) (fst s), snd t)) m.

Definition load_document (file_path : string) : M state document_metadata :=
  let* self := self_ in
  let* '(cs, meta) := in_world (process_document (processor self) file_path) in
  in_vector_store (add_documents cs) ;;
  update_self (fun a => set_session
    {| start_time := start_time (session_info a);
       documents_loaded := documents_loaded (session_info a) ++ [doc_source meta];
       total_chunks := total_chunks (session_info a) + doc_total_chunks meta;
       queries_processed := queries_processed (session_info a) |} a) ;;
  ret meta.

Definition _build_qa_prompt (question context : string) : string :=
  "Based on the following context from the documents, please answer the question.

CONTEXT:
" ++ context ++ "

QUESTION: " ++ question ++ "

Please provide a clear, accurate answer based on the context above. If you reference specific information, mention which part of the context it comes from.".

Definition no_documents_result : ask_result :=
  {| answer := "No documents have been loaded yet. Please load some documents first using the 'load' command.";
     sources := [];
     confidence := "low";
     error := Some "no_documents";
     context_used := None |}.

Definition no_context_result : ask_result :=
  {| answer := "I couldn't find relevant information in the loaded documents to answer this question.";
     sources := [];
     confidence := "none";
     error := Some "no_context";
     context_used := None |}.

Definition error_result (e : exn) : ask_result :=
  {| answer := "Error generating answer: " ++ exn_str e;
     sources := [];
     confidence := "error";
     error := Some (exn_str e);
     context_used := None |}.

(** [sum(s['similarity'] for s in sources) / len(sources) if sources else 0]:
    the floats are added from left to right, each sum rounded, as [sum]
    does in CPython before 3.12 (from 3.12 on [sum] compensates the
    rounding errors, which can move a mean that lies within rounding error
    of a threshold). *)
Definition avg_similarity (srcs : list source_info) : Q :=
  match srcs with
  | [] => 0%Q
  | _ => float_div (fold_left float_add (map src_similarity srcs) 0%Q)
                   (inject_Z (llen srcs))
  end.

(** The thresholds are the floats [0.7] and [0.5]. *)
Definition confidence_of (avg : Q) : string :=
  if negb (Qle_bool avg (fl64 (7 # 10))) then "high"
  else if negb (Qle_bool avg (fl64 (5 # 10))) then "medium"
  else "low".

Definition ask (question : string) (num_sources : Z) (model : string)
    (include_sources : bool) : M state ask_result :=
  let* self := self_ in
  match documents_loaded (session_info self) with
  | [] => ret no_documents_result
  | _ =>
      let* '(context, srcs) :=
        in_vector_store (get_context_for_query question num_sources 4000) in
      match context with
      | EmptyString => ret no_context_result
      | _ =>
          let user_prompt := _build_qa_prompt question context in
          try_except
            (let* reply := in_world (request_completion model
                                       (system_prompt self) user_prompt) in
             let conf := confidence_of (avg_similarity srcs) in
             let* w := gets snd in
             update_self (fun a => set_history
               (conversation_history a
                  ++ [{| h_question := question; h_answer := reply;
                         h_sources := srcs;
                         h_timestamp := now_isoformat w (calls w) |}]) a) ;;
             update_self (fun a => set_session
               {| start_time := start_time (session_info a);
                  documents_loaded := documents_loaded (session_info a);
                  total_chunks := total_chunks (session_info a);
                  queries_processed := queries_processed (session_info a) + 1 |} a) ;;
             ret {| answer := reply;
                    sources := if include_sources then srcs else [];
                    confidence := conf;
                    error := None;
                    context_used := Some (len context) |})
            (fun e => ret (error_result e))
      end
  end.

Definition clear_history : M state string :=
  let* self := self_ in
  let count := llen (conversation_history self) in
  update_self (set_history []) ;;
  update_self (fun a => set_session
    {| start_time := start_time (session_info a);
       documents_loaded := documents_loaded (session_info a);
       total_chunks := total_chunks (session_info a);
       queries_processed := 0 |} a) ;;
  ret ("✓ Cleared " ++ str_of_int count ++ " conversation(s) from history.")%string.

Definition save_vector_store (directory store_name : string) : M state string :=
  try_except
    (in_vector_store (save directory store_name) ;;
     ret ("✓ Vector store '" ++ store_name ++ "' saved successfully to "
            ++ directory ++ "/")%string)
    (fun e => ret ("✗ Error saving vector store: " ++ exn_str e)%string).

Definition load_vector_store (directory store_name : string) : M state string :=
  try_except
    (in_vector_store (load directory store_name) ;;
     let* self := self_ in
     let stats := get_stats (vector_store self) in
     update_self (fun a => set_session
       {| start_time := start_time (session_info a);
          documents_loaded := documents_loaded (session_info a);
          total_chunks := stats_total_chunks stats;
          queries_processed := queries_processed (session_info a) |} a) ;;
     ret ("✓ Vector store '" ++ store_name ++ "' loaded successfully ("
            ++ str_of_int (stats_total_chunks stats) ++ " chunks)")%string)
    (fun e => ret ("✗ Error loading vector store: " ++ exn_str e)%string).

End doc_qa_agent.

(* ===================================================================== *)
(** * The remaining methods of the three modules                         *)
(* ===================================================================== *)

(** ** document_processor.py: process_multiple_documents *)
Module document_batch.
Import document_processor world document_loading.

Record batch_metadata := mk_batch_metadata {
  total_documents : Z;
  batch_total_chunks : Z;
  batch_total_characters : Z;
  batch_avg_chunk_size : Q;
  document_metadata_list : list document_metadata
}.

(** The body of [for file_path in file_paths]: a document that cannot be
    processed is skipped. *)
Definition process_next (self : DocumentProcessor)
    (acc : list DocumentChunk * list document_metadata) (file_path : string)
  : M World (list DocumentChunk * list document_metadata) :=
  try_except
    (let* '(cs, meta) := process_document self file_path in
     ret (fst acc ++ cs, snd acc ++ [meta]))
    (fun _ => ret acc).

Definition process_multiple_documents (self : DocumentProcessor)
    (file_paths : list string)
  : M World (list DocumentChunk * batch_metadata) :=
  let* '(all_chunks, all_metadata) :=
    vector_store_manager.for_each file_paths ([], []) (process_next self) in
  let total_chars :=
    fold_left Z.add (map (fun c => len (content c)) all_chunks) 0 in
  let avg_chunk_size :=
    match all_chunks with
    | [] => 0%Q
    | _ => (inject_Z total_chars / inject_Z (llen all_chunks))%Q
    end in
  ret (all_chunks,
       {| total_documents := llen all_metadata;
          batch_total_chunks := llen all_chunks;
          batch_total_characters := total_chars;
          batch_avg_chunk_size := avg_chunk_size;
          document_metadata_list := all_metadata |}).

End document_batch.

(** ** doc_qa_agent.py: the other methods *)
Module doc_qa_agent_more.
Import document_processor world vector_store_manager document_loading
       document_batch doc_qa_agent.

Definition load_multiple_documents (file_paths : list string)
  : M doc_qa_agent.state batch_metadata :=
  let* self := self_ in
  let* '(cs, meta) :=
    in_world (process_multiple_documents (processor self) file_paths) in
  match cs with
  | [] => ret tt
  | _ =>
      in_vector_store (add_documents cs) ;;
      update_self (fun a => set_session
        {| start_time := start_time (session_info a);
           documents_loaded :=
             documents_loaded (session_info a)
             ++ map doc_source (document_metadata_list meta);
           total_chunks := batch_total_chunks meta;
           queries_processed := queries_processed (session_info a) |} a)
  end ;;
  ret meta.

(** [s.lower()] on code points 0 to 255. *)
Definition lower_char (c : ascii) : ascii :=
  let n := nat_of_ascii c in
  if in_range 65 90 n || in_range 192 214 n || in_range 216 222 n
  then ascii_of_nat (n + 32) else c.
Fixpoint lower (s : string) : string :=
  match s with
  | EmptyString => EmptyString
  | String c s' => String (lower_char c) (lower s')
  end.

(** [needle in s]. *)
Fixpoint contains (needle s : string) : bool :=
  String.prefix needle s
  || match s with
     | EmptyString => false
     | String _ s' => contains needle s'
     end.

(** [self.conversation_history[-last_n:]]: the slice [l[start:]]. *)
Definition slice_from {A} (l : list A) (start : Z) : list A :=
  let n := llen l in
  let start := if (start <? 0)%Z then Z.max (start + n) 0 else Z.min start n in
  skipn (Z.to_nat start) l.

Definition get_conversation_history (self : DocumentQAAgent) (last_n : Z)
  : list history_entry :=
  slice_from (conversation_history self) (- last_n).

(** The loop of [get_status] over the loaded documents. *)
Definition document_lines (docs : list string) : string :=
  fold_left (fun status doc => status +:+ "  - " +:+ doc +:+ nl) docs "".

(** [get_status]; [minutes] is the session duration
    [int(duration.total_seconds() / 60)] read from the clock. *)
Definition get_status (self : DocumentQAAgent) (minutes : Z) : string :=
  let si := session_info self in
  let status :=
    (nl +:+ "📊 **Agent Status**" +:+ nl +:+ nl
     +:+ "🔹 Documents loaded: " +:+ str_of_int (llen (documents_loaded si)) +:+ nl
     +:+ "🔹 Total chunks: " +:+ str_of_int (total_chunks si) +:+ nl
     +:+ "🔹 Queries processed: " +:+ str_of_int (queries_processed si) +:+ nl
     +:+ "🔹 Session duration: " +:+ str_of_int minutes +:+ " minute(s)" +:+ nl
     +:+ nl +:+ "📚 **Loaded Documents:**" +:+ nl)%string in
  let status :=
    match documents_loaded si with
    | [] => status +:+ "  (none)" +:+ nl
    | docs => status +:+ document_lines docs
    end in
  strip status.

Definition get_help : string :=
  strip "
📖 **Document Q&A Agent Help**

**What I can do:**
- Load and analyze PDF documents
- Answer questions based on document content
- Search through multiple documents
- Provide source citations

**Available commands:**
- Ask any question about your loaded documents
- 'status' or 'info' - View current agent status
- 'help' - Show this help message
- 'clear' - Clear conversation history
- 'save <name>' - Save the current vector store
- 'load <name>' - Load a saved vector store

**Tips:**
- Load documents before asking questions
- Ask specific questions for better results
- I'll cite my sources when answering
- I can only answer based on loaded documents
        ".

Definition _handle_general_message (self : DocumentQAAgent) (minutes : Z)
    (message : string) : string :=
  let message_lower := lower message in
  if existsb (fun greeting => contains greeting message_lower)
             ["hello"; "hi"; "hey"]
  then "Hello! I'm " +:+ name self
       +:+ ". I can answer questions about documents you load. Use 'load' to add documents or 'help' for more information."
  else if contains "status" message_lower || contains "info" message_lower
  then get_status self minutes
  else if contains "help" message_lower
  then get_help
  else "I'm here to answer questions about your documents. Try asking a question, or use 'help' for more information.".

Definition question_indicators : list string :=
  ["?"; "what"; "how"; "why"; "when"; "where"; "who"; "explain"; "tell me"].

Definition source_key (s : source_info) : string :=
  src_source s +:+ " (Page " +:+ str_of_int (src_page s) +:+ ")".

(** The loop of [chat] over the sources: the text built so far and the
    keys already listed. *)
Definition list_source (acc : string * gset string) (s : source_info)
  : string * gset string :=
  let '(source_text, seen_sources) := acc in
  let key := source_key s in
  if decide (key ∈ seen_sources) then acc
  else (source_text +:+ "- " +:+ key +:+ nl, {[key]} ∪ seen_sources).

Definition sources_header : string := nl +:+ nl +:+ "📚 **Sources:**" +:+ nl.

Definition chat (message : string) (model : string) (minutes : Z)
  : M doc_qa_agent.state string :=
  let* self := self_ in
  let is_question :=
    existsb (fun indicator => contains indicator (lower message))
            question_indicators in
  if is_question
     && match documents_loaded (session_info self) with
        | [] => false
        | _ => true
        end
  then
    let* result := ask message 5 model true in
    let answer := doc_qa_agent.answer result in
    let no_error := match error result with
                    | None | Some EmptyString => true
                    | Some _ => false
                    end in
    match sources result with
    | _ :: _ =>
        if no_error
        then ret (answer +:+ fst (fold_left list_source (sources result)
                                    (sources_header, ∅)))
        else ret answer
    | [] => ret answer
    end
  else
    let* self := self_ in
    ret (_handle_general_message self minutes message).

End doc_qa_agent_more.

(* ===================================================================== *)
(** * Vocabulary of the statements                                       *)
(* ===================================================================== *)

Module chunker.
Import document_processor.

Definition long_enough (self : DocumentProcessor) (t : string) : bool :=
  (min_chunk_size self <=? len t)%Z.

Definition index_of (c : DocumentChunk) : Z := chunk_index (metadata c).

(** The buffers the sentence loop of one page closes, in order, whether or
    not they are long enough to be kept: the running buffer is closed when
    the next sentence overflows it, the next buffer then starts with that
    sentence, and the last buffer is closed at the end of the page. *)
Fixpoint buffers_from (self : DocumentProcessor) (cur : list string)
    (cur_length : Z) (sentences : list string) : list (list string) :=
  match sentences with
  | [] => match cur with [] => [] | _ => [cur] end
  | s :: rest =>
      if (chunk_size self <? cur_length + len s)%Z
         && match cur with [] => false | _ => true end
      then cur :: buffers_from self [s] (len s) rest
      else buffers_from self (cur ++ [s]) (cur_length + (len s + 1)) rest
  end.

Definition page_buffers (self : DocumentProcessor) (pc : Z * string)
  : list (list string) :=
  buffers_from self [] 0 (sentences_of (snd pc)).

(** The last step of a page: [if current_chunk: ...]. *)
Definition close_page (self : DocumentProcessor) (src : string)
    (page_num : Z) (st : loop_state) : loop_state :=
  match st_current_chunk st with
  | [] => st
  | _ => emit self src page_num st
  end.

(** The chunk list and the running index agree: the chunk at position [i]
    carries index [i], and the next index is the number of chunks. *)
Definition numbered (cs : list DocumentChunk) (idx : Z) : Prop :=
  idx = llen cs
  /\ map index_of cs = map Z.of_nat (seq 0 (List.length cs)).

(** The same processor with another [chunk_overlap]. *)
Definition with_overlap (overlap : Z) (self : DocumentProcessor)
  : DocumentProcessor :=
  {| chunk_size := chunk_size self; chunk_overlap := overlap;
     min_chunk_size := min_chunk_size self |}.

(** The running length the sentence loop keeps is the length of the joined
    buffer, or one more (the buffer that opens a page counts a separator
    after its first sentence). *)
Definition length_tracks_buffer (st : loop_state) : Prop :=
  match st_current_chunk st with
  | [] => st_current_length st = 0
  | cur => st_current_length st = len (join " " cur)
           \/ st_current_length st = len (join " " cur) + 1
  end.

End chunker.

Module retrieval.
Import document_processor world vector_store_manager.

(** The total length of the contents of some results. *)
Definition contents_length (rs : list (DocumentChunk * Q)) : Z :=
  fold_right (fun r acc => len (content (fst r)) + acc) 0 rs.

(** The similarity [search] gives to a distance. *)
Definition similarity_of (distance : Q) : Q := (1 / (1 + distance))%Q.

(** A hit of the index that [search] can turn into a result for a chunk
    list of length [n]: a distance that is not negative, and a position of
    the list or the label [-1]. *)
Definition valid_hit (n : Z) (hit : Q * Z) : Prop :=
  (0 <= fst hit)%Q /\ -1 <= snd hit < n.

(** A hit for a vector that is stored in the index. *)
Definition stored_hit (n : Z) (hit : Q * Z) : Prop :=
  (0 <= fst hit)%Q /\ 0 <= snd hit < n.

(** The result [search] makes of a hit: the chunk [self.chunks[idx]] and
    the similarity of the distance. *)
Definition result_of_hit (cs : list DocumentChunk) (hit : Q * Z)
    (r : DocumentChunk * Q) : Prop :=
  py.index cs (snd hit) = Some (fst r) /\ snd r = similarity_of (fst hit).

(** Hits in ascending order of distance. *)
Definition ascending (hits : list (Q * Z)) : Prop :=
  StronglySorted (fun a b => (fst a <= fst b)%Q) hits.

(** Results in non-increasing order of similarity. *)
Definition non_increasing (rs : list (DocumentChunk * Q)) : Prop :=
  StronglySorted (fun a b => (snd b <= snd a)%Q) rs.

End retrieval.

Module session.
Import document_processor world vector_store_manager doc_qa_agent.

(** No document name was recorded by [load_document]. *)
Definition no_documents (s : doc_qa_agent.state) : Prop :=
  documents_loaded (session_info (fst s)) = [].

(** The calls a user can make on an agent besides [load_document]. *)
Inductive command :=
| Ask (question : string) (num_sources : Z) (model : string)
      (include_sources : bool)
| ClearHistory
| SaveVectorStore (directory store_name : string)
| LoadVectorStore (directory store_name : string).

(** The agent and the world after a command, whatever it returned. *)
Definition run_command (s : doc_qa_agent.state) (c : command)
  : doc_qa_agent.state :=
  match c with
  | Ask q k m i => snd (ask q k m i s)
  | ClearHistory => snd (clear_history s)
  | SaveVectorStore d n => snd (save_vector_store d n s)
  | LoadVectorStore d n => snd (load_vector_store d n s)
  end.

End session.

Module batching.
Import document_processor world vector_store_manager.

(** The answers of the embedding service, the only part of the world the
    vectors depend on. *)
Definition embedding_service : Type :=
  list call -> string -> embed_input -> Res (list (list Q)).

Definition request (model : string) (batch : list string) : call :=
  EmbeddingsCreate model (Batch batch).

(** The batches [texts[i:i + batch_size]] of the loop, in order. *)
Definition batches_of (texts : list string) (batch_size : Z)
  : list (list string) :=
  match range (llen texts) batch_size with
  | Ok starts =>
      map (fun i => slice texts (Z.to_nat i) (Z.to_nat batch_size)) starts
  | Raise _ => []
  end.

(** The vectors one batch receives when the request is sent after the
    calls [hist]: the embeddings of the response, or zero vectors when the
    request raises. *)
Definition batch_block (svc : embedding_service) (model : string) (dim : Z)
    (hist : list call) (batch : list string) : list (list Q) :=
  match svc hist model (Batch batch) with
  | Ok r => r
  | Raise _ => zero_vectors dim (List.length batch)
  end.

(** The blocks of consecutive batches; each request is logged before the
    next one is sent. *)
Fixpoint batch_blocks (svc : embedding_service) (model : string) (dim : Z)
    (hist : list call) (batches : list (list string)) : list (list (list Q)) :=
  match batches with
  | [] => []
  | b :: rest =>
      batch_block svc model dim hist b
        :: batch_blocks svc model dim (hist ++ [request model b]) rest
  end.

(** The vectors [create_embeddings_batch] computes for [texts]. *)
Definition batch_vectors (self : VectorStoreManager) (w : World)
    (texts : list string) (batch_size : Z) : list (list Q) :=
  concat (batch_blocks (embeddings_create w) (embedding_model self)
            (dimension self) (calls w) (batches_of texts batch_size)).

Definition log_requests (model : string) (batches : list (list string))
    (w : World) : World :=
  fold_left (fun w b => log_call (request model b) w) batches w.

(** Contract of the embedding service for a list of inputs: a response
    carries one embedding for each input. *)
Definition one_vector_per_input (svc : embedding_service) : Prop :=
  forall hist model inputs r,
    svc hist model (Batch inputs) = Ok r ->
    List.length r = List.length inputs.


(** The store after a successful [add_documents]. *)
Definition extended (self : VectorStoreManager)
    (new_chunks : list DocumentChunk) (vs : list (list Q)) : VectorStoreManager :=
  {| embedding_model := embedding_model self; dimension := dimension self;
     index := {| faiss.d := faiss.d (index self);
                 faiss.xb := faiss.xb (index self) ++ vs |};
     chunks := chunks self ++ new_chunks;
     embeddings := embeddings self ++ vs |}.

End batching.

Module persistence.
Import document_processor world vector_store_manager batching.



(** The directory in which the files of a saved store lie: the directory
    of [Path(directory) / (name + suffix)], whatever the suffix. *)
Definition store_dir (directory name : string) : pathlib.PurePath :=
  let anchor :=
    match pathlib.root_of name with
    | EmptyString => pathlib.Path directory
    | r => {| pathlib.root := r; pathlib.parts := [] |}
    end in
  {| pathlib.root := pathlib.root anchor;
     pathlib.parts :=
       pathlib.parts anchor
       ++ List.filter pathlib.kept (removelast (pathlib.components name)) |}.

(** The common prefix of the three paths of a saved store: the path
    [Path(directory) / (name + suffix)] without the suffix. *)
Definition store_base (directory name : string) : string :=
  let dir := store_dir directory name in
  pathlib.root dir
  +:+ join "/" (pathlib.parts dir
                ++ [List.last (pathlib.components name) EmptyString]).


(** What [save] leaves of the world apart from the files: the services,
    the policies of the file system and the log of requests. *)
Definition same_services (w w' : World) : Prop :=
  embeddings_create w' = embeddings_create w
  /\ chat_completions_create w' = chat_completions_create w
  /\ pdf_reader w' = pdf_reader w
  /\ now_isoformat w' = now_isoformat w
  /\ mkdir_error w' = mkdir_error w
  /\ create_error w' = create_error w
  /\ calls w' = calls w.

(** The descriptor and the files [save] writes. *)
Definition saved_metadata (self : VectorStoreManager) : store_metadata :=
  {| meta_embedding_model := embedding_model self;
     meta_dimension := dimension self;
     num_chunks := llen (chunks self);
     num_embeddings := llen (embeddings self) |}.

Definition saved_files (self : VectorStoreManager) (base : string)
    (fs : gmap string file) : gmap string file :=
  <[base +:+ "_metadata.json" := JsonFile (saved_metadata self)]>
    (<[base +:+ "_chunks.pkl" := PickleFile (chunks self)]>
       (<[base +:+ ".faiss" := FaissFile (index self)]> fs)).

(** The store after [load] read an index and a chunk list. *)
Definition with_index_and_chunks (idx : faiss.IndexFlatL2)
    (cs : list DocumentChunk) (self : VectorStoreManager) : VectorStoreManager :=
  {| embedding_model := embedding_model self; dimension := dimension self;
     index := idx; chunks := cs; embeddings := embeddings self |}.

(** The fields of a store that [search] reads. *)
Definition normalized (self : VectorStoreManager) : VectorStoreManager :=
  {| embedding_model := embedding_model self; dimension := 0;
     index := index self; chunks := chunks self; embeddings := [] |}.




(** The last character of a string. *)
Fixpoint last_char (s : string) : option ascii :=
  match s with
  | EmptyString => None
  | String c EmptyString => Some c
  | String _ s' => last_char s'
  end.


End persistence.

(** ** Sample worlds and stores used to run the code *)
Module demo.
Import document_processor world vector_store_manager.

(** A toy embedding: the length of the text and a zero. *)
Definition embed_text (t : string) : list Q := [inject_Z (len t); 0%Q].

Definition embed (input : embed_input) : list (list Q) :=
  match input with
  | Text t => [embed_text t]
  | Batch ts => map embed_text ts
  end.

(** An embedding service that fails on the histories [flaky] selects. *)
Definition embeddings_service (flaky : list call -> bool)
  : list call -> string -> embed_input -> Res (list (list Q)) :=
  fun hist _ input =>
    if flaky hist then Raise (mk_exn Exception "Rate limit reached.")
    else Ok (embed input).

(** Both services always answer. *)
Definition w0 : World :=
  {| embeddings_create := embeddings_service (fun _ => false);
     chat_completions_create := fun _ _ _ _ => Ok "An answer.";
     pdf_reader := fun _ => Some (Ok ["Hello world. This is a test."]);
     now_isoformat := fun _ => "2024-01-01T00:00:00";
     mkdir_error := fun _ _ => None;
     create_error := fun _ _ => None;
     files := ∅;
     dirs_made := [];
     calls := [] |}.

Definition chunk_of (t : string) (idx : Z) : DocumentChunk :=
  new_chunk "doc.pdf" 1 idx t.

Definition c_ab : DocumentChunk := chunk_of "ab" 0.
Definition c_cde : DocumentChunk := chunk_of "cde" 1.

(** A store of dimension 2 after [add_documents] of one and of two
    chunks. *)
Definition store1 : VectorStoreManager :=
  fst (snd (add_documents [c_ab] (vector_store_manager.init "m" 2, w0))).
Definition store2 : VectorStoreManager :=
  fst (snd (add_documents [c_ab; c_cde] (vector_store_manager.init "m" 2, w0))).

(** The same world where the second embedding request fails. *)
Definition w_flaky : World :=
  {| embeddings_create :=
       embeddings_service (fun hist => (List.length hist =? 1)%nat);
     chat_completions_create := chat_completions_create w0;
     pdf_reader := pdf_reader w0;
     now_isoformat := now_isoformat w0;
     mkdir_error := fun _ _ => None;
     create_error := fun _ _ => None;
     files := ∅;
     dirs_made := [];
     calls := [] |}.

(** 250 chunks with contents ["x"], numbered from 0. *)
Definition chunks250 : list DocumentChunk :=
  map (fun i => chunk_of "x" (Z.of_nat i)) (seq 0 250).

(** The same world with a completion service that is down. *)
Definition w_chat_down : World :=
  {| embeddings_create := embeddings_create w0;
     chat_completions_create :=
       fun _ _ _ _ => Raise (mk_exn Exception "Connection error.");
     pdf_reader := pdf_reader w0;
     now_isoformat := now_isoformat w0;
     mkdir_error := fun _ _ => None;
     create_error := fun _ _ => None;
     files := ∅;
     dirs_made := [];
     calls := [] |}.

(** A new agent whose store has dimension 2 and whose chunker keeps short
    chunks. *)
Definition agent0 : doc_qa_agent.DocumentQAAgent :=
  {| doc_qa_agent.name := "Document Q&A Agent";
     doc_qa_agent.processor :=
       {| chunk_size := 20; chunk_overlap := 5; min_chunk_size := 3 |};
     doc_qa_agent.vector_store := vector_store_manager.init "m" 2;
     doc_qa_agent.conversation_history := [];
     doc_qa_agent.session_info :=
       {| doc_qa_agent.start_time := "2024-01-01T00:00:00";
          doc_qa_agent.documents_loaded := [];
          doc_qa_agent.total_chunks := 0;
          doc_qa_agent.queries_processed := 0 |};
     doc_qa_agent.system_prompt := doc_qa_agent.the_system_prompt |}.

(** The agent after [load_document], where completions fail. *)
Definition loaded_chat_down : doc_qa_agent.state :=
  snd (doc_qa_agent.load_document "docs/doc.pdf" (agent0, w_chat_down)).

(** The world after [store2] was saved as [stores/default]. *)
Definition w_saved : World :=
  snd (snd (save "stores" "default" (store2, w0))).

End demo.

(** ** Vocabulary of the further results *)
Module more.
Import document_processor world vector_store_manager document_loading
       document_batch doc_qa_agent doc_qa_agent_more persistence session.

(** Two worlds that differ at most in the log of calls. *)
Definition only_calls_differ (w w' : World) : Prop :=
  embeddings_create w' = embeddings_create w
  /\ chat_completions_create w' = chat_completions_create w
  /\ pdf_reader w' = pdf_reader w
  /\ now_isoformat w' = now_isoformat w
  /\ files w' = files w
  /\ mkdir_error w' = mkdir_error w
  /\ create_error w' = create_error w
  /\ dirs_made w' = dirs_made w.

(** The agent after [ask] recorded an answer. *)
Definition answered (a : DocumentQAAgent) (entry : history_entry)
  : DocumentQAAgent :=
  set_session
    {| start_time := start_time (session_info a);
       documents_loaded := documents_loaded (session_info a);
       total_chunks := total_chunks (session_info a);
       queries_processed := queries_processed (session_info a) + 1 |}
    (set_history (conversation_history a ++ [entry]) a).



(** The calls a user can make on an agent. *)
Inductive action :=
| Command (c : command)
| LoadDocument (file_path : string)
| LoadMultipleDocuments (file_paths : list string)
| Chat (message model : string) (minutes : Z).

Definition run_action (s : doc_qa_agent.state) (act : action)
  : doc_qa_agent.state :=
  match act with
  | Command c => run_command s c
  | LoadDocument p => snd (load_document p s)
  | LoadMultipleDocuments ps => snd (load_multiple_documents ps s)
  | Chat m model minutes => snd (chat m model minutes s)
  end.


(** The query counter counts the recorded answers. *)
Definition counted (a : DocumentQAAgent) : Prop :=
  queries_processed (session_info a) = llen (conversation_history a).



(** The documents of [file_paths] that [process_document] can process, with
    their chunks and metadata, in order. *)
Fixpoint processed (self : DocumentProcessor) (w : World)
    (file_paths : list string)
  : list (list DocumentChunk * document_metadata) :=
  match file_paths with
  | [] => []
  | p :: rest =>
      match fst (process_document self p w) with
      | Ok r => r :: processed self w rest
      | Raise _ => processed self w rest
      end
  end.

(** The lines [chat] appends for the keys [keys], after [text]. *)
Definition source_lines (text : string) (keys : list string) : string :=
  fold_left (fun t key => t +:+ "- " +:+ key +:+ nl) keys text.

(** The keys [keys] stand in the order in which they first occur in
    [all]: of two keys of [keys], the earlier one occurs in [all] before
    every occurrence of the later one. *)
Definition by_first_occurrence (keys all : list string) : Prop :=
  forall i j k1 k2,
    keys !! i = Some k1 -> keys !! j = Some k2 -> (i < j)%nat ->
    exists p, all !! p = Some k1
              /\ forall q, all !! q = Some k2 -> (p < q)%nat.

(** [chat] takes the message for a question. *)
Definition is_question (message : string) : bool :=
  existsb (fun indicator => contains indicator (lower message))
          question_indicators.

End more.

(** ** Vocabulary of the further results on text *)
Module text.
Import document_processor.

Definition chars (s : string) : list ascii := list_ascii_of_string s.

(** [lstrip] on a list of characters. *)
Fixpoint lstrip_list (l : list ascii) : list ascii :=
  match l with
  | c :: l' => if is_space c then lstrip_list l' else l
  | [] => []
  end.

(** A character [clean_text] can leave in its result: one of the class it
    keeps, and no white space other than the space. *)
Definition clean_char (c : ascii) : Prop :=
  keep_char c = true /\ (is_space c = true -> c = " "%char).

(** A text without an opening bracket. *)
Definition no_bracket (s : string) : Prop :=
  Forall (fun c => c <> "["%char) (chars s).

(** The chunk [c] was made by [chunk_text] for the source [src] on one of
    the pages [pages]: its identifier, source and character count are those
    the chunker derives from its page, index and content. *)
Definition made_on (src : string) (pages : list Z) (c : DocumentChunk) : Prop :=
  In (page (metadata c)) pages
  /\ c = new_chunk src (page (metadata c)) (chunk_index (metadata c))
                   (content c).

(** A closed buffer is one sentence, or at most one character longer than
    [chunk_size]. *)
Definition bounded_buffer (self : DocumentProcessor) (b : list string) : Prop :=
  List.length b = 1%nat \/ len (join " " b) <= chunk_size self + 1.

(** What the sentence loop keeps true of its buffer and running length. *)
Definition buffer_ok (self : DocumentProcessor) (cur : list string)
    (cl : Z) : Prop :=
  match cur with
  | [] => cl = 0
  | _ => (cl = len (join " " cur) \/ cl = len (join " " cur) + 1)
         /\ ((2 <= List.length cur)%nat -> cl <= chunk_size self + 1)
  end.

(** A text whose last character ends a sentence. *)
Definition ends_sentence (s : string) : Prop :=
  exists c, last (chars s) = Some c /\ is_sentence_end c = true.

(** White space only. *)
Definition blank (s : string) : Prop :=
  Forall (fun c => is_space c = true) (chars s).

(** The pages of a PDF that have text, each with its position in the
    document, counted from [page_num]. *)
Fixpoint marked (page_num : Z) (page_texts : list string)
  : list (Z * string) :=
  match page_texts with
  | [] => []
  | page_text :: rest =>
      match page_text with
      | EmptyString => marked (page_num + 1) rest
      | _ => (page_num, page_text) :: marked (page_num + 1) rest
      end
  end.

(** A page of the split stands for a page of the PDF: same number, and the
    text of the page between white space. *)
Definition stands_for (pc nt : Z * string) : Prop :=
  fst pc = fst nt
  /\ exists a b, blank a /\ blank b /\ snd pc = a +:+ snd nt +:+ b.

(** The chunks the page loop of [chunk_text] makes of numbered pages. *)
Definition chunk_pages (self : DocumentProcessor) (src : string)
    (pcs : list (Z * string)) : list DocumentChunk :=
  fst (fold_left (page_step self src) pcs ([], 0)).

End text.

(** ** Further sample worlds *)
Module demo_more.
Import document_processor world vector_store_manager doc_qa_agent.

(** A world where [missing.pdf] does not exist and [empty.pdf] has two
    pages without text. *)
Definition w_docs : World :=
  {| embeddings_create := embeddings_create demo.w0;
     chat_completions_create := chat_completions_create demo.w0;
     pdf_reader := fun p =>
       if String.eqb p "missing.pdf" then None
       else if String.eqb p "empty.pdf" then Some (Ok [""; ""])
       else Some (Ok ["Hello world. This is a test."]);
     now_isoformat := now_isoformat demo.w0;
     mkdir_error := fun _ _ => None;
     create_error := fun _ _ => None;
     files := ∅;
     dirs_made := [];
     calls := [] |}.

(** A world where every PDF has three pages, the second without text. *)
Definition w_pages : World :=
  {| embeddings_create := embeddings_create demo.w0;
     chat_completions_create := chat_completions_create demo.w0;
     pdf_reader := fun _ => Some (Ok ["One."; ""; "Three."]);
     now_isoformat := now_isoformat demo.w0;
     mkdir_error := fun _ _ => None;
     create_error := fun _ _ => None;
     files := ∅;
     dirs_made := [];
     calls := [] |}.

(** A world whose embedding service gives three components for the model
    [large] and two for every other model. *)
Definition w_models : World :=
  {| embeddings_create := fun _ model input =>
       if String.eqb model "large"
       then Ok (map (fun v => v ++ [0%Q]) (demo.embed input))
       else Ok (demo.embed input);
     chat_completions_create := chat_completions_create demo.w0;
     pdf_reader := pdf_reader demo.w0;
     now_isoformat := now_isoformat demo.w0;
     mkdir_error := fun _ _ => None;
     create_error := fun _ _ => None;
     files := ∅;
     dirs_made := [];
     calls := [] |}.


(** A world where every embedding request fails. *)
Definition w_embed_down : World :=
  {| embeddings_create := demo.embeddings_service (fun _ => true);
     chat_completions_create := chat_completions_create demo.w0;
     pdf_reader := pdf_reader demo.w0;
     now_isoformat := now_isoformat demo.w0;
     mkdir_error := fun _ _ => None;
     create_error := fun _ _ => None;
     files := ∅;
     dirs_made := [];
     calls := [] |}.

(** A new agent as [__init__] makes it, and that agent after it loaded a
    document too short to give a chunk. *)
Definition agent_default : DocumentQAAgent :=
  doc_qa_agent.init 1000 200 "m" w_docs.
Definition loaded_without_chunks : doc_qa_agent.state :=
  snd (load_document "a.pdf" (agent_default, w_docs)).

(** The agent after [load_document] in [w0]. *)
Definition loaded : doc_qa_agent.state :=
  snd (load_document "docs/doc.pdf" (demo.agent0, demo.w0)).

(** A disk with an index file and no chunk file. *)
Definition w_half_saved : World :=
  write_file (index_path "stores" "half")
             (FaissFile (index demo.store2)) demo.w0.

End demo_more.

(* ===================================================================== *)
(** * Facts about the runtime helpers                                    *)
(* ===================================================================== *)

Lemma length_string_app (a b : string) :
  String.length (a +:+ b) = (String.length a + String.length b)%nat.
Proof. induction a as [|c a IH]; simpl; [reflexivity | now rewrite IH]. Qed.

Lemma len_app (a b : string) : len (a +:+ b) = len a + len b.
Proof. unfold len. rewrite length_string_app. lia. Qed.

Lemma len_nonneg (s : string) : 0 <= len s.
Proof. unfold len. lia. Qed.

Lemma string_app_assoc (a b c : string) :
  ((a +:+ b) +:+ c) = (a +:+ (b +:+ c)).
Proof.
  induction a as [|x a IH]; [reflexivity|].
  change (String x ((a +:+ b) +:+ c) = String x (a +:+ (b +:+ c))).
  now rewrite IH.
Qed.

Lemma join_snoc (sep : string) (l : list string) (s : string) :
  l <> [] -> join sep (l ++ [s]) = ((join sep l +:+ sep) +:+ s).
Proof.
  induction l as [|a l IH]; [congruence | intros _].
  destruct l as [|b l].
  - change (join sep ([a] ++ [s])) with (a +:+ sep +:+ s).
    change (join sep [a]) with a. symmetry. apply string_app_assoc.
  - change (join sep ((a :: b :: l) ++ [s]))
      with (a +:+ sep +:+ join sep ((b :: l) ++ [s])).
    rewrite IH by congruence.
    change (join sep (a :: b :: l)) with (a +:+ sep +:+ join sep (b :: l)).
    now rewrite !string_app_assoc.
Qed.

(* ===================================================================== *)
(** * The chunker                                                        *)
(* ===================================================================== *)

Module chunker_facts.
Import document_processor chunker.

Section Loop.
Variable self : DocumentProcessor.
Variable src : string.

Lemma buffers_partition cur cl ss :
  concat (buffers_from self cur cl ss) = cur ++ ss.
Proof.
  revert cur cl. induction ss as [|s ss IH]; intros cur cl; simpl.
  - destruct cur; simpl; [reflexivity | now rewrite app_nil_r].
  - destruct ((chunk_size self <? cl + len s)%Z
              && match cur with [] => false | _ => true end).
    + simpl. now rewrite IH.
    + rewrite IH, <- app_assoc. reflexivity.
Qed.

Lemma emit_contents page_num st :
  map content (st_chunks (emit self src page_num st))
  = map content (st_chunks st)
    ++ List.filter (long_enough self) [join " " (st_current_chunk st)].
Proof.
  unfold emit, long_enough. simpl.
  destruct (min_chunk_size self <=? len (join " " (st_current_chunk st)))%Z;
    simpl; [now rewrite map_app | now rewrite app_nil_r].
Qed.

Lemma emit_buffer page_num st :
  st_current_chunk (emit self src page_num st) = st_current_chunk st
  /\ st_current_length (emit self src page_num st) = st_current_length st.
Proof. unfold emit. now destruct (_ <=? _)%Z. Qed.

Lemma sentence_step_overflow page_num st s :
  overflows self st s = true ->
  sentence_step self src page_num st s = seed s (emit self src page_num st).
Proof.
  intros H. unfold sentence_step. rewrite H. now destruct (_ <? _)%Z.
Qed.

Lemma sentence_loop_contents page_num ss st :
  map content (st_chunks (close_page self src page_num
     (fold_left (sentence_step self src page_num) ss st)))
  = map content (st_chunks st)
    ++ List.filter (long_enough self)
         (map (join " ")
              (buffers_from self (st_current_chunk st) (st_current_length st) ss)).
Proof.
  revert st. induction ss as [|s ss IH]; intros st.
  - simpl. unfold close_page.
    destruct (st_current_chunk st) eqn:E.
    + simpl. now rewrite app_nil_r.
    + rewrite emit_contents, E. reflexivity.
  - simpl fold_left. rewrite IH. simpl buffers_from.
    fold (overflows self st s).
    destruct (overflows self st s) eqn:Hov.
    + rewrite (sentence_step_overflow _ _ _ Hov). simpl.
      rewrite emit_contents. unfold long_enough at 1 3. simpl.
      destruct (min_chunk_size self <=? len (join " " (st_current_chunk st)))%Z;
        simpl; now rewrite <- app_assoc.
    + unfold sentence_step. rewrite Hov. reflexivity.
Qed.

Lemma numbered_emit page_num st :
  numbered (st_chunks st) (st_chunk_index st) ->
  numbered (st_chunks (emit self src page_num st))
           (st_chunk_index (emit self src page_num st)).
Proof.
  intros [Hi Hm]. unfold emit.
  destruct (_ <=? _)%Z; simpl; [|now split].
  split.
  - unfold llen in *. rewrite length_app. simpl. lia.
  - rewrite map_app, length_app. simpl.
    rewrite Nat.add_1_r, seq_S, map_app, Hm. simpl.
    rewrite Hi. reflexivity.
Qed.

Lemma numbered_step page_num st s :
  numbered (st_chunks st) (st_chunk_index st) ->
  numbered (st_chunks (sentence_step self src page_num st s))
           (st_chunk_index (sentence_step self src page_num st s)).
Proof.
  intros H. unfold sentence_step.
  destruct (overflows self st s); [|exact H].
  destruct (_ <? _)%Z; simpl; now apply numbered_emit.
Qed.

Lemma numbered_loop page_num ss st :
  numbered (st_chunks st) (st_chunk_index st) ->
  let st' := fold_left (sentence_step self src page_num) ss st in
  numbered (st_chunks st') (st_chunk_index st').
Proof.
  revert st. induction ss as [|s ss IH]; intros st H; simpl; [exact H|].
  apply IH. now apply numbered_step.
Qed.

Lemma page_step_eq acc pc :
  page_step self src acc pc =
  let st := close_page self src (fst pc)
              (fold_left (sentence_step self src (fst pc)) (sentences_of (snd pc))
                 {| st_chunks := fst acc; st_chunk_index := snd acc;
                    st_current_chunk := []; st_current_length := 0 |}) in
  (st_chunks st, st_chunk_index st).
Proof. destruct pc as [n t]. reflexivity. Qed.

Lemma numbered_pages pcs acc :
  numbered (fst acc) (snd acc) ->
  let r := fold_left (page_step self src) pcs acc in
  numbered (fst r) (snd r).
Proof.
  revert acc. induction pcs as [|pc pcs IH]; intros acc H; simpl; [exact H|].
  apply IH. rewrite page_step_eq. simpl.
  unfold close_page.
  match goal with |- context [fold_left ?f ?l ?s] =>
    pose proof (numbered_loop (fst pc) l s H) as Hl; simpl in Hl;
    destruct (st_current_chunk (fold_left f l s)) end.
  - exact Hl.
  - now apply numbered_emit.
Qed.

Lemma pages_contents pcs acc :
  map content (fst (fold_left (page_step self src) pcs acc))
  = map content (fst acc)
    ++ List.filter (long_enough self)
         (map (join " ") (concat (map (page_buffers self) pcs))).
Proof.
  revert acc. induction pcs as [|pc pcs IH]; intros acc; simpl.
  - now rewrite app_nil_r.
  - rewrite IH, page_step_eq. simpl fst.
    rewrite sentence_loop_contents. simpl.
    rewrite map_app, List.filter_app, <- app_assoc. reflexivity.
Qed.

Lemma tracks_step page_num st s :
  length_tracks_buffer st ->
  length_tracks_buffer (sentence_step self src page_num st s).
Proof.
  intros H. unfold sentence_step.
  destruct (overflows self st s) eqn:Hov.
  - destruct (_ <? _)%Z; unfold length_tracks_buffer; simpl; now left.
  - unfold length_tracks_buffer in *.
    cbn [st_current_chunk st_current_length].
    destruct (st_current_chunk st) as [|a cur] eqn:E.
    + simpl. right. rewrite H. lia.
    + assert (Hne : a :: cur <> []) by congruence.
      pose proof (join_snoc " " (a :: cur) s Hne) as Hj.
      change ((a :: cur) ++ [s]) with (a :: (cur ++ [s])) in *.
      cbv iota. rewrite Hj, !len_app. change (len " ") with 1.
      destruct H as [H|H]; rewrite H; [left|right]; lia.
Qed.

Lemma tracks_loop page_num ss st :
  length_tracks_buffer st ->
  length_tracks_buffer (fold_left (sentence_step self src page_num) ss st).
Proof.
  revert st. induction ss as [|s ss IH]; intros st H; simpl; [exact H|].
  apply IH. now apply tracks_step.
Qed.

End Loop.

Lemma lookup_map {A B} (f : A -> B) (l : list A) (i : nat) :
  map f l !! i = f <$> (l !! i).
Proof.
  revert i. induction l as [|a l IH]; intros [|i]; simpl; try reflexivity.
  apply IH.
Qed.

Lemma numbered_lookup cs idx i c :
  numbered cs idx -> cs !! i = Some c -> index_of c = Z.of_nat i.
Proof.
  intros [_ Hm] Hc.
  assert (H : map index_of cs !! i = Some (index_of c))
    by (rewrite lookup_map, Hc; reflexivity).
  rewrite Hm, lookup_map in H.
  destruct (seq 0 (List.length cs) !! i) as [j|] eqn:E; [|discriminate].
  apply lookup_seq in E. destruct E as [-> _]. simpl in H. congruence.
Qed.

Lemma sentence_step_overlap self o src page_num st s :
  sentence_step (with_overlap o self) src page_num st s
  = sentence_step self src page_num st s.
Proof.
  unfold sentence_step, overflows, emit, with_overlap. simpl.
  destruct (_ && _); [|reflexivity].
  now destruct (o <? _)%Z, (chunk_overlap self <? _)%Z.
Qed.

Lemma fold_left_ext_eq {A B} (f g : A -> B -> A) (l : list B) (a : A) :
  (forall a b, f a b = g a b) -> fold_left f l a = fold_left g l a.
Proof.
  intros H. revert a. induction l as [|b l IH]; intros a; simpl;
    [reflexivity | now rewrite H, IH].
Qed.

Lemma page_step_overlap self o src acc pc :
  page_step (with_overlap o self) src acc pc = page_step self src acc pc.
Proof.
  destruct pc as [n t]. unfold page_step.
  rewrite (fold_left_ext_eq _ (sentence_step self src n))
    by (intros; apply sentence_step_overlap).
  reflexivity.
Qed.

Lemma chunk_text_overlap self o text src :
  chunk_text (with_overlap o self) text src = chunk_text self text src.
Proof.
  unfold chunk_text.
  rewrite (fold_left_ext_eq _ (page_step self src))
    by (intros; apply page_step_overlap).
  reflexivity.
Qed.

End chunker_facts.


(* ===================================================================== *)
(** * Search and context assembly                                        *)
(* ===================================================================== *)

Module retrieval_facts.
Import document_processor world vector_store_manager retrieval.

(** What the loop of [get_context_for_query] keeps: a prefix [taken] of the
    results, one context part and one source entry for each of them, in
    order; the contents taken fit the budget, and the first result left out
    would not have fitted. *)
Lemma accumulate_prefix max rs parts srcs cur :
  exists taken rest,
    rs = taken ++ rest
    /\ accumulate max rs parts srcs cur
       = (parts ++ map (fun r => content (fst r)) taken,
          srcs ++ map (fun r => source_of (fst r) (snd r)) taken)
    /\ (cur <= max -> cur + contents_length taken <= max)
    /\ match rest with
       | [] => True
       | r :: _ => max < cur + contents_length taken + len (content (fst r))
       end.
Proof.
  revert parts srcs cur. induction rs as [|[c s] rs IH]; intros parts srcs cur.
  - exists [], []. simpl. rewrite !app_nil_r. repeat split. lia.
  - simpl. destruct (max <? cur + len (content c))%Z eqn:T.
    + exists [], ((c, s) :: rs). simpl. rewrite !app_nil_r.
      repeat split; lia.
    + destruct (IH (parts ++ [content c]) (srcs ++ [source_of c s])
                   (cur + len (content c))) as (taken & rest & E & Ha & Hb & Hc).
      exists ((c, s) :: taken), rest.
      split; [simpl; now rewrite E|].
      split; [rewrite Ha, <- !app_assoc; reflexivity|].
      simpl. split.
      * intros _. assert (cur + len (content c) <= max) by lia. lia.
      * destruct rest; [exact I|]. lia.
Qed.

(** ** The flat index *)

Lemma insert_by_distance_perm x l :
  Permutation (faiss.insert_by_distance x l) (x :: l).
Proof.
  induction l as [|y l IH]; simpl; [reflexivity|].
  destruct (Qle_bool (fst x) (fst y)); [reflexivity|].
  rewrite IH. apply perm_swap.
Qed.

Lemma sort_by_distance_perm l : Permutation (faiss.sort_by_distance l) l.
Proof.
  induction l as [|x l IH]; simpl; [reflexivity|].
  rewrite insert_by_distance_perm. now constructor.
Qed.

Lemma insert_by_distance_sorted x l :
  ascending l -> ascending (faiss.insert_by_distance x l).
Proof.
  unfold ascending. induction 1 as [|y l Hl IH Hy]; simpl.
  - repeat constructor.
  - destruct (Qle_bool (fst x) (fst y)) eqn:E.
    + apply Qle_bool_imp_le in E.
      constructor; [now constructor|].
      constructor; [exact E|].
      eapply List.Forall_impl; [|exact Hy].
      intros z Hz. simpl in *. now apply Qle_trans with (fst y).
    + assert (Hyx : (fst y <= fst x)%Q).
      { apply Qlt_le_weak, Qnot_le_lt. intros H.
        apply Qle_bool_iff in H. congruence. }
      constructor; [exact IH|].
      eapply Permutation_Forall.
      * symmetry. apply insert_by_distance_perm.
      * now constructor.
Qed.

Lemma sort_by_distance_sorted l : ascending (faiss.sort_by_distance l).
Proof.
  induction l as [|x l IH]; simpl; [constructor|].
  now apply insert_by_distance_sorted.
Qed.

Lemma fvec_L2sqr_nonneg x y : (0 <= faiss.fvec_L2sqr x y)%Q.
Proof.
  revert y. induction x as [|a x IH]; intros [|b y]; simpl;
    try apply Qle_refl.
  assert (H : (0 <= (a - b) * (a - b))%Q).
  { generalize (a - b)%Q. intros [n d]. unfold Qle, Qmult. simpl. nia. }
  specialize (IH y).
  apply Qle_trans with (0 + 0)%Q; [apply Qle_refl|].
  now apply Qplus_le_compat.
Qed.

Lemma labelled_distances_stored idx q :
  Forall (stored_hit (faiss.ntotal idx)) (faiss.labelled_distances idx q).
Proof.
  unfold faiss.labelled_distances, faiss.ntotal, llen.
  apply List.Forall_forall. intros [dist lbl] Hin.
  pose proof (in_combine_l _ _ _ _ Hin) as Hd.
  pose proof (in_combine_r _ _ _ _ Hin) as Hl.
  apply in_map_iff in Hd. destruct Hd as (x & <- & _).
  apply in_map_iff in Hl. destruct Hl as (i & <- & Hi).
  apply in_seq in Hi. split; simpl; [apply fvec_L2sqr_nonneg | lia].
Qed.

Lemma sorted_stored idx q :
  Forall (stored_hit (faiss.ntotal idx))
         (faiss.sort_by_distance (faiss.labelled_distances idx q)).
Proof.
  eapply Permutation_Forall.
  - symmetry. apply sort_by_distance_perm.
  - apply labelled_distances_stored.
Qed.

Lemma ascending_take k hits : ascending hits -> ascending (firstn k hits).
Proof.
  unfold ascending. intros H. revert k.
  induction H as [|h hits Hs IH Hh]; intros [|k]; simpl; try constructor.
  - apply IH.
  - now apply Forall_take.
Qed.

Lemma FLT_MAX_nonneg : (0 <= faiss.FLT_MAX)%Q.
Proof. unfold faiss.FLT_MAX, Qle. simpl. lia. Qed.

Lemma knn_length idx q k : List.length (faiss.knn idx q k) = k.
Proof.
  unfold faiss.knn. rewrite length_app, repeat_length.
  pose proof (firstn_le_length k
                (faiss.sort_by_distance (faiss.labelled_distances idx q))).
  lia.
Qed.

Lemma knn_valid idx q k :
  0 < faiss.ntotal idx ->
  Forall (valid_hit (faiss.ntotal idx)) (faiss.knn idx q k).
Proof.
  intros Hn. unfold faiss.knn. apply Forall_app. split.
  - apply Forall_take.
    eapply List.Forall_impl; [|apply sorted_stored].
    intros h [H1 H2]. split; [exact H1 | lia].
  - apply List.Forall_forall. intros h Hh. apply repeat_spec in Hh. subst h.
    split; simpl; [apply FLT_MAX_nonneg | lia].
Qed.

Lemma labelled_distances_length idx q :
  List.length (faiss.labelled_distances idx q) = List.length (faiss.xb idx).
Proof.
  unfold faiss.labelled_distances.
  rewrite length_combine, !length_map, length_seq. lia.
Qed.

Lemma sorted_length idx q :
  List.length (faiss.sort_by_distance (faiss.labelled_distances idx q))
  = List.length (faiss.xb idx).
Proof.
  rewrite (Permutation_length (sort_by_distance_perm _)).
  apply labelled_distances_length.
Qed.

(** Within the size of the index nothing is padded. *)
Lemma knn_within idx q k :
  (k <= List.length (faiss.xb idx))%nat ->
  faiss.knn idx q k
  = firstn k (faiss.sort_by_distance (faiss.labelled_distances idx q)).
Proof.
  intros Hk. unfold faiss.knn.
  rewrite length_take, sorted_length.
  replace (k - k `min` List.length (faiss.xb idx))%nat with 0%nat by lia.
  apply app_nil_r.
Qed.

(** Beyond the size of the index every stored vector is returned, followed
    by the padding. *)
Lemma knn_beyond idx q k :
  (List.length (faiss.xb idx) <= k)%nat ->
  faiss.knn idx q k
  = faiss.sort_by_distance (faiss.labelled_distances idx q)
    ++ repeat (faiss.FLT_MAX, -1) (k - List.length (faiss.xb idx)).
Proof.
  intros Hk. unfold faiss.knn.
  rewrite firstn_all2 by (rewrite sorted_length; lia).
  now rewrite sorted_length.
Qed.

(** ** The result loop of search *)

Lemma similarity_defined dist :
  (0 <= dist)%Q -> Qeq_bool (1 + dist) 0 = false.
Proof.
  intros H. destruct (Qeq_bool (1 + dist) 0) eqn:E; [|reflexivity].
  apply Qeq_bool_eq in E.
  assert (0 < 1 + dist)%Q.
  { apply Qlt_le_trans with (1 + 0)%Q; [reflexivity|].
    apply Qplus_le_compat; [apply Qle_refl | exact H]. }
  rewrite E in H0. now apply Qlt_irrefl in H0.
Qed.

Lemma index_valid {A} (l : list A) (i : Z) :
  0 < llen l -> -1 <= i < llen l -> exists x, py.index l i = Some x.
Proof.
  unfold py.index, llen. intros Hl H.
  destruct (0 <=? i)%Z eqn:E.
  - apply Z.leb_le in E.
    destruct (nth_error l (Z.to_nat i)) eqn:En; [eauto|].
    apply nth_error_None in En. lia.
  - apply Z.leb_gt in E. assert (i = -1) by lia. subst i.
    destruct (- Z.of_nat (List.length l) <=? -1)%Z eqn:E2;
      [|apply Z.leb_gt in E2; lia].
    destruct (nth_error l (Z.to_nat (Z.of_nat (List.length l) + -1))) eqn:En;
      [eauto|].
    apply nth_error_None in En. lia.
Qed.

Lemma collect_results_valid cs hits acc :
  0 < llen cs ->
  Forall (valid_hit (llen cs)) hits ->
  exists rs,
    collect_results cs hits acc = Ok (acc ++ rs)
    /\ Forall2 (result_of_hit cs) hits rs.
Proof.
  intros Hl H. revert acc. induction H as [|[dist idx] hits [Hd Hi] _ IH];
    intros acc; simpl in *.
  - exists []. rewrite app_nil_r. split; [reflexivity | constructor].
  - destruct (idx <? llen cs)%Z eqn:E; [|lia].
    destruct (index_valid cs idx Hl Hi) as [c Hc]. rewrite Hc.
    rewrite (similarity_defined dist Hd).
    destruct (IH (acc ++ [(c, (1 / (1 + dist))%Q)])) as (rs & E1 & E2).
    exists ((c, (1 / (1 + dist))%Q) :: rs). split.
    + rewrite E1, <- app_assoc. reflexivity.
    + constructor; [|exact E2]. split; [exact Hc | reflexivity].
Qed.

Lemma split_knn idx q k :
  combine (fst (List.split (faiss.knn idx q k)))
          (snd (List.split (faiss.knn idx q k))) = faiss.knn idx q k.
Proof.
  pose proof (split_combine (faiss.knn idx q k)) as H.
  destruct (List.split (faiss.knn idx q k)) as [ds ls]. now apply H.
Qed.

(** [search] returns one result for each hit of the index. *)
Lemma search_returns self w q k e es :
  chunks self <> [] ->
  faiss.ntotal (index self) = llen (chunks self) ->
  0 < k ->
  embeddings_create w (calls w) (embedding_model self) (Text q) = Ok (e :: es) ->
  llen e = faiss.d (index self) ->
  exists rs,
    fst (search q k (self, w)) = Ok rs
    /\ Forall2 (result_of_hit (chunks self))
               (faiss.knn (index self) e (Z.to_nat k)) rs
    /\ List.length rs = Z.to_nat k.
Proof.
  intros Hne Hn Hk He Hd.
  assert (Hpos : 0 < faiss.ntotal (index self)).
  { rewrite Hn. unfold llen. destruct (chunks self); [congruence|].
    simpl. lia. }
  pose proof (knn_valid (index self) e (Z.to_nat k) Hpos) as Hv.
  rewrite Hn in Hv, Hpos.
  destruct (collect_results_valid (chunks self) _ [] Hpos Hv) as (rs & E1 & E2).
  exists rs. split; [|split; [exact E2|]].
  - unfold search, bind, self_, gets. simpl.
    destruct (chunks self) as [|c cs] eqn:Ec; [congruence|].
    unfold create_embedding, bind, self_, gets, try_except, in_world, zoom,
      request_embeddings, lift_res. simpl. rewrite He. simpl.
    unfold faiss.search. rewrite Hd, Z.eqb_refl. simpl.
    destruct (0 <? k)%Z eqn:Ek; [|lia]. simpl.
    destruct (List.split (faiss.knn (index self) e (Z.to_nat k)))
      as [ds ls] eqn:Es.
    pose proof (split_knn (index self) e (Z.to_nat k)) as Hs.
    rewrite Es in Hs. simpl in Hs. simpl. rewrite Hs. exact E1.
  - rewrite <- (Forall2_length _ _ _ E2). apply knn_length.
Qed.

Lemma similarity_antitone a b :
  (0 <= a)%Q -> (a <= b)%Q -> (similarity_of b <= similarity_of a)%Q.
Proof.
  intros Ha Hab. unfold similarity_of.
  assert (Hpa : (0 < 1 + a)%Q).
  { apply Qlt_le_trans with (1 + 0)%Q; [reflexivity|].
    apply Qplus_le_compat; [apply Qle_refl | exact Ha]. }
  assert (Hpb : (0 < 1 + b)%Q).
  { apply Qlt_le_trans with (1 + a)%Q; [exact Hpa|].
    apply Qplus_le_compat; [apply Qle_refl | exact Hab]. }
  apply Qle_shift_div_r; [exact Hpb|].
  apply Qle_trans with (1 / (1 + a) * (1 + a))%Q.
  - rewrite Qmult_comm, Qmult_div_r; [apply Qle_refl|].
    intros E. rewrite E in Hpa. now apply Qlt_irrefl in Hpa.
  - apply Qmult_le_l.
    + apply Qlt_shift_div_l; [exact Hpa|]. rewrite Qmult_0_l. reflexivity.
    + apply Qplus_le_compat; [apply Qle_refl | exact Hab].
Qed.

Lemma results_non_increasing cs hits rs :
  ascending hits ->
  Forall (fun h => (0 <= fst h)%Q) hits ->
  Forall2 (result_of_hit cs) hits rs ->
  non_increasing rs.
Proof.
  intros Hs Hv H. revert Hs Hv.
  induction H as [|h r hits rs [_ Hr] Hrest IH]; intros Hs Hv;
    [constructor|].
  inversion Hs as [|? ? Hs' Hall]; subst.
  inversion Hv as [|? ? Hh Hv']; subst.
  constructor; [now apply IH|].
  clear IH Hs Hv Hs'.
  induction Hrest as [|h' r' hits rs [_ Hr'] _ IH]; [constructor|].
  inversion Hall; subst. inversion Hv'; subst.
  constructor; [|now apply IH].
  rewrite Hr, Hr'. now apply similarity_antitone.
Qed.

End retrieval_facts.

(* ===================================================================== *)
(** * Batched embedding and add_documents                                *)
(* ===================================================================== *)

Module batching_facts.
Import document_processor world vector_store_manager batching.

Lemma log_requests_service model bs w :
  embeddings_create (log_requests model bs w) = embeddings_create w
  /\ calls (log_requests model bs w) = calls w ++ map (request model) bs
  /\ files (log_requests model bs w) = files w.
Proof.
  revert w. induction bs as [|b bs IH]; intros w; simpl.
  - now rewrite app_nil_r.
  - destruct (IH (log_call (request model b) w)) as (E1 & E2 & E3).
    rewrite E1, E2, E3. simpl. now rewrite <- app_assoc.
Qed.

(** One iteration of the loop never raises: it appends the block of the
    batch and logs the request. *)
Lemma embed_batch_block self texts batch_size acc i w :
  embed_batch self texts batch_size acc i (self, w)
  = (Ok (acc ++ batch_block (embeddings_create w) (embedding_model self)
                  (dimension self) (calls w)
                  (slice texts (Z.to_nat i) (Z.to_nat batch_size))),
     (self, log_call (request (embedding_model self)
                        (slice texts (Z.to_nat i) (Z.to_nat batch_size))) w)).
Proof.
  unfold embed_batch, try_except, bind, in_world, zoom, request_embeddings,
    batch_block, ret. simpl.
  now destruct (embeddings_create w (calls w) (embedding_model self) _).
Qed.

Lemma for_each_batches self texts batch_size starts acc w :
  let bs := map (fun i => slice texts (Z.to_nat i) (Z.to_nat batch_size)) starts in
  for_each starts acc (embed_batch self texts batch_size) (self, w)
  = (Ok (acc ++ concat (batch_blocks (embeddings_create w) (embedding_model self)
                          (dimension self) (calls w) bs)),
     (self, log_requests (embedding_model self) bs w)).
Proof.
  revert acc w. induction starts as [|i starts IH]; intros acc w; simpl.
  - unfold ret. now rewrite app_nil_r.
  - unfold bind. rewrite embed_batch_block. rewrite IH. simpl.
    now rewrite <- app_assoc.
Qed.

Lemma range_positive stop step :
  0 < step ->
  range stop step
  = Ok (map (fun j => Z.of_nat j * step)
            (seq 0 (Z.to_nat ((stop + step - 1) / step)))).
Proof.
  intros H. unfold range.
  destruct (step =? 0)%Z eqn:E0; [lia|].
  destruct (step <? 0)%Z eqn:E1; [lia|]. reflexivity.
Qed.

(** [create_embeddings_batch] returns: its result is the concatenation of
    the blocks of its batches. *)
Lemma create_embeddings_batch_returns self w texts batch_size :
  0 < batch_size ->
  create_embeddings_batch texts batch_size (self, w)
  = (Ok (batch_vectors self w texts batch_size),
     (self, log_requests (embedding_model self) (batches_of texts batch_size) w)).
Proof.
  intros H. unfold create_embeddings_batch, batch_vectors, batches_of.
  rewrite (range_positive _ _ H).
  unfold bind, self_, gets, lift_res. simpl.
  now rewrite for_each_batches.
Qed.

Lemma concat_slices {A} (l : list A) (b k : nat) :
  concat (map (fun j => slice l (j * b) b) (seq 0 k)) = firstn (k * b) l.
Proof.
  induction k as [|k IH]; [reflexivity|].
  rewrite seq_S, map_app, concat_app, IH. simpl.
  rewrite app_nil_r. unfold slice.
  rewrite take_take_drop. f_equal. lia.
Qed.

(** The batches are consecutive pieces of the texts, none lost, none
    repeated. *)
Lemma batches_partition texts batch_size :
  0 < batch_size -> concat (batches_of texts batch_size) = texts.
Proof.
  intros H. unfold batches_of. rewrite (range_positive _ _ H).
  rewrite map_map.
  set (b := Z.to_nat batch_size).
  set (k := Z.to_nat ((llen texts + batch_size - 1) / batch_size)).
  rewrite (map_ext _ (fun j => slice texts (j * b) b))
    by (intros j; f_equal; unfold b; lia).
  rewrite concat_slices. apply firstn_all2.
  assert (Hk : llen texts <= (llen texts + batch_size - 1) / batch_size * batch_size).
  { pose proof (Z.div_mod (llen texts + batch_size - 1) batch_size ltac:(lia)).
    pose proof (Z.mod_pos_bound (llen texts + batch_size - 1) batch_size H).
    lia. }
  unfold llen in *.
  assert (0 <= (Z.of_nat (List.length texts) + batch_size - 1) / batch_size)
    by (apply Z.div_pos; lia).
  unfold k, b. nia.
Qed.

Lemma batch_block_length svc model dim hist b :
  one_vector_per_input svc ->
  List.length (batch_block svc model dim hist b) = List.length b.
Proof.
  intros Hc. unfold batch_block.
  destruct (svc hist model (Batch b)) eqn:E.
  - now apply Hc in E.
  - unfold zero_vectors. apply repeat_length.
Qed.

Lemma batch_blocks_lengths svc model dim hist bs :
  one_vector_per_input svc ->
  Forall2 (fun b blk => List.length blk = List.length b) bs
          (batch_blocks svc model dim hist bs).
Proof.
  intros Hc. revert hist. induction bs as [|b bs IH]; intros hist; simpl.
  - constructor.
  - constructor; [now apply batch_block_length | apply IH].
Qed.

Lemma concat_same_lengths {A B} (xs : list (list A)) (ys : list (list B)) :
  Forall2 (fun x y => List.length y = List.length x) xs ys ->
  List.length (concat ys) = List.length (concat xs).
Proof.
  induction 1 as [|x y xs ys Hxy _ IH]; simpl; [reflexivity|].
  rewrite !length_app. lia.
Qed.


Lemma batch_vectors_length self w texts batch_size :
  0 < batch_size ->
  one_vector_per_input (embeddings_create w) ->
  List.length (batch_vectors self w texts batch_size) = List.length texts.
Proof.
  intros H Hc. unfold batch_vectors.
  rewrite (concat_same_lengths (batches_of texts batch_size)).
  - now rewrite batches_partition.
  - now apply batch_blocks_lengths.
Qed.



Lemma np_array_uniform rows dim :
  Forall (fun v => llen v = dim) rows -> np_array rows = Ok rows.
Proof.
  intros H. destruct rows as [|r rs]; [reflexivity|]. simpl.
  inversion H as [|? ? Hr Hrs]; subst.
  replace (forallb _ rs) with true; [reflexivity|].
  symmetry. apply forallb_forall. intros r' Hin.
  rewrite List.Forall_forall in Hrs. specialize (Hrs _ Hin).
  apply Nat.eqb_eq. unfold llen in *. lia.
Qed.



(** The sample services keep both contracts. *)
Lemma demo_one_vector_per_input flaky :
  one_vector_per_input (demo.embeddings_service flaky).
Proof.
  intros hist model inputs r. unfold demo.embeddings_service.
  destruct (flaky hist); [discriminate|].
  intros E. inversion E. apply length_map.
Qed.


End batching_facts.

(* ===================================================================== *)
(** * Save, load and the invariant of the store                          *)
(* ===================================================================== *)

Module persistence_facts.
Import document_processor world vector_store_manager batching persistence.

(** ** Paths *)


Lemma last_char_app (a s : string) :
  s <> "" -> last_char (a +:+ s) = last_char s.
Proof.
  intros Hs. induction a as [|x a IH]; [reflexivity|].
  change (String x a +:+ s) with (String x (a +:+ s)).
  simpl. destruct (a +:+ s) eqn:E; [|exact IH].
  destruct a as [|y a'];
    [ change (s = "") in E; congruence
    | change (String y (a' +:+ s) = "") in E; discriminate ].
Qed.

Lemma suffix_faiss_pkl a b : (a +:+ ".faiss") <> (b +:+ "_chunks.pkl").
Proof.
  intros H. apply (f_equal last_char) in H.
  rewrite !last_char_app in H by discriminate. discriminate.
Qed.

Lemma suffix_faiss_json a b : (a +:+ ".faiss") <> (b +:+ "_metadata.json").
Proof.
  intros H. apply (f_equal last_char) in H.
  rewrite !last_char_app in H by discriminate. discriminate.
Qed.

Lemma suffix_pkl_json a b : (a +:+ "_chunks.pkl") <> (b +:+ "_metadata.json").
Proof.
  intros H. apply (f_equal last_char) in H.
  rewrite !last_char_app in H by discriminate. discriminate.
Qed.

(** [Path(directory) / (name + suffix)] for a suffix of two characters or
    more without a slash. *)
Lemma components_nonempty s : pathlib.components s <> [].
Proof.
  induction s as [|c s IH]; simpl; [discriminate|].
  destruct (Ascii.eqb c "/"); [discriminate|].
  now destruct (pathlib.components s).
Qed.

Lemma components_plain s :
  Forall (fun c => c <> "/"%char) (list_ascii_of_string s) ->
  pathlib.components s = [s].
Proof.
  induction s as [|c s IH]; intros H; [reflexivity|].
  simpl in H. inversion H; subst. simpl.
  destruct (Ascii.eqb c "/") eqn:E; [apply Ascii.eqb_eq in E; congruence|].
  now rewrite IH.
Qed.

Lemma components_suffix n suf :
  Forall (fun c => c <> "/"%char) (list_ascii_of_string suf) ->
  pathlib.components (n +:+ suf)
  = removelast (pathlib.components n)
    ++ [List.last (pathlib.components n) "" +:+ suf].
Proof.
  intros H. induction n as [|c n IH].
  - change ("" +:+ suf) with suf. now rewrite components_plain.
  - change (String c n +:+ suf) with (String c (n +:+ suf)).
    cbn [pathlib.components]. rewrite IH.
    pose proof (components_nonempty n) as Hne.
    destruct (pathlib.components n) as [|x r]; [congruence|].
    destruct (Ascii.eqb c "/").
    + destruct r; reflexivity.
    + destruct r as [|y r]; reflexivity.
Qed.

Lemma kept_long s : (2 <= String.length s)%nat -> pathlib.kept s = true.
Proof.
  destruct s as [|a [|b s]]; simpl; try lia. intros _.
  unfold pathlib.kept. cbn [String.eqb negb andb].
  now destruct (Ascii.eqb a ".").
Qed.

Lemma root_of_suffix n c suf :
  c <> "/"%char -> pathlib.root_of (n +:+ String c suf) = pathlib.root_of n.
Proof.
  intros Hc. unfold pathlib.root_of.
  assert (E : pathlib.leading_slashes (n +:+ String c suf)
              = pathlib.leading_slashes n).
  { induction n as [|a n IH].
    - change ("" +:+ String c suf) with (String c suf).
      cbn [pathlib.leading_slashes].
      destruct (Ascii.eqb c "/") eqn:T; [|reflexivity].
      apply Ascii.eqb_eq in T. congruence.
    - change (String a n +:+ String c suf)
        with (String a (n +:+ String c suf)).
      cbn [pathlib.leading_slashes]. now rewrite IH. }
  now rewrite E.
Qed.

Lemma join_last (sep : string) (l : list string) (x suf : string) :
  join sep (l ++ [x +:+ suf]) = (join sep (l ++ [x]) +:+ suf).
Proof.
  destruct l as [|a l]; [reflexivity|].
  rewrite (join_snoc sep (a :: l) (x +:+ suf)) by discriminate.
  rewrite (join_snoc sep (a :: l) x) by discriminate.
  now rewrite !string_app_assoc.
Qed.

Lemma str_parts p :
  pathlib.parts p <> [] ->
  pathlib.str p = (pathlib.root p +:+ join "/" (pathlib.parts p)).
Proof.
  unfold pathlib.str. destruct (pathlib.parts p); [congruence|].
  now destruct (pathlib.root p).
Qed.

Section Suffix.
Variables (c : ascii) (suf : string).
Hypothesis plain : Forall (fun x => x <> "/"%char)
                          (list_ascii_of_string (String c suf)).
Hypothesis long : (1 <= String.length suf)%nat.

Lemma truediv_suffix d n :
  pathlib.truediv (pathlib.Path d) (n +:+ String c suf)
  = {| pathlib.root := pathlib.root (store_dir d n);
       pathlib.parts :=
         pathlib.parts (store_dir d n)
         ++ [List.last (pathlib.components n) "" +:+ String c suf] |}.
Proof.
  assert (Hc : c <> "/"%char) by (inversion plain; assumption).
  assert (Hk : pathlib.kept (List.last (pathlib.components n) ""
                             +:+ String c suf) = true).
  { apply kept_long. rewrite length_string_app. simpl. lia. }
  unfold pathlib.truediv, store_dir, pathlib.Path.
  rewrite root_of_suffix by exact Hc.
  rewrite components_suffix by exact plain.
  rewrite List.filter_app. cbn [List.filter]. rewrite Hk.
  destruct (pathlib.root_of n); cbn [pathlib.root pathlib.parts];
    [now rewrite app_assoc | reflexivity].
Qed.

Lemma path_join_base d n :
  path_join d (n +:+ String c suf) = (store_base d n +:+ String c suf).
Proof.
  unfold path_join. rewrite truediv_suffix.
  rewrite str_parts by (cbn [pathlib.parts]; now destruct (pathlib.parts _)).
  cbn [pathlib.root pathlib.parts]. rewrite join_last.
  unfold store_base. now rewrite string_app_assoc.
Qed.

Lemma parent_suffix d n :
  pathlib.parent (pathlib.truediv (pathlib.Path d) (n +:+ String c suf))
  = store_dir d n.
Proof.
  rewrite truediv_suffix. unfold pathlib.parent.
  cbn [pathlib.root pathlib.parts]. rewrite removelast_last.
  now destruct (store_dir d n).
Qed.

End Suffix.

Ltac plain_suffix := repeat constructor; discriminate.

Lemma index_path_base d n : index_path d n = (store_base d n +:+ ".faiss").
Proof. apply path_join_base; [plain_suffix | simpl; lia]. Qed.

Lemma chunks_path_base d n :
  chunks_path d n = (store_base d n +:+ "_chunks.pkl").
Proof. apply path_join_base; [plain_suffix | simpl; lia]. Qed.

Lemma metadata_path_base d n :
  metadata_path d n = (store_base d n +:+ "_metadata.json").
Proof. apply path_join_base; [plain_suffix | simpl; lia]. Qed.

(** ** save *)

Lemma save_cases self w d n :
  (exists e w',
     save d n (self, w) = (Raise e, (self, w'))
     /\ files w' = files w /\ same_services w w')
  \/ (exists w',
        save d n (self, w) = (Ok tt, (self, w'))
        /\ files w' = saved_files self (store_base d n) (files w)
        /\ same_services w w').
Proof.
  unfold save, bind, self_, gets, in_world, zoom, mkdir, write_index,
    try_except, create_file, raise.
  cbn [fst snd].
  destruct (mkdir_error w (dirs_made w) (pathlib.str (pathlib.Path d)))
    as [e|] eqn:Em; cbn [fst snd].
  { left. exists e, w. repeat split. }
  rewrite !parent_suffix by (plain_suffix || (simpl; lia)).
  cbn [mkdir_error create_error dirs_made log_dir write_file].
  destruct (create_error w (dirs_made w ++ [pathlib.str (pathlib.Path d)])
              (pathlib.str (store_dir d n))) as [e|] eqn:Ec; cbn [fst snd].
  { left. eexists. eexists. split; [reflexivity|]. repeat split. }
  cbn [mkdir_error create_error dirs_made log_dir write_file]. rewrite Ec.
  cbn [fst snd mkdir_error create_error dirs_made log_dir write_file].
  rewrite Ec. cbn [fst snd].
  right. eexists. split; [reflexivity|].
  fold (index_path d n) (chunks_path d n) (metadata_path d n).
  unfold path_join. cbn.
  split; [|repeat split].
  fold (path_join d (n +:+ ".faiss")) (path_join d (n +:+ "_chunks.pkl"))
       (path_join d (n +:+ "_metadata.json")).
  fold (index_path d n) (chunks_path d n) (metadata_path d n).
  now rewrite index_path_base, chunks_path_base, metadata_path_base.
Qed.

(** When [save] returns, the three files of the store are on the disk. *)
Lemma save_returns self w d n w0 :
  save d n (self, w) = (Ok tt, w0) ->
  exists w',
    w0 = (self, w')
    /\ files w' = saved_files self (store_base d n) (files w)
    /\ same_services w w'.
Proof.
  intros E.
  destruct (save_cases self w d n)
    as [(e & w' & E' & _) | (w' & E' & Ef & Hs)]; rewrite E' in E;
    [discriminate|].
  inversion E; subst. now exists w'.
Qed.

Lemma saved_files_lookup self base fs :
  saved_files self base fs !! (base +:+ ".faiss") = Some (FaissFile (index self))
  /\ saved_files self base fs !! (base +:+ "_chunks.pkl")
     = Some (PickleFile (chunks self))
  /\ saved_files self base fs !! (base +:+ "_metadata.json")
     = Some (JsonFile (saved_metadata self)).
Proof.
  unfold saved_files. repeat split.
  - rewrite lookup_insert_ne by (intros H; symmetry in H; revert H; apply suffix_faiss_json).
    rewrite lookup_insert_ne by (intros H; symmetry in H; revert H; apply suffix_faiss_pkl).
    apply lookup_insert_eq.
  - rewrite lookup_insert_ne by (intros H; symmetry in H; revert H; apply suffix_pkl_json).
    apply lookup_insert_eq.
  - apply lookup_insert_eq.
Qed.


(** ** load *)

Lemma load_saved self w d n idx cs meta :
  files w !! (store_base d n +:+ ".faiss") = Some (FaissFile idx) ->
  files w !! (store_base d n +:+ "_chunks.pkl") = Some (PickleFile cs) ->
  files w !! (store_base d n +:+ "_metadata.json") = Some (JsonFile meta) ->
  load d n (self, w) = (Ok tt, (with_index_and_chunks idx cs self, w)).
Proof.
  intros H1 H2 H3.
  unfold load, bind, gets, read_file, update_self, modify. simpl.
  rewrite index_path_base, H1. simpl. unfold bind, gets. simpl.
  rewrite chunks_path_base, H2. simpl. unfold bind, gets. simpl.
  rewrite metadata_path_base, H3. reflexivity.
Qed.


(** ** search *)

Lemma search_depends self w q k :
  let n := normalized self in
  search q k (self, w)
  = (fst (search q k (n, w)), (self, snd (snd (search q k (n, w))))).
Proof.
  unfold search, bind, self_, gets. simpl.
  destruct (chunks self) as [|c cs]; [reflexivity|].
  unfold create_embedding, bind, self_, gets, try_except, in_world, zoom,
    request_embeddings, lift_res. simpl.
  destruct (embeddings_create w (calls w) (embedding_model self) (Text q))
    as [[|e es]|ex]; simpl; try reflexivity.
  destruct (faiss.search (index self) e k) as [[ds ls]|ex]; simpl;
    reflexivity.
Qed.


(** ** add_documents *)

Lemma add_documents_cases self w cs :
  let texts := map content cs in
  let w' := match cs with
            | [] => w
            | _ => log_requests (embedding_model self) (batches_of texts 100) w
            end in
  snd (add_documents cs (self, w)) = (self, w')
  \/ (cs <> []
      /\ add_documents cs (self, w)
         = (Ok tt, (extended self cs (batch_vectors self w texts 100), w'))).
Proof.
  intros texts w'. unfold add_documents.
  destruct cs as [|c cs']; [now left|].
  set (cs := c :: cs') in *. fold texts.
  unfold bind. rewrite batching_facts.create_embeddings_batch_returns by lia.
  unfold lift_res.
  destruct (np_array (batch_vectors self w texts 100)) as [arr|ex] eqn:Ea;
    [|now left].
  assert (arr = batch_vectors self w texts 100) as ->.
  { unfold np_array in Ea. destruct (batch_vectors self w texts 100);
      [congruence|]. destruct (forallb _ _); congruence. }
  unfold self_, gets. simpl fst.
  destruct (faiss.add (index self) (batch_vectors self w texts 100))
    as [idx|ex] eqn:Ef; [|now left].
  right. split; [discriminate|].
  unfold faiss.add in Ef.
  destruct (faiss.shape _) as [[nx dx]|]; [|discriminate].
  destruct (dx =? faiss.d (index self))%Z; [|discriminate].
  inversion Ef. reflexivity.
Qed.

(** ** The vectors of a batch are produced for its texts *)







(** ** The operations keep the index and the chunk list co-indexed *)











End persistence_facts.

(* ===================================================================== *)
(** * The agent                                                          *)
(* ===================================================================== *)

Module agent_facts.
Import document_processor world vector_store_manager doc_qa_agent session.

Lemma ask_no_documents q k m i s :
  no_documents s -> ask q k m i s = (Ok no_documents_result, s).
Proof.
  intros H. destruct s as [a w]. unfold no_documents in H. simpl in H.
  unfold ask, bind, self_, gets. simpl. rewrite H. reflexivity.
Qed.

Lemma clear_history_documents s :
  documents_loaded (session_info (fst (snd (clear_history s))))
  = documents_loaded (session_info (fst s)).
Proof. destruct s as [a w]. reflexivity. Qed.

Lemma in_vector_store_session {A} (m : M vector_store_manager.state A) s :
  session_info (fst (snd (in_vector_store m s))) = session_info (fst s)
  /\ conversation_history (fst (snd (in_vector_store m s)))
     = conversation_history (fst s).
Proof.
  unfold in_vector_store, zoom. destruct (m _) as [r t]. now split.
Qed.

Lemma save_vector_store_documents d n s :
  documents_loaded (session_info (fst (snd (save_vector_store d n s))))
  = documents_loaded (session_info (fst s)).
Proof.
  unfold save_vector_store, try_except, bind.
  pose proof (in_vector_store_session (save d n) s) as [Hs _].
  destruct (in_vector_store (save d n) s) as [[[]|e] [a1 w1]]; simpl in *;
    now rewrite Hs.
Qed.

Lemma load_vector_store_documents d n s :
  documents_loaded (session_info (fst (snd (load_vector_store d n s))))
  = documents_loaded (session_info (fst s)).
Proof.
  unfold load_vector_store, try_except, bind.
  pose proof (in_vector_store_session (load d n) s) as [Hs _].
  destruct (in_vector_store (load d n) s) as [[[]|e] [a1 w1]]; simpl in *;
    now rewrite Hs.
Qed.

Lemma ask_documents q k m i s :
  documents_loaded (session_info (fst (snd (ask q k m i s))))
  = documents_loaded (session_info (fst s)).
Proof.
  destruct (documents_loaded (session_info (fst s))) eqn:E.
  - rewrite ask_no_documents by exact E. exact E.
  - destruct s as [a w]. simpl in E.
    unfold ask, bind, self_, gets. simpl. rewrite E.
    pose proof (in_vector_store_session (get_context_for_query q k 4000) (a, w))
      as [Hs _].
    destruct (in_vector_store (get_context_for_query q k 4000) (a, w))
      as [[[ctx srcs]|e] [a1 w1]]; simpl in *; [|now rewrite Hs, E].
    destruct ctx; simpl; [now rewrite Hs, E|].
    unfold try_except, bind, in_world, zoom, request_completion. simpl.
    destruct (chat_completions_create w1 _ _ _ _); simpl; now rewrite Hs, E.
Qed.

Lemma run_command_no_documents s c :
  no_documents s -> no_documents (run_command s c).
Proof.
  unfold no_documents. intros H. destruct c; unfold run_command.
  - now rewrite ask_documents.
  - now rewrite clear_history_documents.
  - now rewrite save_vector_store_documents.
  - now rewrite load_vector_store_documents.
Qed.

Lemma run_commands_no_documents cs s :
  no_documents s -> no_documents (fold_left run_command cs s).
Proof.
  revert s. induction cs as [|c cs IH]; intros s H; simpl; [exact H|].
  apply IH. now apply run_command_no_documents.
Qed.

End agent_facts.
(* ===================================================================== *)
(** * Main results                                                       *)
(* ===================================================================== *)

Import document_processor.

(** C7. For every text and source, every chunk [chunk_text] returns has a
    content of at least [min_chunk_size] characters; the chunk at position
    [i] of the result carries [chunk_index] [i], so the indices increase
    strictly over the whole document, across page boundaries; and the
    contents of the chunks are exactly the closed buffers that are long
    enough, joined by one space, in order, where the buffers of a page split
    its sentences into consecutive runs: a shorter buffer is left out, and
    nothing of it is added to another chunk. *)
Theorem chunk_text_min_size_and_indices
    (self : DocumentProcessor) (text src : string) :
  let cs := chunk_text self text src in
  Forall (fun c => min_chunk_size self <= len (content c)) cs
  /\ (forall i c, cs !! i = Some c -> chunk_index (metadata c) = Z.of_nat i)
  /\ (forall i j ci cj, (i < j)%nat -> cs !! i = Some ci -> cs !! j = Some cj ->
        chunk_index (metadata ci) < chunk_index (metadata cj))
  /\ map content cs
     = List.filter (chunker.long_enough self)
         (map (join " ")
            (concat (map (chunker.page_buffers self) (page_contents text))))
  /\ (forall pc, concat (chunker.page_buffers self pc) = sentences_of (snd pc)).
Proof.
  intros cs.
  assert (Hc : map content cs
     = List.filter (chunker.long_enough self)
         (map (join " ")
            (concat (map (chunker.page_buffers self) (page_contents text))))).
  { unfold cs, chunk_text.
    now rewrite chunker_facts.pages_contents. }
  assert (Hn : chunker.numbered cs (snd (fold_left (page_step self src)
                                         (page_contents text) ([], 0)))).
  { apply (chunker_facts.numbered_pages self src (page_contents text) ([], 0)).
    split; reflexivity. }
  split; [|split; [|split; [|split]]].
  - apply List.Forall_forall. intros c Hin.
    assert (Hin' : In (content c) (map content cs)) by now apply in_map.
    rewrite Hc in Hin'. apply filter_In in Hin'. destruct Hin' as [_ Hle].
    unfold chunker.long_enough in Hle. lia.
  - intros i c Hi. exact (chunker_facts.numbered_lookup _ _ _ _ Hn Hi).
  - intros i j ci cj Hlt Hi Hj.
    pose proof (chunker_facts.numbered_lookup _ _ _ _ Hn Hi) as Ei.
    pose proof (chunker_facts.numbered_lookup _ _ _ _ Hn Hj) as Ej.
    unfold chunker.index_of in *. lia.
  - exact Hc.
  - intros pc. unfold chunker.page_buffers.
    now rewrite chunker_facts.buffers_partition.
Qed.

(** C8 fails on the code.  With [chunk_size] 6 the text has the three
    sentences [Ab!], [Cd!] and [Ef!].  The second sentence overflows the
    first buffer and seeds the next one with the running length 3, the
    separator not counted; the third sentence then counts as reaching 6,
    not more, and is added: the chunk [Cd! Ef!] has 7 characters.  Adding
    [Ef!] made the buffer, which was not empty, exceed [chunk_size], and
    the buffer was not closed. *)
Theorem seeded_buffer_exceeds_chunk_size :
  let self := {| chunk_size := 6; chunk_overlap := 2; min_chunk_size := 1 |} in
  sentences_of "Ab! Cd! Ef!" = ["Ab!"; "Cd!"; "Ef!"]
  /\ chunk_text self "Ab! Cd! Ef!" "doc.pdf"
     = [new_chunk "doc.pdf" 1 0 "Ab!"; new_chunk "doc.pdf" 1 1 "Cd! Ef!"]
  /\ len (join " " ["Cd!"; "Ef!"]) = 7
  /\ chunk_size self < len (join " " ["Cd!"; "Ef!"]).
Proof. vm_compute. repeat split. Qed.

(** C8, the part that holds, on the running length the code keeps.  In the
    sentence loop of [chunk_text], whenever the running length
    of the buffer plus the length of the next sentence exceeds [chunk_size]
    and the buffer is not empty, the buffer is closed: it is appended as a
    chunk with the current index when it has at least [min_chunk_size]
    characters, and left out otherwise; the next buffer is exactly the
    sentence that overflowed, with its length as running length.  The value
    of [chunk_overlap] changes neither this step nor the chunks of any
    text. *)
Theorem overflow_sentence_seeds_next_chunk
    (self : DocumentProcessor) (src : string) (page_num : Z)
    (st : loop_state) (sentence : string) :
  chunk_size self < st_current_length st + len sentence ->
  st_current_chunk st <> [] ->
  let buffer := join " " (st_current_chunk st) in
  let st' := sentence_step self src page_num st sentence in
  st_current_chunk st' = [sentence]
  /\ st_current_length st' = len sentence
  /\ (min_chunk_size self <= len buffer ->
        st_chunks st' = st_chunks st
                          ++ [new_chunk src page_num (st_chunk_index st) buffer]
        /\ st_chunk_index st' = st_chunk_index st + 1)
  /\ (len buffer < min_chunk_size self ->
        st_chunks st' = st_chunks st /\ st_chunk_index st' = st_chunk_index st)
  /\ (forall overlap,
        sentence_step (chunker.with_overlap overlap self) src page_num st sentence
        = st')
  /\ (forall overlap text,
        chunk_text (chunker.with_overlap overlap self) text src
        = chunk_text self text src).
Proof.
  intros Hlen Hne buffer st'.
  assert (Hov : overflows self st sentence = true).
  { unfold overflows. destruct (st_current_chunk st); [congruence|].
    apply andb_true_intro. split; [lia | reflexivity]. }
  assert (E : st' = seed sentence (emit self src page_num st))
    by apply (chunker_facts.sentence_step_overflow _ _ _ _ _ Hov).
  rewrite E. unfold seed, emit. fold buffer.
  split; [reflexivity|]. split; [reflexivity|].
  split; [|split; [|split]].
  - intros Hmin. destruct (min_chunk_size self <=? len buffer)%Z eqn:T;
      [split; reflexivity | lia].
  - intros Hmin. destruct (min_chunk_size self <=? len buffer)%Z eqn:T;
      [lia | split; reflexivity].
  - intros overlap. rewrite chunker_facts.sentence_step_overlap.
    exact E.
  - intros overlap text. apply chunker_facts.chunk_text_overlap.
Qed.

Lemma overflow_sentence_seeds_next_chunk_witness :
  let self := {| chunk_size := 10; chunk_overlap := 200; min_chunk_size := 3 |} in
  let st := {| st_chunks := []; st_chunk_index := 0;
               st_current_chunk := ["Aaaa bbb."]; st_current_length := 10 |} in
  chunk_size self < st_current_length st + len "Cc dd."
  /\ st_current_chunk st <> []
  /\ st_current_chunk (sentence_step self "f.pdf" 1 st "Cc dd.") = ["Cc dd."]
  /\ st_chunks (sentence_step self "f.pdf" 1 st "Cc dd.")
     = [new_chunk "f.pdf" 1 0 "Aaaa bbb."].
Proof.
  intros self st.
  assert (H1 : chunk_size self < st_current_length st + len "Cc dd.")
    by (vm_compute; reflexivity).
  assert (H2 : st_current_chunk st <> []) by discriminate.
  pose proof (overflow_sentence_seeds_next_chunk self "f.pdf" 1 st "Cc dd." H1 H2)
    as (Hseed & _ & Hkeep & _).
  split; [exact H1|]. split; [exact H2|]. split; [exact Hseed|].
  apply Hkeep. vm_compute. discriminate.
Defined.

Import world vector_store_manager.

(** C1 (the code at an index smaller than [k]).  On a store that holds the
    single chunk [c_ab], [search] with [k = 2] returns two pairs: the missing
    neighbour comes back from the index with label [-1], passes the test
    [idx < len(self.chunks)], and [self.chunks[-1]] is the last chunk, which
    is returned a second time with the similarity of the largest distance. *)
Theorem search_repeats_last_chunk_beyond_size :
  chunks demo.store1 = [demo.c_ab]
  /\ fst (search "q" 2 (demo.store1, demo.w0))
     = Ok [(demo.c_ab, (1 # 2)%Q);
           (demo.c_ab, (1 # 340282346638528859811704183484516925441)%Q)].
Proof. split; vm_compute; reflexivity. Qed.

(** The part of C1 the code keeps.  For a store with [n > 0] co-indexed
    entries, a query whose embedding has the dimension of the index, and
    [1 <= k <= n], [search] returns exactly [k] pairs in non-increasing
    order of similarity: they are made of the [k] first hits of the index in
    ascending order of distance, each hit being a stored position, with the
    chunk at that position and the similarity [1 / (1 + d)]. *)
Lemma search_within_index_size
    (self : VectorStoreManager) (w : World) (query : string) (k : Z)
    (e : list Q) (es : list (list Q)) :
  chunks self <> [] ->
  faiss.ntotal (index self) = llen (chunks self) ->
  0 < k <= llen (chunks self) ->
  embeddings_create w (calls w) (embedding_model self) (Text query)
  = Ok (e :: es) ->
  llen e = faiss.d (index self) ->
  let hits := firstn (Z.to_nat k)
                (faiss.sort_by_distance
                   (faiss.labelled_distances (index self) e)) in
  exists rs,
    fst (search query k (self, w)) = Ok rs
    /\ List.length rs = Z.to_nat k
    /\ retrieval.non_increasing rs
    /\ retrieval.ascending hits
    /\ Forall (retrieval.stored_hit (llen (chunks self))) hits
    /\ Forall2 (retrieval.result_of_hit (chunks self)) hits rs.
Proof.
  intros Hne Hn [Hk Hkn] He Hd hits.
  destruct (retrieval_facts.search_returns self w query k e es
              Hne Hn Hk He Hd) as (rs & E1 & E2 & E3).
  rewrite retrieval_facts.knn_within in E2
    by (unfold faiss.ntotal, llen in *; lia).
  fold hits in E2. exists rs.
  assert (Hasc : retrieval.ascending hits)
    by apply retrieval_facts.ascending_take,
             retrieval_facts.sort_by_distance_sorted.
  assert (Hst : Forall (retrieval.stored_hit (llen (chunks self))) hits).
  { rewrite <- Hn. apply Forall_take, retrieval_facts.sorted_stored. }
  repeat split; try assumption.
  apply (retrieval_facts.results_non_increasing (chunks self) hits);
    [exact Hasc | | exact E2].
  eapply List.Forall_impl; [|exact Hst]. now intros h [H _].
Qed.

(** What the code does beyond the size of the index.  With [k > n] the
    result still has [k] pairs: [n] pairs for the stored entries, followed by
    [k - n] pairs made of [self.chunks[-1]] and the similarity of the
    padding distance. *)
Lemma search_beyond_index_size
    (self : VectorStoreManager) (w : World) (query : string) (k : Z)
    (e : list Q) (es : list (list Q)) :
  chunks self <> [] ->
  faiss.ntotal (index self) = llen (chunks self) ->
  llen (chunks self) < k ->
  embeddings_create w (calls w) (embedding_model self) (Text query)
  = Ok (e :: es) ->
  llen e = faiss.d (index self) ->
  exists stored padded,
    fst (search query k (self, w)) = Ok (stored ++ padded)
    /\ List.length stored = List.length (chunks self)
    /\ List.length padded = (Z.to_nat k - List.length (chunks self))%nat
    /\ Forall (fun r => py.index (chunks self) (-1) = Some (fst r)
                        /\ snd r = retrieval.similarity_of faiss.FLT_MAX)
              padded.
Proof.
  intros Hne Hn Hk He Hd.
  assert (Hpos : 0 < k) by (unfold llen in Hk; lia).
  destruct (retrieval_facts.search_returns self w query k e es
              Hne Hn Hpos He Hd) as (rs & E1 & E2 & E3).
  rewrite retrieval_facts.knn_beyond in E2
    by (unfold faiss.ntotal, llen in *; lia).
  apply Forall2_app_inv_l in E2.
  destruct E2 as (stored & padded & Hs & Hp & ->).
  exists stored, padded. split; [exact E1|].
  assert (Hl : List.length (faiss.xb (index self)) = List.length (chunks self))
    by (unfold faiss.ntotal, llen in Hn; lia).
  split; [|split].
  - rewrite <- (Forall2_length _ _ _ Hs), retrieval_facts.sorted_length.
    exact Hl.
  - rewrite <- (Forall2_length _ _ _ Hp), repeat_length. now rewrite Hl.
  - clear E1 E3 Hs. revert Hp.
    generalize (Z.to_nat k - List.length (faiss.xb (index self)))%nat.
    intros m. revert padded. induction m as [|m IH]; intros padded Hp;
      inversion Hp; subst; constructor.
    + assumption.
    + now apply IH.
Qed.

(** C2 (the code where the delimiters count).  With a budget of 5
    characters both chunks of [store2] are taken, since their contents have
    2 + 3 characters; the context joins them with the 7-character delimiter
    and is 12 characters long. *)
Theorem context_longer_than_max_context_length :
  fst (get_context_for_query "q" 2 5 (demo.store2, demo.w0))
  = Ok (("ab" +:+ delimiter) +:+ "cde",
        [source_of demo.c_ab (1 # 2); source_of demo.c_cde (1 # 5)])
  /\ len (("ab" +:+ delimiter) +:+ "cde") = 12.
Proof. split; vm_compute; reflexivity. Qed.

(** The part of C2 the code keeps.  The context is made of a prefix of the
    search results, joined by the delimiter; the source list has one entry,
    with the similarity rounded to 3 decimals, for each chunk of that prefix;
    the contents of the prefix, without the delimiters, fit
    [max_context_length]; the first result that is left out would not have
    fitted after them, and it and all later results are dropped, not cut. *)
Lemma get_context_keeps_a_prefix
    (self : VectorStoreManager) (w : World) (query : string) (k : Z)
    (max_context_length : Z) (rs : list (DocumentChunk * Q)) :
  fst (search query k (self, w)) = Ok rs ->
  exists taken rest,
    rs = taken ++ rest
    /\ fst (get_context_for_query query k max_context_length (self, w))
       = Ok (join delimiter (map (fun r => content (fst r)) taken),
             map (fun r => source_of (fst r) (snd r)) taken)
    /\ (0 <= max_context_length ->
        retrieval.contents_length taken <= max_context_length)
    /\ match rest with
       | [] => True
       | r :: _ => max_context_length
                   < retrieval.contents_length taken + len (content (fst r))
       end.
Proof.
  intros Hs. unfold get_context_for_query, bind.
  destruct (search query k (self, w)) as [[rs'|ex] s']; simpl in Hs;
    [|discriminate].
  inversion Hs; subst rs'. clear Hs.
  destruct (retrieval_facts.accumulate_prefix max_context_length rs [] [] 0)
    as (taken & rest & E & Ha & Hb & Hc).
  exists taken, rest. split; [exact E|].
  destruct rs as [|r rs'].
  - destruct taken; [|discriminate]. destruct rest; [|discriminate].
    simpl. repeat split. lia.
  - rewrite Ha. simpl. repeat split; [exact Hb | exact Hc].
Qed.

Import batching.




(** The scenario of 250 chunks of which the second batch of 100 fails: the
    call succeeds, the index and both lists have 250 entries, and the
    vectors at positions 100 to 199 are the zero vectors. *)
Example add_documents_250_one_failed_batch :
  let out := add_documents demo.chunks250
               (vector_store_manager.init "m" 2, demo.w_flaky) in
  let s := fst (snd out) in
  fst out = Ok tt
  /\ chunks s = demo.chunks250
  /\ List.length (faiss.xb (index s)) = 250%nat
  /\ embeddings s = faiss.xb (index s)
  /\ firstn 100 (skipn 100 (embeddings s)) = repeat [0%Q; 0%Q] 100
  /\ firstn 100 (embeddings s) = repeat [1%Q; 0%Q] 100
  /\ skipn 200 (embeddings s) = repeat [1%Q; 0%Q] 50.
Proof. vm_compute. repeat split. Qed.

Import persistence.




(** C4 as stated fails when the store that loads was made for another
    embedding model: [load] replaces the index and the chunk list and keeps
    the model of the store.  A store of the model [large] (three
    components) is saved and loaded into a store of the model [small] (two
    components): [search] on the saved store returns its chunk, on the
    loaded store the query no longer fits the index. *)
Lemma load_into_store_of_other_model :
  let S := fst (snd (add_documents [demo.c_ab]
                       (vector_store_manager.init "large" 3, demo_more.w_models))) in
  let saved := save "stores" "default" (S, demo_more.w_models) in
  let T' := fst (snd (load "stores" "default"
                        (vector_store_manager.init "small" 2,
                         snd (snd saved)))) in
  fst saved = Ok tt
  /\ fst (search "q" 1 (S, demo_more.w_models))
     = Ok [(demo.c_ab, (1 # 2)%Q)]
  /\ fst (search "q" 1 (T', demo_more.w_models))
     = Raise (mk_exn AssertionError "")
  /\ fst (search "q" 1 (T', demo_more.w_models))
     <> fst (search "q" 1 (S, demo_more.w_models)).
Proof. vm_compute. repeat split. discriminate. Qed.

(** C4, amended.  For every store [S]: when saving it under a name
    succeeds, loading that name into a store with the same embedding model
    succeeds and gives a store with the index and the chunk list of [S];
    for every query, every [k] and every state of the world, [search] on
    the loaded store returns what it returns on [S] (the same chunks in the
    same order with the same similarities, or the same exception) and sends
    the same request. *)
Theorem save_then_load_preserves_search
    (S T : VectorStoreManager) (w : World) (directory name : string) :
  embedding_model T = embedding_model S ->
  fst (save directory name (S, w)) = Ok tt ->
  let saved := save directory name (S, w) in
  let loaded := load directory name (T, snd (snd saved)) in
  let T' := fst (snd loaded) in
  fst loaded = Ok tt
  /\ index T' = index S
  /\ chunks T' = chunks S
  /\ forall query k w',
       fst (search query k (T', w')) = fst (search query k (S, w'))
       /\ snd (snd (search query k (T', w')))
          = snd (snd (search query k (S, w'))).
Proof.
  intros Hm Hsave saved loaded T'.
  destruct (persistence_facts.save_returns S w directory name
              (snd (save directory name (S, w))))
    as (w1 & Es & Ef & _).
  { rewrite <- Hsave. now destruct (save directory name (S, w)). }
  destruct (persistence_facts.saved_files_lookup S (store_base directory name)
              (files w)) as (L1 & L2 & L3).
  rewrite <- Ef in L1, L2, L3.
  assert (El : loaded = (Ok tt, (with_index_and_chunks (index S) (chunks S) T, w1))).
  { unfold loaded, saved. rewrite Es. simpl snd.
    exact (persistence_facts.load_saved T w1 directory name _ _ _ L1 L2 L3). }
  assert (ET : T' = with_index_and_chunks (index S) (chunks S) T)
    by (unfold T'; now rewrite El).
  split; [now rewrite El|].
  split; [now rewrite ET|]. split; [now rewrite ET|].
  intros query k w'.
  rewrite (persistence_facts.search_depends T' w' query k).
  rewrite (persistence_facts.search_depends S w' query k).
  assert (En : normalized T' = normalized S)
    by (rewrite ET; unfold normalized, with_index_and_chunks; simpl;
        now rewrite Hm).
  simpl. rewrite En. now split.
Qed.

Lemma save_then_load_preserves_search_witness :
  let T := vector_store_manager.init "m" 2 in
  let saved := save "stores/" "./default" (demo.store2, demo.w0) in
  let T' := fst (snd (load "stores" "default" (T, snd (snd saved)))) in
  embedding_model T = embedding_model demo.store2
  /\ fst saved = Ok tt
  /\ fst (search "q" 1 (T', demo.w0)) = fst (search "q" 1 (demo.store2, demo.w0))
  /\ fst (search "q" 1 (T', demo.w0)) = Ok [(demo.c_ab, (1 # 2)%Q)].
Proof.
  intros T saved T'.
  assert (H : embedding_model T = embedding_model demo.store2) by reflexivity.
  assert (Hs : fst (save "stores" "default" (demo.store2, demo.w0)) = Ok tt)
    by (vm_compute; reflexivity).
  pose proof (save_then_load_preserves_search demo.store2 T demo.w0
                "stores" "default" H Hs) as (_ & _ & _ & Hq).
  split; [exact H|]. split; [vm_compute; reflexivity|]. split.
  - transitivity (fst (search "q" 1
       (fst (snd (load "stores" "default"
                    (T, snd (snd (save "stores" "default"
                                    (demo.store2, demo.w0)))))), demo.w0)));
      [vm_compute; reflexivity | exact (proj1 (Hq "q" 1 demo.w0))].
  - vm_compute. reflexivity.
Defined.

Import doc_qa_agent session.

(** C5. For every question, [ask] on an agent whose list of loaded
    documents is empty returns the fixed answer with confidence [low] and
    error [no_documents]; the agent and the world are left as they were, so
    nothing was retrieved and no request reached the embedding or the
    completion service. *)
Theorem ask_without_documents
    (a : DocumentQAAgent) (w : World)
    (question : string) (num_sources : Z) (model : string)
    (include_sources : bool) :
  documents_loaded (session_info a) = [] ->
  let out := ask question num_sources model include_sources (a, w) in
  fst out = Ok no_documents_result
  /\ answer no_documents_result
     = "No documents have been loaded yet. Please load some documents first using the 'load' command."
  /\ confidence no_documents_result = "low"
  /\ error no_documents_result = Some "no_documents"
  /\ sources no_documents_result = []
  /\ snd out = (a, w)
  /\ calls (snd (snd out)) = calls w.
Proof.
  intros H out.
  assert (E : out = (Ok no_documents_result, (a, w)))
    by (apply agent_facts.ask_no_documents; exact H).
  rewrite E. repeat split.
Qed.

Lemma ask_without_documents_witness :
  documents_loaded (session_info demo.agent0) = []
  /\ fst (ask "What is this?" 5 "gpt-4o-mini" true (demo.agent0, demo.w0))
     = Ok no_documents_result.
Proof.
  split; [reflexivity|].
  apply (ask_without_documents demo.agent0 demo.w0 "What is this?" 5
           "gpt-4o-mini" true).
  reflexivity.
Defined.

(** C9. When documents are loaded, the retrieved context is not empty and
    the request to the completion service raises, [ask] returns a result:
    its answer is the error text made of the fixed prefix and the message of
    the exception, its confidence is [error], its error field is the
    message, it has no sources; the conversation history and the session
    counters, [queries_processed] among them, are those before the call. *)
Theorem ask_completion_error
    (a : DocumentQAAgent) (w : World)
    (question : string) (num_sources : Z) (model : string)
    (include_sources : bool)
    (context : string) (srcs : list source_info) (e : exn) :
  let retrieved :=
    in_vector_store (get_context_for_query question num_sources 4000) (a, w) in
  let w1 := snd (snd retrieved) in
  documents_loaded (session_info a) <> [] ->
  fst retrieved = Ok (context, srcs) ->
  context <> "" ->
  chat_completions_create w1 (calls w1) model (system_prompt a)
    (_build_qa_prompt question context) = Raise e ->
  let out := ask question num_sources model include_sources (a, w) in
  fst out = Ok {| answer := "Error generating answer: " +:+ exn_str e;
                  sources := [];
                  confidence := "error";
                  error := Some (exn_str e);
                  context_used := None |}
  /\ conversation_history (fst (snd out)) = conversation_history a
  /\ session_info (fst (snd out)) = session_info a
  /\ queries_processed (session_info (fst (snd out)))
     = queries_processed (session_info a).
Proof.
  intros retrieved w1 Hdocs Hctx Hne Hchat out.
  pose proof (agent_facts.in_vector_store_session
                (get_context_for_query question num_sources 4000) (a, w))
    as [Hs Hh].
  fold retrieved in Hs, Hh.
  assert (E : out = (Ok (error_result e),
                     (fst (snd retrieved),
                      log_call (ChatCompletionsCreate model (system_prompt a)
                                  (_build_qa_prompt question context)) w1))).
  { unfold out, ask, bind, self_, gets. simpl.
    destruct (documents_loaded (session_info a)); [congruence|].
    fold retrieved. unfold w1 in *.
    destruct retrieved as [r [a1 w1']]. simpl in *. subst r.
    destruct context; [congruence|].
    unfold try_except, bind, in_world, zoom, request_completion. simpl.
    rewrite Hchat. reflexivity. }
  rewrite E. simpl in *. rewrite Hs, Hh. repeat split.
Qed.

Lemma ask_completion_error_witness :
  documents_loaded (session_info (fst demo.loaded_chat_down)) <> []
  /\ fst (ask "What is this?" 5 "gpt-4o-mini" true demo.loaded_chat_down)
     = Ok {| answer := "Error generating answer: Connection error.";
             sources := [];
             confidence := "error";
             error := Some "Connection error.";
             context_used := None |}.
Proof.
  split; [vm_compute; discriminate|].
  pose (retrieved :=
          in_vector_store (get_context_for_query "What is this?" 5 4000)
            demo.loaded_chat_down).
  apply (ask_completion_error
           (fst demo.loaded_chat_down) (snd demo.loaded_chat_down)
           "What is this?" 5 "gpt-4o-mini" true
           (match fst retrieved with Ok p => fst p | Raise _ => "" end)
           (match fst retrieved with Ok p => snd p | Raise _ => [] end)
           (mk_exn Exception "Connection error.")).
  - vm_compute. discriminate.
  - vm_compute. reflexivity.
  - vm_compute. discriminate.
  - vm_compute. reflexivity.
Defined.

(** C10. Let an agent have no loaded document name, and let
    [load_vector_store] load a saved store with [n > 0] chunks into it.
    Then [total_chunks] is [n], the list of loaded documents is still empty,
    and after any further calls of [ask], [clear_history],
    [save_vector_store] and [load_vector_store], every [ask] returns the
    fixed answer with error [no_documents] and leaves the agent and the
    world untouched: the store is never searched. *)
Theorem ask_after_load_vector_store
    (a : DocumentQAAgent) (w : World) (directory store_name : string) :
  let loaded := in_vector_store (load directory store_name) (a, w) in
  let n := llen (chunks (vector_store (fst (snd loaded)))) in
  documents_loaded (session_info a) = [] ->
  fst loaded = Ok tt ->
  0 < n ->
  let s := snd (load_vector_store directory store_name (a, w)) in
  llen (chunks (vector_store (fst s))) = n
  /\ total_chunks (session_info (fst s)) = n
  /\ documents_loaded (session_info (fst s)) = []
  /\ forall (later : list command) question num_sources model include_sources,
       let s' := fold_left run_command later s in
       ask question num_sources model include_sources s'
       = (Ok no_documents_result, s')
       /\ error no_documents_result = Some "no_documents".
Proof.
  intros loaded n Hdocs Hok Hn s.
  assert (Hnone : no_documents s).
  { unfold no_documents, s.
    now rewrite agent_facts.load_vector_store_documents. }
  assert (E : s = (set_session
                     {| start_time := start_time (session_info (fst (snd loaded)));
                        documents_loaded :=
                          documents_loaded (session_info (fst (snd loaded)));
                        total_chunks := n;
                        queries_processed :=
                          queries_processed (session_info (fst (snd loaded))) |}
                     (fst (snd loaded)), snd (snd loaded))).
  { unfold s, load_vector_store, try_except, bind. fold loaded.
    unfold n. destruct loaded as [r [a1 w1]]. simpl in *. subst r.
    reflexivity. }
  split; [|split; [|split]].
  - rewrite E. reflexivity.
  - rewrite E. reflexivity.
  - exact Hnone.
  - intros later question num_sources model include_sources s'.
    split; [|reflexivity].
    apply agent_facts.ask_no_documents.
    now apply agent_facts.run_commands_no_documents.
Qed.

Lemma ask_after_load_vector_store_witness :
  documents_loaded (session_info demo.agent0) = []
  /\ total_chunks (session_info
        (fst (snd (load_vector_store "stores" "default"
                     (demo.agent0, demo.w_saved))))) = 2
  /\ ask "What is this?" 5 "gpt-4o-mini" true
       (snd (load_vector_store "stores" "default" (demo.agent0, demo.w_saved)))
     = (Ok no_documents_result,
        snd (load_vector_store "stores" "default" (demo.agent0, demo.w_saved))).
Proof.
  assert (H1 : documents_loaded (session_info demo.agent0) = [])
    by reflexivity.
  assert (H2 : fst (in_vector_store (load "stores" "default")
                      (demo.agent0, demo.w_saved)) = Ok tt)
    by (vm_compute; reflexivity).
  assert (H3 : 0 < llen (chunks (vector_store (fst (snd
                 (in_vector_store (load "stores" "default")
                    (demo.agent0, demo.w_saved)))))))
    by (vm_compute; reflexivity).
  pose proof (ask_after_load_vector_store demo.agent0 demo.w_saved
                "stores" "default" H1 H2 H3) as (_ & Ht & _ & Hask).
  split; [exact H1|]. split.
  - rewrite Ht. vm_compute. reflexivity.
  - exact (proj1 (Hask [] "What is this?" 5 "gpt-4o-mini" true)).
Defined.

(* ===================================================================== *)
(** * Further properties of the vector store                             *)
(* ===================================================================== *)

Module store_facts.
Import document_processor world vector_store_manager batching persistence
       retrieval.

Lemma range_length stop step :
  0 < step -> 0 <= stop ->
  exists starts,
    range stop step = Ok starts
    /\ List.length starts = Z.to_nat ((stop + step - 1) / step)
    /\ Forall (fun i => 0 <= i < stop) starts.
Proof.
  intros Hs Hn. rewrite batching_facts.range_positive by exact Hs.
  eexists. split; [reflexivity|]. split.
  - now rewrite length_map, length_seq.
  - apply List.Forall_forall. intros i Hi.
    apply in_map_iff in Hi. destruct Hi as (j & <- & Hj).
    apply in_seq in Hj.
    assert (Hq : 0 <= (stop + step - 1) / step) by (apply Z.div_pos; lia).
    assert (Hj' : Z.of_nat j + 1 <= (stop + step - 1) / step) by lia.
    pose proof (Z.mul_div_le (stop + step - 1) step Hs) as Hm.
    split; [lia|]. nia.
Qed.

Lemma slice_nonempty {A} (l : list A) (i n : nat) :
  (i < List.length l)%nat -> (0 < n)%nat ->
  slice l i n <> [] /\ (List.length (slice l i n) <= n)%nat.
Proof.
  intros Hi Hn. unfold slice. split.
  - intros E. apply (f_equal (@List.length A)) in E.
    rewrite length_take, length_drop in E. simpl in E. lia.
  - apply firstn_le_length.
Qed.

Lemma knn_distances_nonneg idx q k :
  Forall (fun h => (0 <= fst h)%Q) (faiss.knn idx q k).
Proof.
  unfold faiss.knn. apply Forall_app. split.
  - apply Forall_take.
    eapply List.Forall_impl; [|apply retrieval_facts.sorted_stored].
    now intros h [H _].
  - apply List.Forall_forall. intros h Hh. apply repeat_spec in Hh. subst h.
    apply retrieval_facts.FLT_MAX_nonneg.
Qed.

Lemma similarity_range dist :
  (0 <= dist)%Q ->
  (0 < similarity_of dist)%Q /\ (similarity_of dist <= 1)%Q.
Proof.
  intros H. unfold similarity_of.
  assert (Hp : (0 < 1 + dist)%Q).
  { apply Qlt_le_trans with (1 + 0)%Q; [reflexivity|].
    apply Qplus_le_compat; [apply Qle_refl | exact H]. }
  split.
  - apply Qlt_shift_div_l; [exact Hp|]. rewrite Qmult_0_l. reflexivity.
  - apply Qle_shift_div_r; [exact Hp|]. rewrite Qmult_1_l.
    apply Qle_trans with (1 + 0)%Q; [apply Qle_refl|].
    apply Qplus_le_compat; [apply Qle_refl | exact H].
Qed.

Lemma collect_results_range cs hits acc rs :
  Forall (fun h => (0 <= fst h)%Q) hits ->
  Forall (fun r => (0 < snd r)%Q /\ (snd r <= 1)%Q) acc ->
  collect_results cs hits acc = Ok rs ->
  Forall (fun r => (0 < snd r)%Q /\ (snd r <= 1)%Q) rs.
Proof.
  intros Hh. revert acc. induction Hh as [|[dist idx] hits Hd _ IH];
    intros acc Hacc E; simpl in E.
  - now inversion E; subst.
  - destruct (idx <? llen cs)%Z; [|now apply (IH acc)].
    destruct (py.index cs idx) as [c|]; [|discriminate].
    destruct (Qeq_bool (1 + dist) 0); [discriminate|].
    apply (IH _) in E; [exact E|].
    apply Forall_app. split; [exact Hacc|].
    constructor; [|constructor]. simpl in *.
    exact (similarity_range dist Hd).
Qed.

Lemma faiss_add_mismatch idx rows dim :
  rows <> [] ->
  Forall (fun v => llen v = dim) rows ->
  dim <> faiss.d idx ->
  faiss.add idx rows = Raise (mk_exn AssertionError "").
Proof.
  intros Hne H Hd. destruct rows as [|r rs]; [congruence|].
  unfold faiss.add, faiss.shape.
  inversion H as [|? ? Hr Hrs]; subst.
  replace (forallb (fun r' => (List.length r' =? List.length r)%nat) rs)
    with true.
  - destruct (llen r =? faiss.d idx)%Z eqn:T; [|reflexivity].
    apply Z.eqb_eq in T. congruence.
  - symmetry. apply forallb_forall. intros r' Hin.
    rewrite List.Forall_forall in Hrs. specialize (Hrs _ Hin).
    apply Nat.eqb_eq. unfold llen in *. lia.
Qed.

End store_facts.

(* ===================================================================== *)
(** * Further properties of the agent                                    *)
(* ===================================================================== *)

Module session_facts.
Import document_processor world vector_store_manager document_loading
       document_batch doc_qa_agent doc_qa_agent_more persistence session more.

Lemma only_calls_refl w : only_calls_differ w w.
Proof. now repeat split. Qed.

Lemma only_calls_log c w : only_calls_differ w (log_call c w).
Proof. now repeat split. Qed.

Lemma only_calls_trans w1 w2 w3 :
  only_calls_differ w1 w2 -> only_calls_differ w2 w3 ->
  only_calls_differ w1 w3.
Proof.
  unfold only_calls_differ. intros A B.
  repeat match goal with H : _ /\ _ |- _ => destruct H end.
  repeat split; congruence.
Qed.

Lemma set_vector_store_same a : set_vector_store (vector_store a) a = a.
Proof. now destruct a. Qed.

(** [search] changes nothing but the log of calls. *)
Lemma search_effect self w q k :
  fst (snd (search q k (self, w))) = self
  /\ only_calls_differ w (snd (snd (search q k (self, w)))).
Proof.
  unfold search, bind, self_, gets. simpl.
  destruct (chunks self) as [|c cs]; [split; [reflexivity | apply only_calls_refl]|].
  unfold create_embedding, bind, self_, gets, try_except, in_world, zoom,
    request_embeddings, lift_res. simpl.
  destruct (embeddings_create w (calls w) (embedding_model self) (Text q))
    as [[|e es]|ex]; simpl; try (split; [reflexivity | apply only_calls_log]).
  destruct (faiss.search (index self) e k) as [[ds ls]|ex]; simpl;
    split; try reflexivity; apply only_calls_log.
Qed.

Lemma get_context_effect self w q k mx :
  fst (snd (get_context_for_query q k mx (self, w))) = self
  /\ only_calls_differ w (snd (snd (get_context_for_query q k mx (self, w)))).
Proof.
  unfold get_context_for_query, bind, ret.
  pose proof (search_effect self w q k) as [E1 E2].
  destruct (search q k (self, w)) as [[rs|ex] [s' w']];
    cbn [fst snd] in *; [|now split].
  destruct rs as [|r rs]; [now split|].
  destruct (accumulate mx (r :: rs) [] [] 0). now split.
Qed.

(** The retrieval step of [ask] gives back the agent it started from. *)
Lemma retrieval_effect a w q k :
  let out := in_vector_store (get_context_for_query q k 4000) (a, w) in
  fst (snd out) = a
  /\ only_calls_differ w (snd (snd out))
  /\ fst out = fst (get_context_for_query q k 4000 (vector_store a, w))
  /\ snd (snd out) = snd (snd (get_context_for_query q k 4000 (vector_store a, w))).
Proof.
  unfold in_vector_store, zoom. simpl.
  pose proof (get_context_effect (vector_store a) w q k 4000) as [E1 E2].
  destruct (get_context_for_query q k 4000 (vector_store a, w))
    as [r [s' w']]. simpl in *. subst s'.
  now rewrite set_vector_store_same.
Qed.

(** What [ask] can do to the agent: nothing, or record one answer. *)
Lemma ask_effect q k m i a w :
  let out := ask q k m i (a, w) in
  only_calls_differ w (snd (snd out))
  /\ (fst (snd out) = a
      \/ exists reply srcs ts ctx,
           fst (snd out)
           = answered a {| h_question := q; h_answer := reply;
                           h_sources := srcs; h_timestamp := ts |}
           /\ fst out = Ok {| answer := reply;
                              sources := if i then srcs else [];
                              confidence := confidence_of (avg_similarity srcs);
                              error := None;
                              context_used := Some (len ctx) |}).
Proof.
  unfold ask, bind, self_, gets. simpl.
  destruct (documents_loaded (session_info a)) as [|dn dl] eqn:Ed.
  - simpl. split; [apply only_calls_refl | now left].
  - pose proof (retrieval_effect a w q k) as (E1 & E2 & _).
    simpl in E1, E2.
    destruct (in_vector_store (get_context_for_query q k 4000) (a, w))
      as [[[ctx srcs]|ex] [a1 w1]]; simpl in *; subst a1;
      [|split; [exact E2 | now left]].
    destruct ctx as [|c0 ctx']; simpl; [split; [exact E2 | now left]|].
    unfold try_except, bind, in_world, zoom, request_completion, gets,
      update_self, modify, ret. simpl.
    destruct (chat_completions_create w1 (calls w1) m (system_prompt a) _)
      as [reply|ex]; simpl.
    + split; [eapply only_calls_trans; [exact E2 | apply only_calls_log]|].
      right. eexists reply, srcs, _, (String c0 ctx'). split; reflexivity.
    + split; [eapply only_calls_trans; [exact E2 | apply only_calls_log]|].
      now left.
Qed.

(** ** The query counter *)

Lemma counted_answered a entry : counted a -> counted (answered a entry).
Proof.
  unfold counted, answered. simpl. intros ->.
  unfold llen. rewrite length_app. simpl. lia.
Qed.

Lemma counted_ask q k m i s : counted (fst s) -> counted (fst (snd (ask q k m i s))).
Proof.
  destruct s as [a w]. intros H.
  destruct (ask_effect q k m i a w) as (_ & [E | (r & sr & ts & ctx & E & _)]);
    rewrite E; [exact H | now apply counted_answered].
Qed.

Lemma counted_in_vector_store {A} (m : M vector_store_manager.state A) s :
  counted (fst s) -> counted (fst (snd (in_vector_store m s))).
Proof.
  unfold counted.
  destruct (agent_facts.in_vector_store_session m s) as [E1 E2].
  now rewrite E1, E2.
Qed.

Lemma counted_load_vector_store d n s :
  counted (fst s) -> counted (fst (snd (load_vector_store d n s))).
Proof.
  intros H. unfold load_vector_store, try_except, bind.
  pose proof (counted_in_vector_store (load d n) s H) as H1.
  destruct (in_vector_store (load d n) s) as [[[]|e] [a1 w1]]; exact H1.
Qed.

Lemma counted_save_vector_store d n s :
  counted (fst s) -> counted (fst (snd (save_vector_store d n s))).
Proof.
  intros H. unfold save_vector_store, try_except, bind.
  pose proof (counted_in_vector_store (save d n) s H) as H1.
  destruct (in_vector_store (save d n) s) as [[[]|e] [a1 w1]]; exact H1.
Qed.

Lemma counted_clear_history s : counted (fst (snd (clear_history s))).
Proof. destruct s as [a w]. reflexivity. Qed.

Lemma counted_load_document p s :
  counted (fst s) -> counted (fst (snd (load_document p s))).
Proof.
  destruct s as [a w]. intros H.
  unfold load_document, bind, self_, gets, in_world, zoom. simpl.
  destruct (process_document (processor a) p w) as [[[cs meta]|e] w1];
    simpl; [|exact H].
  pose proof (counted_in_vector_store (add_documents cs) (a, w1) H) as H1.
  destruct (in_vector_store (add_documents cs) (a, w1)) as [[[]|e] [a1 w2]];
    exact H1.
Qed.

Lemma counted_load_multiple ps s :
  counted (fst s) -> counted (fst (snd (load_multiple_documents ps s))).
Proof.
  destruct s as [a w]. intros H.
  unfold load_multiple_documents, bind, self_, gets, in_world, zoom. simpl.
  destruct (process_multiple_documents (processor a) ps w)
    as [[[cs meta]|e] w1]; simpl; [|exact H].
  destruct cs as [|c cs]; [exact H|].
  unfold bind.
  pose proof (counted_in_vector_store (add_documents (c :: cs)) (a, w1) H)
    as H1.
  destruct (in_vector_store (add_documents (c :: cs)) (a, w1))
    as [[[]|e] [a1 w2]]; exact H1.
Qed.

Lemma chat_effect msg model minutes a w :
  snd (chat msg model minutes (a, w)) = (a, w)
  \/ snd (chat msg model minutes (a, w)) = snd (ask msg 5 model true (a, w)).
Proof.
  unfold chat, bind, self_, gets. simpl.
  match goal with |- context [if ?b then _ else _] => destruct b end;
    [|now left].
  right. destruct (ask msg 5 model true (a, w)) as [[r|e] s']; [|reflexivity].
  simpl. destruct (sources r); [reflexivity|].
  now destruct (match error r with
                | None | Some EmptyString => true
                | Some _ => false
                end).
Qed.

Lemma counted_chat msg model minutes s :
  counted (fst s) -> counted (fst (snd (chat msg model minutes s))).
Proof.
  destruct s as [a w]. intros H.
  destruct (chat_effect msg model minutes a w) as [E | E]; rewrite E;
    [exact H | now apply (counted_ask msg 5 model true (a, w))].
Qed.

Lemma counted_action s act :
  counted (fst s) -> counted (fst (run_action s act)).
Proof.
  intros H. destruct act as [[q k m i| |d n|d n]|p|ps|msg model minutes];
    unfold run_action, run_command.
  - now apply counted_ask.
  - apply counted_clear_history.
  - now apply counted_save_vector_store.
  - now apply counted_load_vector_store.
  - now apply counted_load_document.
  - now apply counted_load_multiple.
  - now apply counted_chat.
Qed.

(** ** The chunk counter *)

Lemma log_requests_only_calls model bs w :
  only_calls_differ w (batching.log_requests model bs w).
Proof.
  revert w. induction bs as [|b bs IH]; intros w; simpl.
  - apply only_calls_refl.
  - eapply only_calls_trans; [apply only_calls_log | apply IH].
Qed.

(** The three ways [add_documents] can end. *)
Lemma add_documents_outcome self w cs :
  (cs = [] /\ add_documents cs (self, w) = (Ok tt, (self, w)))
  \/ (exists e w', add_documents cs (self, w) = (Raise e, (self, w'))
                   /\ only_calls_differ w w')
  \/ (exists vs w', cs <> []
        /\ add_documents cs (self, w)
           = (Ok tt, (batching.extended self cs vs, w'))
        /\ only_calls_differ w w').
Proof.
  unfold add_documents. destruct cs as [|c cs']; [now left|].
  right. set (cs := c :: cs') in *. set (texts := map content cs).
  unfold bind.
  rewrite batching_facts.create_embeddings_batch_returns by lia.
  pose proof (log_requests_only_calls (embedding_model self)
                (batching.batches_of texts 100) w) as Hw.
  unfold lift_res.
  destruct (np_array (batching.batch_vectors self w texts 100))
    as [arr|ex] eqn:Ea; [|left; eauto].
  assert (arr = batching.batch_vectors self w texts 100) as ->.
  { unfold np_array in Ea. destruct (batching.batch_vectors self w texts 100);
      [congruence|]. destruct (forallb _ _); congruence. }
  unfold vector_store_manager.self_, gets. cbn [fst snd].
  destruct (faiss.add (index self) (batching.batch_vectors self w texts 100))
    as [idx|ex] eqn:Ef; [|left; eauto].
  right. exists (batching.batch_vectors self w texts 100). eexists.
  split; [discriminate|]. split; [|exact Hw].
  unfold faiss.add in Ef.
  destruct (faiss.shape _) as [[nx dx]|]; [|discriminate].
  destruct (dx =? faiss.d (index self))%Z; [|discriminate].
  inversion Ef. subst idx. reflexivity.
Qed.

Lemma load_pdf_world p w : snd (load_pdf p w) = w.
Proof.
  unfold load_pdf, bind, get, try_except, lift_res. simpl.
  destruct (pdf_reader w p) as [[pages|e]|]; simpl; try reflexivity.
  now destruct (strip (mark_pages 1 pages "")).
Qed.

Lemma process_document_effect self p w :
  snd (process_document self p w) = w
  /\ forall cs meta,
       fst (process_document self p w) = Ok (cs, meta) ->
       doc_total_chunks meta = llen cs
       /\ doc_source meta = path_name p
       /\ exists text, fst (load_pdf p w) = Ok text
                       /\ cs = chunk_text self text (path_name p).
Proof.
  unfold process_document, bind.
  pose proof (load_pdf_world p w) as Hw.
  destruct (load_pdf p w) as [[text|e] w1]; simpl in *; subst w1.
  - split; [reflexivity|]. intros cs meta E. inversion E; subst.
    simpl. repeat split. now exists text.
  - split; [reflexivity | discriminate].
Qed.


Lemma load_missing_raises self w d n :
  files w !! index_path d n = None ->
  load d n (self, w)
  = (Raise (mk_exn FileNotFoundError
              ("Vector store not found: " +:+ index_path d n)),
     (self, w)).
Proof.
  intros H. unfold load, bind, gets. simpl. now rewrite H.
Qed.








(** ** The source list of chat *)

Lemma source_lines_snoc text keys key :
  source_lines text (keys ++ [key])
  = (source_lines text keys +:+ "- " +:+ key +:+ nl).
Proof. unfold source_lines. now rewrite fold_left_app. Qed.

Lemma source_lines_prefix a text keys :
  source_lines (a +:+ text) keys = (a +:+ source_lines text keys).
Proof.
  unfold source_lines. revert text.
  induction keys as [|k keys IH]; intros text; simpl; [reflexivity|].
  rewrite <- IH. f_equal. apply string_app_assoc.
Qed.

Lemma list_sources_fold srcs :
  forall text keys0 (seen : gset string),
    (forall k, k ∈ seen <-> In k keys0) ->
    NoDup keys0 ->
    exists new seen',
      fold_left list_source srcs (source_lines text keys0, seen)
      = (source_lines text (keys0 ++ new), seen')
      /\ NoDup (keys0 ++ new)
      /\ (forall k, In k new -> In k (map source_key srcs))
      /\ (forall k, In k (map source_key srcs) -> In k (keys0 ++ new))
      /\ sublist new (map source_key srcs)
      /\ by_first_occurrence new (map source_key srcs).
Proof.
  induction srcs as [|s srcs IH]; intros text keys0 seen Hseen Hnd.
  - exists [], seen. rewrite app_nil_r. simpl.
    repeat split; try assumption; try tauto; [constructor|].
    intros i j k1 k2 H. discriminate.
  - simpl. destruct (decide (source_key s ∈ seen)) as [Hin | Hnin].
    + destruct (IH text keys0 seen Hseen Hnd)
        as (new & seen' & E & N & H1 & H2 & H3 & H4).
      exists new, seen'. split; [exact E|]. split; [exact N|].
      split; [intros k Hk; right; now apply H1|].
      split; [|split].
      * intros k [<- | Hk]; [|now apply H2].
        apply in_or_app. left. now apply Hseen.
      * now apply sublist_cons.
      * intros i j k1 k2 Hi Hj Hij.
        destruct (H4 i j k1 k2 Hi Hj Hij) as (p & Hp & Hq).
        exists (S p). split; [exact Hp|].
        intros [|q] Eq; [|apply Hq in Eq; lia].
        exfalso. simpl in Eq. inversion Eq as [Ek].
        apply NoDup_app in N. destruct N as (_ & N & _).
        apply (N k2); [apply list_elem_of_In, Hseen; now rewrite <- Ek|].
        eapply list_elem_of_lookup_2. exact Hj.
    + assert (Hk0 : ~ In (source_key s) keys0)
        by (intros H; apply Hnin; now apply Hseen).
      rewrite <- source_lines_snoc.
      destruct (IH text (keys0 ++ [source_key s]) ({[source_key s]} ∪ seen))
        as (new & seen' & E & N & H1 & H2 & H3 & H4).
      * intros k. rewrite elem_of_union, elem_of_singleton, in_app_iff, Hseen.
        simpl. intuition congruence.
      * apply NoDup_app. split; [exact Hnd|]. split.
        -- intros x Hx Hx'. apply list_elem_of_In in Hx, Hx'.
           destruct Hx' as [<- | []]. contradiction.
        -- apply NoDup_singleton.
      * exists (source_key s :: new), seen'.
        assert (Hfresh : forall k, k ∈ new -> k <> source_key s).
        { intros k Hk ->. apply NoDup_app in N. destruct N as (_ & N & _).
          apply (N (source_key s)); [|exact Hk].
          apply list_elem_of_In, in_or_app. right. now left. }
        rewrite <- app_assoc in E, N, H2. simpl in E, N, H2.
        split; [exact E|]. split; [exact N|].
        split; [intros k [<- | Hk]; [now left | right; now apply H1]|].
        split; [|split].
        -- intros k [<- | Hk];
             [apply in_or_app; right; now left | now apply H2].
        -- now apply sublist_skip.
        -- intros [|i] [|j] k1 k2 Hi Hj Hij; try lia; simpl in Hi, Hj.
           ++ inversion Hi; subst k1. exists 0%nat. split; [reflexivity|].
              intros [|q] Eq; [|lia].
              exfalso. simpl in Eq. inversion Eq as [Ek].
              apply (Hfresh k2); [|now rewrite Ek].
              eapply list_elem_of_lookup_2. exact Hj.
           ++ destruct (H4 i j k1 k2 Hi Hj ltac:(lia)) as (p & Hp & Hq).
              exists (S p). split; [exact Hp|].
              intros [|q] Eq; [|apply Hq in Eq; lia].
              exfalso. simpl in Eq. inversion Eq as [Ek].
              apply (Hfresh k2); [|now rewrite Ek].
              eapply list_elem_of_lookup_2. exact Hj.
Qed.

(** ** process_multiple_documents *)

Lemma process_next_effect self acc p w :
  process_next self acc p w
  = (Ok match fst (process_document self p w) with
        | Ok r => (fst acc ++ fst r, snd acc ++ [snd r])
        | Raise _ => acc
        end, w).
Proof.
  unfold process_next, try_except, bind, ret.
  destruct (process_document_effect self p w) as [Hw _].
  destruct (process_document self p w) as [[[cs meta]|e] w1];
    cbn [fst snd] in *; now subst w1.
Qed.

Lemma process_loop self ps acc w :
  vector_store_manager.for_each ps acc (process_next self) w
  = (Ok (fst acc ++ concat (map fst (processed self w ps)),
         snd acc ++ map snd (processed self w ps)), w).
Proof.
  revert acc. induction ps as [|p ps IH]; intros [cs ms]; simpl.
  - unfold ret. now rewrite !app_nil_r.
  - unfold bind. rewrite process_next_effect. rewrite IH.
    destruct (fst (process_document self p w)) as [[cs1 m1]|e]; simpl;
      [|reflexivity].
    now rewrite <- !app_assoc.
Qed.

End session_facts.

(* ===================================================================== *)
(** * Further properties of the text functions                           *)
(* ===================================================================== *)

Module text_facts.
Import document_processor text.

Lemma lstrip_chars s : chars (lstrip s) = lstrip_list (chars s).
Proof.
  induction s as [|c s IH]; [reflexivity|]. unfold chars in *. simpl.
  destruct (is_space c); [exact IH | reflexivity].
Qed.

Lemma strip_chars s :
  chars (strip s) = rev (lstrip_list (rev (lstrip_list (chars s)))).
Proof.
  unfold strip, chars.
  rewrite list_ascii_of_string_of_list_ascii.
  f_equal. fold (chars (lstrip (string_of_list_ascii
                                  (rev (list_ascii_of_string (lstrip s)))))).
  rewrite lstrip_chars. unfold chars.
  rewrite list_ascii_of_string_of_list_ascii.
  fold (chars (lstrip s)). now rewrite lstrip_chars.
Qed.

Lemma lstrip_list_suffix l :
  exists pre, l = pre ++ lstrip_list l
              /\ Forall (fun c => is_space c = true) pre.
Proof.
  induction l as [|c l (pre & E & H)]; simpl.
  - exists []. split; [reflexivity | constructor].
  - destruct (is_space c) eqn:T.
    + exists (c :: pre). split; [simpl; now rewrite <- E | now constructor].
    + exists []. split; [reflexivity | constructor].
Qed.

Lemma lstrip_list_head l c r :
  lstrip_list l = c :: r -> is_space c = false.
Proof.
  induction l as [|x l IH]; simpl; [discriminate|].
  destruct (is_space x) eqn:T; [exact IH | congruence].
Qed.

Lemma lstrip_list_Forall (P : ascii -> Prop) l :
  Forall P l -> Forall P (lstrip_list l).
Proof.
  intros H. destruct (lstrip_list_suffix l) as (pre & E & _).
  rewrite E in H. now apply Forall_app in H.
Qed.

Lemma strip_Forall (P : ascii -> Prop) s :
  Forall P (chars s) -> Forall P (chars (strip s)).
Proof.
  intros H. rewrite strip_chars.
  apply Forall_rev, lstrip_list_Forall, Forall_rev, lstrip_list_Forall, H.
Qed.

(** The result of [strip] neither begins nor ends with white space. *)
Lemma strip_edges s c :
  (head (chars (strip s)) = Some c -> is_space c = false)
  /\ (last (chars (strip s)) = Some c -> is_space c = false).
Proof.
  rewrite strip_chars.
  set (t := lstrip_list (chars s)).
  set (u := lstrip_list (rev t)).
  destruct (lstrip_list_suffix (rev t)) as (pre & E & _). fold u in E.
  split.
  - intros Hh.
    assert (Et : t = rev u ++ rev pre).
    { rewrite <- (rev_involutive t), E, rev_app_distr. reflexivity. }
    destruct (rev u) as [|x ru] eqn:Eu; [discriminate|].
    simpl in Hh. inversion Hh; subst x.
    apply (lstrip_list_head (chars s) c (ru ++ rev pre)).
    fold t. now rewrite Et.
  - intros Hl. destruct u as [|x u'] eqn:Eu; [discriminate|].
    simpl in Hl. rewrite last_snoc in Hl. inversion Hl; subst x.
    now apply (lstrip_list_head (rev t) c u').
Qed.

(** A stripped text is empty only if the text is white space. *)
Lemma strip_empty s :
  strip s = "" -> Forall (fun c => is_space c = true) (chars s).
Proof.
  intros H. apply (f_equal chars) in H. rewrite strip_chars in H.
  simpl in H.
  destruct (lstrip_list_suffix (chars s)) as (pre & E & Hp).
  destruct (lstrip_list_suffix (rev (lstrip_list (chars s))))
    as (pre2 & E2 & Hp2).
  apply (f_equal (@rev ascii)) in H. rewrite rev_involutive in H.
  simpl in H. rewrite H, app_nil_r in E2.
  rewrite E. apply Forall_app. split; [exact Hp|].
  rewrite <- (rev_involutive (lstrip_list (chars s))), E2.
  now apply Forall_rev.
Qed.

Lemma collapse_chars b s :
  Forall (fun c => is_space c = true -> c = " "%char)
         (chars (collapse_whitespace b s)).
Proof.
  revert b. induction s as [|c s IH]; intros b; [constructor|].
  unfold chars in *. simpl. destruct (is_space c) eqn:T.
  - destruct b; [apply IH|]. simpl. constructor; [reflexivity | apply IH].
  - simpl. constructor; [congruence | apply IH].
Qed.

Lemma remove_special_chars s :
  Forall (fun c => is_space c = true -> c = " "%char) (chars s) ->
  Forall clean_char (chars (remove_special s)).
Proof.
  unfold chars. induction s as [|c s IH]; intros H; simpl; [constructor|].
  inversion H; subst. destruct (keep_char c) eqn:T; [|now apply IH].
  simpl. constructor; [now split | now apply IH].
Qed.

Lemma normalize_breaks_without_newline s :
  Forall (fun c => c <> newline) (chars s) -> normalize_breaks 0 s = s.
Proof.
  unfold chars. induction s as [|c s IH]; intros H; [reflexivity|].
  simpl in H. inversion H; subst. simpl.
  destruct (Ascii.eqb c newline) eqn:T;
    [apply Ascii.eqb_eq in T; contradiction|].
  rewrite IH by assumption. reflexivity.
Qed.

Lemma clean_char_not_newline c : clean_char c -> c <> newline.
Proof.
  intros [_ H] ->. specialize (H eq_refl). discriminate.
Qed.

Lemma clean_text_unfold text :
  clean_text text = strip (remove_special (collapse_whitespace false text)).
Proof.
  unfold clean_text. rewrite normalize_breaks_without_newline; [reflexivity|].
  eapply List.Forall_impl; [apply clean_char_not_newline|].
  apply remove_special_chars, collapse_chars.
Qed.

End text_facts.
Module decimal_facts.
Import document_processor text.

Lemma chars_app (a b : string) : chars (a +:+ b) = chars a ++ chars b.
Proof.
  unfold chars. induction a as [|c a IH]; [reflexivity|].
  change (list_ascii_of_string (String c (a +:+ b))
          = c :: (list_ascii_of_string a ++ list_ascii_of_string b)).
  simpl. now rewrite IH.
Qed.

Lemma chars_inj (a b : string) : chars a = chars b -> a = b.
Proof.
  unfold chars. intros H.
  rewrite <- (string_of_list_ascii_of_string a),
          <- (string_of_list_ascii_of_string b). now rewrite H.
Qed.

Lemma string_app_nil_r (a : string) : (a +:+ "") = a.
Proof.
  induction a as [|c a IH]; [reflexivity|].
  change (String c (a +:+ "") = String c a). now rewrite IH.
Qed.

Lemma uint_digits (d : Decimal.uint) :
  Forall (fun c => is_digit c = true) (chars (NilEmpty.string_of_uint d)).
Proof.
  unfold chars. induction d; simpl; constructor; try reflexivity; assumption.
Qed.

Lemma uint_value_acc (d : Decimal.uint) (p : positive) :
  fold_left (fun acc c => 10 * acc + (Z.of_nat (nat_of_ascii c) - 48))
            (chars (NilEmpty.string_of_uint d)) (Z.pos p)
  = Z.pos (Pos.of_uint_acc d p).
Proof.
  unfold chars. revert p.
  induction d; intros p; simpl; try reflexivity; rewrite <- IHd; f_equal;
    match goal with
    | |- context [Z.of_nat (nat_of_ascii ?c)] =>
        let v := eval vm_compute in (Z.of_nat (nat_of_ascii c)) in
        change (Z.of_nat (nat_of_ascii c)) with v
    end; lia.
Qed.

Lemma uint_value (d : Decimal.uint) :
  fold_left (fun acc c => 10 * acc + (Z.of_nat (nat_of_ascii c) - 48))
            (chars (NilEmpty.string_of_uint d)) 0
  = Z.of_N (Pos.of_uint d).
Proof.
  induction d; try reflexivity; try exact IHd;
    unfold chars; simpl; apply (uint_value_acc d).
Qed.

Lemma str_of_int_pos (p : positive) :
  str_of_int (Z.pos p) = NilEmpty.string_of_uint (Pos.to_uint p).
Proof.
  unfold str_of_int. simpl.
  pose proof (DecimalPos.Unsigned.to_uint_nonnil p) as H.
  destruct (Pos.to_uint p); [congruence | reflexivity..].
Qed.

(** [int(str(n)) = n] for a natural number. *)
Lemma int_of_digits_str_of_int (n : Z) :
  0 <= n -> int_of_digits (str_of_int n) = n.
Proof.
  intros H. destruct n as [|p|p]; [reflexivity | | lia].
  rewrite str_of_int_pos. unfold int_of_digits.
  fold (chars (NilEmpty.string_of_uint (Pos.to_uint p))).
  rewrite uint_value, DecimalPos.Unsigned.of_to. reflexivity.
Qed.

Lemma str_of_int_digits (n : Z) :
  0 <= n ->
  Forall (fun c => is_digit c = true) (chars (str_of_int n))
  /\ str_of_int n <> "".
Proof.
  intros H. destruct n as [|p|p]; [| | lia].
  - split; [repeat constructor | discriminate].
  - rewrite str_of_int_pos. split; [apply uint_digits|].
    pose proof (DecimalPos.Unsigned.to_uint_nonnil p) as Hn.
    destruct (Pos.to_uint p); [congruence | discriminate..].
Qed.

Lemma str_of_int_inj (n m : Z) :
  0 <= n -> 0 <= m -> str_of_int n = str_of_int m -> n = m.
Proof.
  intros Hn Hm E.
  rewrite <- (int_of_digits_str_of_int n Hn),
          <- (int_of_digits_str_of_int m Hm).
  now rewrite E.
Qed.

End decimal_facts.

Module chunker_more_facts.
Import document_processor chunker text.

Section Loop.
Variable self : DocumentProcessor.
Variable src : string.
Variable pages : list Z.

Lemma made_on_emit page_num st :
  In page_num pages ->
  Forall (made_on src pages) (st_chunks st) ->
  Forall (made_on src pages) (st_chunks (emit self src page_num st)).
Proof.
  intros Hp H. unfold emit. destruct (_ <=? _)%Z; [|exact H].
  simpl. apply Forall_app. split; [exact H|].
  constructor; [|constructor]. split; [exact Hp | reflexivity].
Qed.

Lemma made_on_step page_num st s :
  In page_num pages ->
  Forall (made_on src pages) (st_chunks st) ->
  Forall (made_on src pages) (st_chunks (sentence_step self src page_num st s)).
Proof.
  intros Hp H. unfold sentence_step.
  destruct (overflows self st s); [|exact H].
  destruct (_ <? _)%Z; simpl; now apply made_on_emit.
Qed.

Lemma made_on_loop page_num ss st :
  In page_num pages ->
  Forall (made_on src pages) (st_chunks st) ->
  Forall (made_on src pages)
         (st_chunks (fold_left (sentence_step self src page_num) ss st)).
Proof.
  intros Hp. revert st. induction ss as [|s ss IH]; intros st H; simpl;
    [exact H|]. apply IH. now apply made_on_step.
Qed.

Lemma made_on_pages pcs acc :
  Forall (fun pc => In (fst pc) pages) pcs ->
  Forall (made_on src pages) (fst acc) ->
  Forall (made_on src pages) (fst (fold_left (page_step self src) pcs acc)).
Proof.
  intros Hp. revert acc. induction Hp as [|pc pcs Hpc _ IH]; intros acc H;
    simpl; [exact H|].
  apply IH. rewrite chunker_facts.page_step_eq. simpl. unfold close_page.
  match goal with |- context [fold_left ?f ?l ?s] =>
    pose proof (made_on_loop (fst pc) l s Hpc H) as Hl;
    destruct (st_current_chunk (fold_left f l s)) end.
  - exact Hl.
  - now apply made_on_emit.
Qed.

Lemma bounded_of_ok cur cl :
  cur <> [] -> buffer_ok self cur cl -> bounded_buffer self cur.
Proof.
  intros Hne H. destruct cur as [|a [|b cur]]; [congruence | now left |].
  right. destruct H as [[H|H] Hb]; specialize (Hb ltac:(simpl; lia)); lia.
Qed.

Lemma buffers_bounded cur cl ss :
  buffer_ok self cur cl ->
  Forall (bounded_buffer self) (buffers_from self cur cl ss).
Proof.
  revert cur cl. induction ss as [|s ss IH]; intros cur cl H; simpl.
  - destruct cur as [|a cur]; [constructor|].
    constructor; [|constructor]. now apply (bounded_of_ok _ cl).
  - destruct (chunk_size self <? cl + len s)%Z eqn:T;
      destruct cur as [|a cur]; simpl.
    + apply IH. simpl in H. subst cl. simpl. split; [right; lia|].
      simpl. lia.
    + constructor; [now apply (bounded_of_ok _ cl)|].
      apply IH. simpl. split; [now left | simpl; lia].
    + apply IH. simpl in H. subst cl. simpl. split; [right; lia|].
      simpl. lia.
    + apply IH. apply Z.ltb_ge in T.
      assert (Hne : a :: cur <> []) by congruence.
      pose proof (join_snoc " " (a :: cur) s Hne) as Hj.
      change (buffer_ok self (a :: (cur ++ [s])) (cl + (len s + 1))).
      unfold buffer_ok in *. cbv iota in *. destruct H as [H _].
      change (a :: (cur ++ [s])) with ((a :: cur) ++ [s]).
      rewrite Hj, !len_app. change (len " ") with 1.
      split; [destruct H as [H|H]; rewrite H; [left|right]; lia | lia].
Qed.

End Loop.

(** The closed buffers of a page are bounded, and each is a run of the
    sentences of the page. *)
Lemma page_buffers_bounded self pc :
  Forall (bounded_buffer self) (page_buffers self pc).
Proof. apply buffers_bounded. reflexivity. Qed.

Lemma cancel_digit_prefix (a b : list ascii) (k : ascii) (x y : list ascii) :
  is_digit k = false ->
  Forall (fun c => is_digit c = true) a ->
  Forall (fun c => is_digit c = true) b ->
  a ++ k :: x = b ++ k :: y -> a = b.
Proof.
  intros Hk Ha. revert b. induction Ha as [|c a Hc _ IH]; intros b Hb E.
  - destruct b as [|d b]; [reflexivity|]. simpl in E.
    inversion E; subst. inversion Hb; subst. congruence.
  - destruct b as [|d b]; simpl in E.
    + inversion E; subst. congruence.
    + inversion E; subst. inversion Hb; subst. f_equal. now apply IH.
Qed.

(** The identifier of a chunk determines its index. *)
Lemma chunk_id_index src p q i j :
  0 <= i -> 0 <= j ->
  chunk_id (new_chunk src p i "") = chunk_id (new_chunk src q j "") -> i = j.
Proof.
  intros Hi Hj E. simpl in E.
  apply decimal_facts.str_of_int_inj; [exact Hi | exact Hj|].
  destruct (decimal_facts.str_of_int_digits i Hi) as [Di _].
  destruct (decimal_facts.str_of_int_digits j Hj) as [Dj _].
  apply (f_equal chars) in E.
  rewrite !decimal_facts.chars_app in E.
  change (chars "_chunk") with (chars "_chun" ++ ["k"%char]) in E.
  rewrite !app_assoc in E.
  apply (f_equal (@rev ascii)) in E.
  rewrite !(rev_app_distr _ (chars (str_of_int _))) in E.
  rewrite !(rev_app_distr _ ["k"%char]) in E. simpl rev at 2 5 in E.
  simpl app in E.
  apply cancel_digit_prefix in E;
    [| reflexivity | now apply Forall_rev | now apply Forall_rev].
  apply decimal_facts.chars_inj.
  rewrite <- (rev_involutive (chars (str_of_int i))), E.
  apply rev_involutive.
Qed.

End chunker_more_facts.

Module page_facts.
Import document_processor chunker text document_loading.

Lemma match_marker_other c s :
  c <> "["%char -> match_page_marker (String c s) = None.
Proof.
  intros H. unfold match_page_marker.
  change (strip_prefix "[PAGE_" (String c s))
    with (if Ascii.eqb "[" c then strip_prefix "PAGE_" s else None).
  destruct (Ascii.eqb "[" c) eqn:E; [|reflexivity].
  apply Ascii.eqb_eq in E. congruence.
Qed.

Lemma split_no_bracket pre cur s :
  no_bracket pre ->
  split_page_markers 0 cur (pre +:+ s)
  = split_page_markers 0 (rev (chars pre) ++ cur) s.
Proof.
  unfold no_bracket, chars. revert cur.
  induction pre as [|c pre IH]; intros cur H; [reflexivity|].
  simpl in H. inversion H; subst.
  change (String c pre +:+ s) with (String c (pre +:+ s)).
  simpl split_page_markers. rewrite match_marker_other by assumption.
  rewrite IH by assumption. simpl. now rewrite <- app_assoc.
Qed.

Lemma split_tail_cur skip cur cur' s :
  tl (split_page_markers skip cur s) = tl (split_page_markers skip cur' s).
Proof.
  revert skip cur cur'. induction s as [|c s IH]; intros skip cur cur';
    [reflexivity|].
  simpl. destruct skip as [|k]; [|apply IH].
  destruct (match_page_marker (String c s)); [reflexivity | apply IH].
Qed.

Lemma split_nonempty skip cur s :
  exists h t, split_page_markers skip cur s = h :: t.
Proof.
  revert skip cur. induction s as [|c s IH]; intros skip cur; simpl; [eauto|].
  destruct skip as [|k]; [|apply IH].
  destruct (match_page_marker (String c s)); [eauto | apply IH].
Qed.

Lemma split_skip a skip cur r :
  split_page_markers (String.length a + skip) cur (a +:+ r)
  = split_page_markers skip cur r.
Proof.
  induction a as [|c a IH]; [reflexivity|].
  change (String c a +:+ r) with (String c (a +:+ r)). simpl. exact IH.
Qed.

Lemma strip_prefix_app p s : strip_prefix p (p +:+ s) = Some s.
Proof.
  induction p as [|c p IH]; [reflexivity|].
  change (String c p +:+ s) with (String c (p +:+ s)).
  cbn [strip_prefix]. now rewrite Ascii.eqb_refl.
Qed.

Lemma span_digits_app ds c r :
  Forall (fun x => is_digit x = true) (chars ds) ->
  is_digit c = false ->
  span_digits (ds +:+ String c r) = (ds, String c r).
Proof.
  unfold chars. induction ds as [|d ds IH]; intros H Hc.
  - change ("" +:+ String c r) with (String c r). simpl. now rewrite Hc.
  - simpl in H. inversion H; subst.
    change (String d ds +:+ String c r) with (String d (ds +:+ String c r)).
    simpl. rewrite H2, IH by assumption. reflexivity.
Qed.

(** A page marker at the head of a text is matched. *)
Lemma match_marker_app ds r :
  Forall (fun x => is_digit x = true) (chars ds) -> ds <> "" ->
  match_page_marker ("[PAGE_" +:+ ds +:+ "]" +:+ r) = Some ds.
Proof.
  intros H Hne. unfold match_page_marker.
  rewrite strip_prefix_app.
  change ("]" +:+ r) with (String "]" r).
  rewrite span_digits_app by (assumption || reflexivity).
  destruct ds; [congruence | reflexivity].
Qed.

(** Text in front of the first marker does not change the pages. *)
Lemma page_contents_prefix pre s ds :
  no_bracket pre -> match_page_marker s = Some ds ->
  page_contents (pre +:+ s) = page_contents s.
Proof.
  intros Hp Hm. unfold page_contents.
  rewrite split_no_bracket by exact Hp.
  rewrite (split_tail_cur 0 _ [] s).
  destruct s as [|c s]; [discriminate|].
  simpl split_page_markers. rewrite Hm. simpl tl.
  match goal with
  | |- context [split_page_markers ?k [] s] =>
      destruct (split_nonempty k [] s) as (h & t & ->)
  end.
  reflexivity.
Qed.

Lemma split_without_bracket cur s :
  no_bracket s ->
  split_page_markers 0 cur s = [rev_string (rev (chars s) ++ cur)].
Proof.
  intros H. rewrite <- (decimal_facts.string_app_nil_r s) at 1.
  now rewrite split_no_bracket.
Qed.

(** A text without a bracket is one page, numbered 1. *)
Lemma page_contents_without_bracket s :
  no_bracket s -> page_contents s = [(1, s)].
Proof.
  intros H. unfold page_contents. now rewrite split_without_bracket.
Qed.

End page_facts.

Module loading_facts.
Import document_processor chunker text document_loading.

(** ** [clean_text] ignores white space around the text *)

Lemma lead_space b c s :
  is_space c = true ->
  lstrip (remove_special (collapse_whitespace b (String c s)))
  = lstrip (remove_special (collapse_whitespace true s)).
Proof.
  intros H. cbn [collapse_whitespace]. rewrite H. now destruct b.
Qed.

Lemma lead_state s :
  lstrip (remove_special (collapse_whitespace true s))
  = lstrip (remove_special (collapse_whitespace false s)).
Proof.
  destruct s as [|c s]; [reflexivity|].
  destruct (is_space c) eqn:E; [now rewrite !lead_space|].
  cbn [collapse_whitespace]. now rewrite E.
Qed.

Lemma lead_blank a s b :
  blank a ->
  lstrip (remove_special (collapse_whitespace b (a +:+ s)))
  = lstrip (remove_special (collapse_whitespace false s)).
Proof.
  unfold blank, chars. revert b.
  induction a as [|c a IH]; intros b H.
  - change ("" +:+ s) with s. destruct b; [apply lead_state | reflexivity].
  - simpl in H. inversion H; subst.
    change (String c a +:+ s) with (String c (a +:+ s)).
    rewrite lead_space by assumption. now apply IH.
Qed.

Lemma strip_of_lstrip x y : lstrip x = lstrip y -> strip x = strip y.
Proof. unfold strip. now intros ->. Qed.

Lemma lstrip_list_blank p :
  Forall (fun c => is_space c = true) p -> lstrip_list p = [].
Proof.
  induction 1 as [|c p Hc _ IH]; simpl; [reflexivity | now rewrite Hc].
Qed.

Lemma lstrip_list_app_blank a x :
  Forall (fun c => is_space c = true) a ->
  lstrip_list (a ++ x) = lstrip_list x.
Proof.
  induction 1 as [|c a Hc _ IH]; simpl; [reflexivity | now rewrite Hc].
Qed.

Lemma lstrip_list_app l p :
  lstrip_list (l ++ p)
  = match lstrip_list l with
    | [] => lstrip_list p
    | m => m ++ p
    end.
Proof.
  induction l as [|c l IH]; simpl; [now destruct (lstrip_list p)|].
  destruct (is_space c); [exact IH | reflexivity].
Qed.

Lemma strip_blank_suffix y pad : blank pad -> strip (y +:+ pad) = strip y.
Proof.
  intros H. apply decimal_facts.chars_inj.
  rewrite !text_facts.strip_chars, decimal_facts.chars_app.
  rewrite lstrip_list_app.
  destruct (lstrip_list (chars y)) as [|c m] eqn:E.
  - now rewrite (lstrip_list_blank _ H).
  - rewrite rev_app_distr, lstrip_list_app_blank; [reflexivity|].
    now apply Forall_rev.
Qed.

Lemma collapse_blank f b : blank b -> blank (collapse_whitespace f b).
Proof.
  unfold blank, chars. revert f. induction b as [|c b IH]; intros f H;
    [constructor|].
  simpl in H. inversion H; subst. cbn [collapse_whitespace].
  rewrite H2. destruct f; [now apply IH|].
  simpl. constructor; [reflexivity | now apply IH].
Qed.

Lemma collapse_blank_suffix f s b :
  blank b ->
  exists pad, blank pad
    /\ collapse_whitespace f (s +:+ b) = collapse_whitespace f s +:+ pad.
Proof.
  intros H. revert f. induction s as [|c s IH]; intros f.
  - exists (collapse_whitespace f b). split; [now apply collapse_blank|].
    reflexivity.
  - change (String c s +:+ b) with (String c (s +:+ b)).
    cbn [collapse_whitespace].
    destruct (is_space c); [destruct f|].
    + apply IH.
    + destruct (IH true) as (pad & Hp & ->). now exists pad.
    + destruct (IH false) as (pad & Hp & ->). now exists pad.
Qed.

Lemma remove_special_app x y :
  remove_special (x +:+ y) = remove_special x +:+ remove_special y.
Proof.
  induction x as [|c x IH]; [reflexivity|].
  change (String c x +:+ y) with (String c (x +:+ y)).
  cbn [remove_special]. destruct (keep_char c); [|exact IH].
  change (String c (remove_special x) +:+ remove_special y)
    with (String c (remove_special x +:+ remove_special y)).
  now rewrite IH.
Qed.

Lemma remove_special_blank pad : blank pad -> blank (remove_special pad).
Proof.
  unfold blank, chars. induction pad as [|c pad IH]; intros H; [constructor|].
  simpl in H. inversion H; subst. cbn [remove_special].
  destruct (keep_char c); [|now apply IH].
  simpl. constructor; [assumption | now apply IH].
Qed.

(** White space in front of and after a text does not change its clean
    form. *)
Lemma clean_text_padded a s b :
  blank a -> blank b -> clean_text (a +:+ s +:+ b) = clean_text s.
Proof.
  intros Ha Hb. rewrite !text_facts.clean_text_unfold.
  rewrite (strip_of_lstrip _ _ (lead_blank a (s +:+ b) false Ha)).
  destruct (collapse_blank_suffix false s b Hb) as (pad & Hp & ->).
  rewrite remove_special_app.
  now apply strip_blank_suffix, remove_special_blank.
Qed.

(** ** The text [load_pdf] builds *)

Lemma mark_pages_acc n pts acc :
  mark_pages n pts acc = acc +:+ mark_pages n pts "".
Proof.
  revert n acc. induction pts as [|t pts IH]; intros n acc; simpl.
  - now rewrite decimal_facts.string_app_nil_r.
  - destruct t as [|c t]; [apply IH|].
    rewrite IH. rewrite (IH _ ("" +:+ _)).
    change ("" +:+ ?x) with x. now rewrite string_app_assoc.
Qed.

Lemma mark_pages_cons n c t pts :
  mark_pages n (String c t :: pts) ""
  = (nl +:+ "[PAGE_" +:+ str_of_int n +:+ "]" +:+ nl +:+ String c t +:+ nl)
    +:+ mark_pages (n + 1) pts "".
Proof. simpl. now rewrite mark_pages_acc. Qed.

Lemma mark_pages_without_text n pts :
  Forall (fun t => t = "") pts -> mark_pages n pts "" = "".
Proof.
  intros H. revert n. induction H as [|t pts -> _ IH]; intros n;
    [reflexivity | apply IH].
Qed.

Lemma mark_pages_with_text n pts :
  Exists (fun t => t <> "") pts -> strip (mark_pages n pts "") <> "".
Proof.
  intros H E. apply text_facts.strip_empty in E.
  assert (Hb : In "["%char (chars (mark_pages n pts ""))).
  { clear E. revert n. induction H as [t pts Ht | t pts _ IH]; intros n.
    - destruct t as [|c t]; [congruence|].
      rewrite mark_pages_cons, !decimal_facts.chars_app.
      apply in_or_app. left. apply in_or_app. right.
      apply in_or_app. left. now left.
    - destruct t as [|c t]; [apply IH|].
      rewrite mark_pages_cons, !decimal_facts.chars_app.
      apply in_or_app. left. apply in_or_app. right.
      apply in_or_app. left. now left. }
  rewrite List.Forall_forall in E. specialize (E _ Hb). discriminate.
Qed.

Lemma rev_string_cons c cur :
  rev_string (c :: cur) = rev_string cur +:+ String c "".
Proof.
  unfold rev_string. apply decimal_facts.chars_inj.
  rewrite decimal_facts.chars_app. unfold chars.
  now rewrite !list_ascii_of_string_of_list_ascii.
Qed.

Lemma rev_string_chars u : rev_string (rev (chars u) ++ []) = u.
Proof.
  unfold rev_string, chars.
  now rewrite app_nil_r, rev_involutive, string_of_list_ascii_of_string.
Qed.

Lemma no_bracket_app a b : no_bracket a -> no_bracket b -> no_bracket (a +:+ b).
Proof.
  unfold no_bracket. rewrite decimal_facts.chars_app.
  intros Ha Hb. apply Forall_app. now split.
Qed.

Lemma no_bracket_nl : no_bracket nl.
Proof. repeat constructor. discriminate. Qed.

(** The pieces [re.split] makes of a marked page followed by [rest]. *)
Lemma split_block n t rest cur :
  0 <= n -> no_bracket t ->
  split_page_markers 0 cur
    ((nl +:+ "[PAGE_" +:+ str_of_int n +:+ "]" +:+ nl +:+ t +:+ nl) +:+ rest)
  = (rev_string cur +:+ nl) :: str_of_int n
      :: split_page_markers 0 (rev (chars (nl +:+ t +:+ nl)) ++ []) rest.
Proof.
  intros Hn Ht.
  destruct (decimal_facts.str_of_int_digits n Hn) as [Hd Hne].
  set (ds := str_of_int n) in *.
  rewrite <- (page_facts.split_no_bracket (nl +:+ t +:+ nl) [] rest)
    by (apply no_bracket_app; [apply no_bracket_nl|];
        apply no_bracket_app; [exact Ht | apply no_bracket_nl]).
  set (R := (nl +:+ t +:+ nl) +:+ rest).
  assert (E : ((nl +:+ "[PAGE_" +:+ ds +:+ "]" +:+ nl +:+ t +:+ nl) +:+ rest)
              = String newline
                  (String "[" (("PAGE_" +:+ ds +:+ "]") +:+ R))).
  { unfold R. apply decimal_facts.chars_inj.
    change (String newline (String "[" (("PAGE_" +:+ ds +:+ "]")
              +:+ (nl +:+ t +:+ nl) +:+ rest)))
      with (nl +:+ "[" +:+ (("PAGE_" +:+ ds +:+ "]")
              +:+ (nl +:+ t +:+ nl) +:+ rest)).
    rewrite !decimal_facts.chars_app.
    change (chars "[PAGE_") with (chars "[" ++ chars "PAGE_").
    now rewrite <- !app_assoc. }
  rewrite E. cbn [split_page_markers].
  rewrite page_facts.match_marker_other by discriminate.
  assert (Em : match_page_marker (String "[" (("PAGE_" +:+ ds +:+ "]") +:+ R))
               = Some ds).
  { rewrite <- (page_facts.match_marker_app ds R Hd Hne). f_equal.
    apply decimal_facts.chars_inj.
    change (String "[" (("PAGE_" +:+ ds +:+ "]") +:+ R))
      with ("[" +:+ (("PAGE_" +:+ ds +:+ "]") +:+ R)).
    rewrite !decimal_facts.chars_app.
    change (chars "[PAGE_") with (chars "[" ++ chars "PAGE_").
    now rewrite <- !app_assoc. }
  rewrite Em. rewrite rev_string_cons. fold nl. f_equal. f_equal.
  replace (6 + String.length ds)%nat
    with (String.length ("PAGE_" +:+ ds +:+ "]") + 0)%nat
    by (rewrite !length_string_app; simpl; lia).
  apply page_facts.split_skip.
Qed.

Lemma blank_nl : blank nl.
Proof. repeat constructor. Qed.

Lemma blank_app a b : blank a -> blank b -> blank (a +:+ b).
Proof.
  unfold blank. rewrite decimal_facts.chars_app.
  intros Ha Hb. apply Forall_app. now split.
Qed.

(** The first piece of the split of a marked text is what was read before
    it and at most the line break in front of the first marker. *)
Lemma split_marked_head n pts cur :
  0 <= n -> Forall no_bracket pts ->
  exists pad, blank pad
    /\ hd "" (split_page_markers 0 cur (mark_pages n pts ""))
       = rev_string cur +:+ pad.
Proof.
  intros Hn H. revert n Hn. induction H as [|t pts Ht _ IH]; intros n Hn.
  - exists "". split; [constructor|]. simpl.
    now rewrite decimal_facts.string_app_nil_r.
  - destruct t as [|c t]; [apply IH; lia|].
    rewrite mark_pages_cons, split_block by assumption.
    exists nl. split; [apply blank_nl | reflexivity].
Qed.

Lemma pages_marked n pts cur :
  0 <= n -> Forall no_bracket pts ->
  Forall2 stands_for
    (page_contents_of (tl (split_page_markers 0 cur (mark_pages n pts ""))))
    (marked n pts).
Proof.
  intros Hn H. revert n cur Hn.
  induction H as [|t pts Ht Hpts IH]; intros n cur Hn.
  - constructor.
  - destruct t as [|c t]; [apply IH; lia|].
    rewrite mark_pages_cons, split_block by assumption.
    cbn [tl marked].
    set (cur' := rev (chars (nl +:+ String c t +:+ nl)) ++ []).
    destruct (split_marked_head (n + 1) pts cur' ltac:(lia) Hpts)
      as (pad & Hpad & Eh).
    specialize (IH (n + 1) cur' ltac:(lia)).
    destruct (page_facts.split_nonempty 0 cur' (mark_pages (n + 1) pts ""))
      as (h & r & E).
    rewrite E in *. cbn [hd tl] in *. cbn [page_contents_of].
    constructor; [|exact IH].
    split; [now apply decimal_facts.int_of_digits_str_of_int|].
    exists nl, (nl +:+ pad).
    split; [apply blank_nl|]. split; [now apply blank_app; [apply blank_nl|]|].
    cbn [snd]. rewrite Eh. unfold cur'. rewrite rev_string_chars.
    now rewrite !string_app_assoc.
Qed.

Lemma page_step_stands_for self src acc pc nt :
  stands_for pc nt -> page_step self src acc pc = page_step self src acc nt.
Proof.
  destruct pc as [n x], nt as [m t]. intros [En (a & b & Ha & Hb & Ex)].
  simpl in En, Ex. subst n x. unfold page_step, sentences_of.
  now rewrite clean_text_padded.
Qed.

Lemma fold_pages_stand_for self src pcs nts acc :
  Forall2 stands_for pcs nts ->
  fold_left (page_step self src) pcs acc
  = fold_left (page_step self src) nts acc.
Proof.
  intros H. revert acc. induction H as [|pc nt pcs nts Hs _ IH]; intros acc;
    simpl; [reflexivity|].
  now rewrite (page_step_stands_for _ _ _ _ _ Hs), IH.
Qed.

Lemma marked_with_text n pts :
  Exists (fun t => t <> "") pts -> marked n pts <> [].
Proof.
  intros H. revert n. induction H as [t pts Ht | t pts _ IH]; intros n;
    (destruct t as [|c t]; [try congruence; apply IH | discriminate]).
Qed.

(** Chunking the text built from the pages of a PDF is chunking the pages
    that have text, each under its position in the PDF. *)
Lemma chunk_text_marked self src pts :
  Forall no_bracket pts -> Exists (fun t => t <> "") pts ->
  chunk_text self (mark_pages 1 pts "") src
  = chunk_pages self src (marked 1 pts).
Proof.
  intros Hb He. unfold chunk_text, chunk_pages, page_contents.
  pose proof (pages_marked 1 pts [] ltac:(lia) Hb) as H.
  pose proof (marked_with_text 1 pts He) as Hne.
  destruct (page_contents_of _) as [|pc pcs] eqn:E.
  - inversion H as [Em|]. congruence.
  - now rewrite (fold_pages_stand_for _ _ _ _ _ H).
Qed.

End loading_facts.

Module pipeline_facts.
Import document_processor chunker text world document_loading.

(** The chunk at position [i] was made for the source on a page of the
    text, with index [i]. *)
Lemma chunk_text_position self text src i c :
  chunk_text self text src !! i = Some c ->
  made_on src (map fst (page_contents text)) c
  /\ chunk_index (metadata c) = Z.of_nat i.
Proof.
  intros Hc. unfold chunk_text in Hc. split.
  - assert (H : Forall (made_on src (map fst (page_contents text)))
                  (fst (fold_left (page_step self src) (page_contents text)
                          ([], 0)))).
    { apply chunker_more_facts.made_on_pages; [|constructor].
      apply List.Forall_forall. intros pc Hp. now apply in_map. }
    rewrite List.Forall_forall in H. apply H.
    apply list_elem_of_In. eapply list_elem_of_lookup_2. exact Hc.
  - assert (Hn : numbered [] 0) by (split; reflexivity).
    pose proof (chunker_facts.numbered_pages self src (page_contents text)
                  ([], 0) Hn) as H.
    simpl in H. exact (chunker_facts.numbered_lookup _ _ _ _ H Hc).
Qed.

(** The content of a chunk is a closed buffer of a page, joined. *)
Lemma chunk_content_buffer self text src c :
  In c (chunk_text self text src) ->
  exists pc b, In pc (page_contents text) /\ In b (page_buffers self pc)
               /\ content c = join " " b.
Proof.
  intros Hc. apply (in_map content) in Hc. unfold chunk_text in Hc.
  rewrite chunker_facts.pages_contents in Hc. simpl in Hc.
  apply List.filter_In in Hc. destruct Hc as [Hc _].
  apply in_map_iff in Hc. destruct Hc as (b & Eb & Hb).
  apply in_concat in Hb. destruct Hb as (bs & Hbs & Hb).
  apply in_map_iff in Hbs. destruct Hbs as (pc & <- & Hpc).
  exists pc, b. now rewrite Eb.
Qed.

Lemma load_pdf_with_text p w pts :
  pdf_reader w p = Some (Ok pts) ->
  Exists (fun t => t <> "") pts ->
  load_pdf p w = (Ok (mark_pages 1 pts ""), w).
Proof.
  intros Hr He. unfold load_pdf, bind, get, try_except, lift_res.
  cbn [fst snd]. rewrite Hr. simpl.
  pose proof (loading_facts.mark_pages_with_text 1 pts He) as Hs.
  destruct (strip (mark_pages 1 pts "")); [congruence | reflexivity].
Qed.

Lemma load_pdf_without_text p w pts :
  pdf_reader w p = Some (Ok pts) ->
  Forall (fun t => t = "") pts ->
  load_pdf p w
  = (Raise (mk_exn Exception
       "Error processing PDF: No text could be extracted from the PDF"), w).
Proof.
  intros Hr He. unfold load_pdf, bind, get, try_except, lift_res.
  cbn [fst snd]. rewrite Hr. simpl.
  now rewrite (loading_facts.mark_pages_without_text 1 pts He).
Qed.

End pipeline_facts.

Module sentence_facts.
Import document_processor chunker text.

Lemma split_sentences_nonempty pe gap cur s :
  split_sentences pe gap cur s <> [].
Proof.
  revert pe gap cur. induction s as [|c s IH]; intros pe gap cur; simpl;
    [discriminate|].
  destruct (is_space c); [|apply IH].
  destruct gap; [apply IH|]. destruct pe; [discriminate | apply IH].
Qed.

Lemma removelast_cons {A} (x : A) (l : list A) :
  l <> [] -> removelast (x :: l) = x :: removelast l.
Proof. now destruct l. Qed.

(** Every piece of the sentence split except the last ends a sentence. *)
Lemma split_sentences_end pe gap cur s :
  (pe = true -> exists c r, cur = c :: r /\ is_sentence_end c = true) ->
  Forall ends_sentence (removelast (split_sentences pe gap cur s)).
Proof.
  revert pe gap cur. induction s as [|c s IH]; intros pe gap cur H; simpl;
    [constructor|].
  destruct (is_space c).
  - destruct gap; [apply IH; discriminate|].
    destruct pe; [|apply IH; discriminate].
    rewrite removelast_cons by apply split_sentences_nonempty.
    constructor; [|apply IH; discriminate].
    destruct (H eq_refl) as (x & r & -> & Hx). exists x. split; [|exact Hx].
    unfold rev_string, chars. rewrite list_ascii_of_string_of_list_ascii.
    simpl. apply last_snoc.
  - apply IH. intros E. now exists c, cur.
Qed.

Lemma buffers_from_nonempty self cur cl ss :
  cur <> [] -> buffers_from self cur cl ss <> [].
Proof.
  revert cur cl. induction ss as [|s ss IH]; intros cur cl H; simpl.
  - now destruct cur.
  - destruct (_ && _); [discriminate|]. apply IH. now destruct cur.
Qed.

(** A buffer whose last sentence ends a sentence. *)
Lemma join_ends b s :
  ends_sentence s -> ends_sentence (join " " (b ++ [s])).
Proof.
  intros (c & Hc & Hs). exists c. split; [|exact Hs].
  destruct b as [|a b]; [exact Hc|].
  rewrite join_snoc by discriminate. rewrite decimal_facts.chars_app.
  destruct (chars s) as [|x xs] eqn:E; [discriminate|].
  rewrite <- Hc. clear. revert x.
  induction xs as [|y xs IH] using rev_ind; intros x.
  - now rewrite last_snoc.
  - rewrite app_comm_cons, app_assoc, !last_snoc. reflexivity.
Qed.

Lemma buffers_end self cur cl ss :
  Forall ends_sentence (removelast (cur ++ ss)) ->
  Forall (fun b => ends_sentence (join " " b))
         (removelast (buffers_from self cur cl ss)).
Proof.
  revert cur cl. induction ss as [|s ss IH]; intros cur cl H.
  - simpl. destruct cur; constructor.
  - simpl buffers_from.
    destruct ((chunk_size self <? cl + len s)%Z
              && match cur with [] => false | _ => true end) eqn:T.
    + assert (Hne : cur <> []) by (destruct cur; [now rewrite andb_false_r in T | discriminate]).
      rewrite removelast_cons
        by (apply buffers_from_nonempty; discriminate).
      rewrite removelast_app in H by discriminate.
      apply Forall_app in H. destruct H as [Hc Hs].
      constructor; [|now apply IH].
      destruct (exists_last Hne) as (b & x & ->).
      apply join_ends. apply Forall_app in Hc. destruct Hc as [_ Hx].
      now inversion Hx.
    + apply IH. now rewrite <- app_assoc.
Qed.

(** Every closed buffer of a page except the last ends a sentence. *)
Lemma page_buffers_end self pc :
  Forall (fun b => ends_sentence (join " " b))
         (removelast (page_buffers self pc)).
Proof.
  apply buffers_end. simpl. apply split_sentences_end. discriminate.
Qed.

End sentence_facts.

Module batch_facts.
Import document_processor world document_loading document_batch more.

Lemma process_multiple_documents_returns
    (self : DocumentProcessor) (w : World) (file_paths : list string) :
  let done := processed self w file_paths in
  exists meta,
    process_multiple_documents self file_paths w
    = (Ok (concat (map fst done), meta), w)
    /\ document_metadata_list meta = map snd done
    /\ total_documents meta = llen done
    /\ batch_total_chunks meta = llen (concat (map fst done)).
Proof.
  intros done. unfold process_multiple_documents, bind.
  rewrite session_facts.process_loop. fold done. simpl.
  eexists. split; [reflexivity|]. simpl.
  split; [reflexivity|]. split; [|reflexivity].
  unfold llen. now rewrite length_map.
Qed.

End batch_facts.

(* ===================================================================== *)
(** * Further results                                                    *)
(* ===================================================================== *)

(** X1. With a batch size of zero [create_embeddings_batch] raises
    [ValueError] and with a negative batch size it returns the empty list,
    whatever the texts; in both cases no request is sent and the store is
    not touched. *)
Theorem create_embeddings_batch_nonpositive_size
    (self : VectorStoreManager) (w : World)
    (texts : list string) (batch_size : Z) :
  batch_size <= 0 ->
  create_embeddings_batch texts batch_size (self, w)
  = (if (batch_size =? 0)%Z
     then Raise (mk_exn ValueError "range() arg 3 must not be zero")
     else Ok [],
     (self, w)).
Proof.
  intros H. unfold create_embeddings_batch, bind, self_, gets, lift_res, range.
  simpl. destruct (batch_size =? 0)%Z eqn:E0; [reflexivity|].
  destruct (batch_size <? 0)%Z eqn:E1; [reflexivity|].
  apply Z.eqb_neq in E0. apply Z.ltb_ge in E1. lia.
Qed.

Lemma create_embeddings_batch_nonpositive_size_witness :
  -1 <= 0
  /\ create_embeddings_batch ["a"; "b"] (-1) (demo.store1, demo.w0)
     = (Ok [], (demo.store1, demo.w0)).
Proof.
  split; [lia|].
  exact (create_embeddings_batch_nonpositive_size demo.store1 demo.w0
           ["a"; "b"] (-1) ltac:(lia)).
Defined.

(** X2. For a batch size of at least one, [create_embeddings_batch] sends
    exactly one request for each batch, in the order of the batches and
    whether or not earlier requests failed: the number of requests is the
    number of texts divided by the batch size, rounded up; every batch has
    at least one text and at most [batch_size] texts; no request is sent for
    an empty list of texts. *)
Theorem create_embeddings_batch_requests
    (self : VectorStoreManager) (w : World)
    (texts : list string) (batch_size : Z) :
  0 < batch_size ->
  let bs := batches_of texts batch_size in
  calls (snd (snd (create_embeddings_batch texts batch_size (self, w))))
  = calls w ++ map (request (embedding_model self)) bs
  /\ List.length bs = Z.to_nat ((llen texts + batch_size - 1) / batch_size)
  /\ Forall (fun b => b <> [] /\ llen b <= batch_size) bs
  /\ (texts = [] -> bs = []).
Proof.
  intros H bs.
  rewrite batching_facts.create_embeddings_batch_returns by exact H.
  destruct (batching_facts.log_requests_service (embedding_model self) bs w)
    as (_ & Ec & _).
  split; [exact Ec|].
  unfold bs, batches_of.
  destruct (store_facts.range_length (llen texts) batch_size H
              ltac:(unfold llen; lia)) as (starts & Er & El & Hin).
  rewrite Er. split; [now rewrite length_map|]. split.
  - apply List.Forall_forall. intros b Hb.
    apply in_map_iff in Hb. destruct Hb as (i & <- & Hi).
    rewrite List.Forall_forall in Hin. specialize (Hin _ Hi).
    destruct (store_facts.slice_nonempty texts (Z.to_nat i)
                (Z.to_nat batch_size)) as [Hne Hle];
      [unfold llen in Hin; lia | lia |].
    split; [exact Hne | unfold llen; lia].
  - intros ->. destruct starts as [|i starts]; [reflexivity|].
    inversion Hin; subst. unfold llen in *. simpl in *. lia.
Qed.

Lemma create_embeddings_batch_requests_witness :
  0 < 2
  /\ calls (snd (snd (create_embeddings_batch ["a"; "bb"; "ccc"] 2
                        (vector_store_manager.init "m" 2, demo.w_flaky))))
     = [EmbeddingsCreate "m" (Batch ["a"; "bb"]);
        EmbeddingsCreate "m" (Batch ["ccc"])].
Proof.
  split; [lia|].
  rewrite (proj1 (create_embeddings_batch_requests
                    (vector_store_manager.init "m" 2) demo.w_flaky
                    ["a"; "bb"; "ccc"] 2 ltac:(lia))).
  vm_compute. reflexivity.
Defined.

(** X3. When [add_documents] raises, the store is left as it was: neither
    the index nor the chunk list nor the embedding list has changed; and of
    the world only the log of requests can have grown, no file is written. *)
Theorem add_documents_failure_keeps_store
    (self : VectorStoreManager) (w : World)
    (new_chunks : list DocumentChunk) (e : exn) :
  fst (add_documents new_chunks (self, w)) = Raise e ->
  fst (snd (add_documents new_chunks (self, w))) = self
  /\ more.only_calls_differ w (snd (snd (add_documents new_chunks (self, w)))).
Proof.
  intros H.
  destruct (session_facts.add_documents_outcome self w new_chunks)
    as [[_ E] | [(e' & w' & E & Hw) | (vs & w' & _ & E & _)]];
    rewrite E in *; cbn [fst snd] in *; try discriminate.
  now split.
Qed.

Lemma add_documents_failure_keeps_store_witness :
  let self := vector_store_manager.init "text-embedding-3-small" 1536 in
  fst (add_documents [demo.c_ab] (self, demo.w0))
  = Raise (mk_exn AssertionError "")
  /\ fst (snd (add_documents [demo.c_ab] (self, demo.w0))) = self.
Proof.
  intros self.
  assert (H : fst (add_documents [demo.c_ab] (self, demo.w0))
              = Raise (mk_exn AssertionError "")) by (vm_compute; reflexivity).
  split; [exact H|].
  exact (proj1 (add_documents_failure_keeps_store self demo.w0 [demo.c_ab]
                  _ H)).
Defined.

(** X4. When the vectors computed for the new chunks all have one length
    and it is not the dimension of the index, [add_documents] raises
    [AssertionError] and the store is left as it was. *)
Theorem add_documents_dimension_mismatch
    (self : VectorStoreManager) (w : World)
    (new_chunks : list DocumentChunk) (dim : Z) :
  new_chunks <> [] ->
  one_vector_per_input (embeddings_create w) ->
  Forall (fun v => llen v = dim)
         (batch_vectors self w (map content new_chunks) 100) ->
  dim <> faiss.d (index self) ->
  fst (add_documents new_chunks (self, w)) = Raise (mk_exn AssertionError "")
  /\ fst (snd (add_documents new_chunks (self, w))) = self.
Proof.
  intros Hne Hc Hv Hd.
  assert (E : fst (add_documents new_chunks (self, w))
              = Raise (mk_exn AssertionError "")).
  { unfold add_documents. destruct new_chunks as [|c cs']; [congruence|].
    set (cs := c :: cs') in *.
    unfold bind. rewrite batching_facts.create_embeddings_batch_returns by lia.
    unfold lift_res. rewrite (batching_facts.np_array_uniform _ _ Hv).
    unfold self_, gets. simpl fst.
    pose proof (batching_facts.batch_vectors_length self w (map content cs) 100
                  ltac:(lia) Hc) as Hl.
    rewrite (store_facts.faiss_add_mismatch _ _ dim); [reflexivity | | exact Hv | exact Hd].
    intros E. unfold cs in Hl. simpl in Hl. rewrite E in Hl.
    simpl in Hl. rewrite length_map in Hl. lia. }
  split; [exact E|].
  destruct (persistence_facts.add_documents_cases self w new_chunks)
    as [E' | [_ E']]; [now rewrite E' | rewrite E' in E; discriminate].
Qed.

Lemma add_documents_dimension_mismatch_witness :
  let self := vector_store_manager.init "text-embedding-3-small" 1536 in
  [demo.c_ab] <> []
  /\ one_vector_per_input (embeddings_create demo.w0)
  /\ 2 <> faiss.d (index self)
  /\ fst (add_documents [demo.c_ab] (self, demo.w0))
     = Raise (mk_exn AssertionError "").
Proof.
  intros self.
  assert (H1 : [demo.c_ab] <> []) by discriminate.
  assert (H2 : one_vector_per_input (embeddings_create demo.w0))
    by apply batching_facts.demo_one_vector_per_input.
  assert (H3 : Forall (fun v => llen v = 2)
                 (batch_vectors self demo.w0 (map content [demo.c_ab]) 100))
    by (vm_compute; repeat constructor).
  assert (H4 : 2 <> faiss.d (index self)) by (vm_compute; discriminate).
  split; [exact H1|]. split; [exact H2|]. split; [exact H4|].
  exact (proj1 (add_documents_dimension_mismatch self demo.w0 [demo.c_ab] 2
                  H1 H2 H3 H4)).
Defined.

(** X5. Whatever the store, the world, the query and [k], every
    similarity [search] returns is greater than 0 and at most 1. *)
Theorem search_similarity_range
    (self : VectorStoreManager) (w : World) (query : string) (k : Z)
    (rs : list (DocumentChunk * Q)) :
  fst (search query k (self, w)) = Ok rs ->
  Forall (fun r => (0 < snd r)%Q /\ (snd r <= 1)%Q) rs.
Proof.
  unfold search, bind, self_, gets. simpl.
  destruct (chunks self) as [|c cs] eqn:Ec.
  - intros E. inversion E. constructor.
  - unfold create_embedding, bind, self_, gets, try_except, in_world, zoom,
      request_embeddings, lift_res. simpl.
    destruct (embeddings_create w (calls w) (embedding_model self) (Text query))
      as [[|e es]|ex]; simpl; try discriminate.
    unfold faiss.search.
    destruct (negb (llen e =? faiss.d (index self))%Z); [discriminate|].
    destruct (negb (0 <? k)%Z); [discriminate|]. simpl.
    destruct (List.split (faiss.knn (index self) e (Z.to_nat k)))
      as [ds ls] eqn:Es.
    pose proof (retrieval_facts.split_knn (index self) e (Z.to_nat k)) as Hs.
    rewrite Es in Hs. simpl in Hs. simpl. rewrite Hs.
    apply store_facts.collect_results_range; [|constructor].
    apply store_facts.knn_distances_nonneg.
Qed.

Lemma search_similarity_range_witness :
  fst (search "q" 5 (demo.store2, demo.w0))
  = Ok [(demo.c_ab, (1 # 2)%Q); (demo.c_cde, (1 # 5)%Q);
        (demo.c_cde, (1 # 340282346638528859811704183484516925441)%Q);
        (demo.c_cde, (1 # 340282346638528859811704183484516925441)%Q);
        (demo.c_cde, (1 # 340282346638528859811704183484516925441)%Q)]
  /\ Forall (fun r => (0 < snd r)%Q /\ (snd r <= 1)%Q)
       [(demo.c_ab, (1 # 2)%Q); (demo.c_cde, (1 # 5)%Q);
        (demo.c_cde, (1 # 340282346638528859811704183484516925441)%Q);
        (demo.c_cde, (1 # 340282346638528859811704183484516925441)%Q);
        (demo.c_cde, (1 # 340282346638528859811704183484516925441)%Q)].
Proof.
  assert (H : fst (search "q" 5 (demo.store2, demo.w0))
     = Ok [(demo.c_ab, (1 # 2)%Q); (demo.c_cde, (1 # 5)%Q);
        (demo.c_cde, (1 # 340282346638528859811704183484516925441)%Q);
        (demo.c_cde, (1 # 340282346638528859811704183484516925441)%Q);
        (demo.c_cde, (1 # 340282346638528859811704183484516925441)%Q)])
    by (vm_compute; reflexivity).
  split; [exact H|].
  exact (search_similarity_range demo.store2 demo.w0 "q" 5 _ H).
Defined.

(** X6. On a store that holds at least one chunk, [search] with [k <= 0]
    raises [AssertionError] once the query was embedded: the request to the
    embedding service is sent first, and the store is not changed. *)
Theorem search_nonpositive_k_raises
    (self : VectorStoreManager) (w : World) (query : string) (k : Z)
    (e : list Q) (es : list (list Q)) :
  chunks self <> [] ->
  embeddings_create w (calls w) (embedding_model self) (Text query)
  = Ok (e :: es) ->
  k <= 0 ->
  search query k (self, w)
  = (Raise (mk_exn AssertionError ""),
     (self, log_call (EmbeddingsCreate (embedding_model self) (Text query)) w)).
Proof.
  intros Hne He Hk. unfold search, bind, self_, gets. simpl.
  destruct (chunks self) as [|c cs]; [congruence|].
  unfold create_embedding, bind, self_, gets, try_except, in_world, zoom,
    request_embeddings, lift_res. simpl. rewrite He. simpl.
  unfold faiss.search.
  destruct (negb (llen e =? faiss.d (index self))%Z); [reflexivity|].
  destruct (0 <? k)%Z eqn:T; [apply Z.ltb_lt in T; lia | reflexivity].
Qed.

Lemma search_nonpositive_k_raises_witness :
  chunks demo.store2 <> []
  /\ 0 <= 0
  /\ fst (search "q" 0 (demo.store2, demo.w0))
     = Raise (mk_exn AssertionError "").
Proof.
  assert (H1 : chunks demo.store2 <> []) by (vm_compute; discriminate).
  assert (H2 : embeddings_create demo.w0 (calls demo.w0)
                 (embedding_model demo.store2) (Text "q")
               = Ok ([1%Q; 0%Q] :: [])) by (vm_compute; reflexivity).
  split; [exact H1|]. split; [lia|].
  now rewrite (search_nonpositive_k_raises demo.store2 demo.w0 "q" 0
                 _ _ H1 H2 ltac:(lia)).
Defined.

Import document_loading document_batch doc_qa_agent_more more.

(** X7. When the index file of the named store does not exist, [load]
    raises [FileNotFoundError] with the path as [pathlib] writes it
    ([stores/none.faiss] also for the directory [stores/]) and changes
    neither the store nor the world;
    [load_vector_store] then returns the error message instead of raising
    and leaves the agent as it was. *)
Theorem load_missing_store
    (a : DocumentQAAgent) (w : World) (directory store_name : string) :
  files w !! index_path directory store_name = None ->
  load directory store_name (vector_store a, w)
  = (Raise (mk_exn FileNotFoundError
              ("Vector store not found: " +:+ index_path directory store_name)),
     (vector_store a, w))
  /\ load_vector_store directory store_name (a, w)
     = (Ok ("✗ Error loading vector store: Vector store not found: "
            +:+ index_path directory store_name),
        (a, w)).
Proof.
  intros H.
  pose proof (session_facts.load_missing_raises (vector_store a) w
                directory store_name H) as E.
  split; [exact E|].
  unfold load_vector_store, try_except, bind, in_vector_store, zoom.
  cbn [fst snd]. rewrite E. cbn [fst snd]. unfold ret.
  now rewrite session_facts.set_vector_store_same.
Qed.

Lemma load_missing_store_witness :
  files demo.w0 !! index_path "stores/" "none" = None
  /\ fst (load_vector_store "stores/" "none" (demo.agent0, demo.w0))
     = Ok "✗ Error loading vector store: Vector store not found: stores/none.faiss".
Proof.
  assert (H : files demo.w0 !! index_path "stores/" "none" = None)
    by (vm_compute; reflexivity).
  split; [exact H|].
  rewrite (proj2 (load_missing_store demo.agent0 demo.w0 "stores/" "none" H)).
  vm_compute. reflexivity.
Defined.

(** X8. [load] is not atomic: when the index file exists and the chunk
    file does not, [load] raises [FileNotFoundError] after it has replaced
    the index, so the store is left with the index read from the disk and
    its old chunk list. *)
Theorem load_without_chunk_file
    (self : VectorStoreManager) (w : World) (directory name : string)
    (idx : faiss.IndexFlatL2) :
  files w !! index_path directory name = Some (FaissFile idx) ->
  files w !! chunks_path directory name = None ->
  exists msg,
    load directory name (self, w)
    = (Raise (mk_exn FileNotFoundError msg),
       (with_index_and_chunks idx (chunks self) self, w)).
Proof.
  intros H1 H2. eexists.
  unfold load, bind, gets, read_file,
    vector_store_manager.update_self, modify. simpl.
  rewrite H1. simpl. unfold bind, gets. simpl. rewrite H2. reflexivity.
Qed.

Lemma load_without_chunk_file_witness :
  let out := load "stores" "half"
               (vector_store_manager.init "m" 2, demo_more.w_half_saved) in
  files demo_more.w_half_saved !! index_path "stores" "half"
  = Some (FaissFile (index demo.store2))
  /\ files demo_more.w_half_saved !! chunks_path "stores" "half" = None
  /\ List.length (faiss.xb (index (fst (snd out)))) = 2%nat
  /\ chunks (fst (snd out)) = [].
Proof.
  intros out.
  assert (H1 : files demo_more.w_half_saved !! index_path "stores" "half"
               = Some (FaissFile (index demo.store2)))
    by (vm_compute; reflexivity).
  assert (H2 : files demo_more.w_half_saved !! chunks_path "stores" "half"
               = None) by (vm_compute; reflexivity).
  split; [exact H1|]. split; [exact H2|].
  unfold out.
  destruct (load_without_chunk_file (vector_store_manager.init "m" 2)
              demo_more.w_half_saved "stores" "half" _ H1 H2) as [msg ->].
  split; vm_compute; reflexivity.
Defined.



(** X10. After every sequence of calls on a new agent ([ask], [chat],
    [clear_history], [load_document], [load_multiple_documents],
    [save_vector_store], [load_vector_store]), whether they succeed or
    fail, [queries_processed] is the number of entries of the conversation
    history. *)
Theorem queries_processed_counts_history
    (chunk_size chunk_overlap : Z) (model : string) (w0 : World)
    (acts : list action) :
  let s := fold_left run_action acts
             (doc_qa_agent.init chunk_size chunk_overlap model w0, w0) in
  queries_processed (session_info (fst s))
  = llen (conversation_history (fst s)).
Proof.
  intros s. change (counted (fst s)). unfold s.
  assert (H : counted (fst (doc_qa_agent.init chunk_size chunk_overlap model w0,
                            w0))) by reflexivity.
  revert H. generalize (doc_qa_agent.init chunk_size chunk_overlap model w0, w0).
  induction acts as [|act acts IH]; intros s0 H; simpl; [exact H|].
  apply IH. now apply session_facts.counted_action.
Qed.



(** X12. [process_multiple_documents] never raises and leaves the world
    as it was: its chunks are the chunks of the documents that
    [process_document] can process, concatenated in the order of the paths,
    its metadata list has one entry for each of them, and a path whose
    processing raises adds nothing. *)
Theorem process_multiple_documents_skips_failures
    (self : DocumentProcessor) (w : World) (file_paths : list string) :
  let done := processed self w file_paths in
  exists meta,
    process_multiple_documents self file_paths w
    = (Ok (concat (map fst done), meta), w)
    /\ document_metadata_list meta = map snd done
    /\ total_documents meta = llen done
    /\ batch_total_chunks meta = llen (concat (map fst done)).
Proof.
  apply batch_facts.process_multiple_documents_returns.
Qed.

(** X13. When [load_multiple_documents] has processed at least one chunk
    and [add_documents] succeeds, it appends the chunks to the store and the
    names of the processed documents to [documents_loaded], and it sets
    [total_chunks] to the number of chunks of this call, not to the number
    of chunks in the store.  When no chunk was processed the agent is left
    as it was. *)
Theorem load_multiple_documents_sets_total
    (a : DocumentQAAgent) (w : World) (file_paths : list string) :
  let done := processed (processor a) w file_paths in
  let cs := concat (map fst done) in
  let s := snd (load_multiple_documents file_paths (a, w)) in
  (cs <> [] ->
   fst (add_documents cs (vector_store a, w)) = Ok tt ->
   total_chunks (session_info (fst s)) = llen cs
   /\ chunks (vector_store (fst s)) = chunks (vector_store a) ++ cs
   /\ documents_loaded (session_info (fst s))
      = documents_loaded (session_info a) ++ map (fun r => doc_source (snd r)) done)
  /\ (cs = [] -> s = (a, w)).
Proof.
  intros done cs s.
  destruct (batch_facts.process_multiple_documents_returns (processor a) w
              file_paths) as (meta & E & Em & _ & Ec).
  fold done in E, Em, Ec. fold cs in E, Ec.
  assert (Es : s = snd ((match cs with
                         | [] => ret tt
                         | _ =>
                           in_vector_store (add_documents cs) ;;
                           doc_qa_agent.update_self (fun a0 => set_session
                             {| start_time := start_time (session_info a0);
                                documents_loaded :=
                                  documents_loaded (session_info a0)
                                  ++ map doc_source (document_metadata_list meta);
                                total_chunks := batch_total_chunks meta;
                                queries_processed :=
                                  queries_processed (session_info a0) |} a0)
                         end ;; ret meta) (a, w))).
  { unfold s, load_multiple_documents, bind, doc_qa_agent.self_, gets,
      doc_qa_agent.in_world, zoom. cbn [fst snd]. rewrite E. reflexivity. }
  split.
  - intros Hne Hok. rewrite Es.
    destruct cs as [|c cs'] eqn:Ecs; [congruence|]. rewrite <- Ecs in *.
    unfold bind, in_vector_store, zoom. cbn [fst snd].
    destruct (session_facts.add_documents_outcome (vector_store a) w cs)
      as [[-> _] | [(e & w' & E1 & _) | (vs & w' & _ & E1 & _)]].
    + congruence.
    + rewrite E1 in Hok. discriminate.
    + rewrite E1. cbn. rewrite Em, map_map. repeat split. exact Ec.
  - intros Hnil. rewrite Es, Hnil. reflexivity.
Qed.

Lemma load_multiple_documents_sets_total_witness :
  let a := fst demo_more.loaded in
  let w := demo_more.w_docs in
  let paths := ["a.pdf"; "missing.pdf"; "b.pdf"] in
  let cs := concat (map fst (processed (processor a) w paths)) in
  let s := snd (load_multiple_documents paths (a, w)) in
  cs <> []
  /\ fst (add_documents cs (vector_store a, w)) = Ok tt
  /\ total_chunks (session_info (fst s)) = 4
  /\ llen (chunks (vector_store (fst s))) = 6
  /\ documents_loaded (session_info (fst s)) = ["doc.pdf"; "a.pdf"; "b.pdf"].
Proof.
  intros a w paths cs s.
  assert (H1 : cs <> []) by (vm_compute; discriminate).
  assert (H2 : fst (add_documents cs (vector_store a, w)) = Ok tt)
    by (vm_compute; reflexivity).
  destruct (proj1 (load_multiple_documents_sets_total a w paths) H1 H2)
    as (Ht & Hc & Hd).
  split; [exact H1|]. split; [exact H2|]. split; [|split].
  - unfold s. rewrite Ht. vm_compute. reflexivity.
  - unfold s. rewrite Hc. vm_compute. reflexivity.
  - unfold s. rewrite Hd. vm_compute. reflexivity.
Defined.

(** X14. When documents are loaded, the retrieved context is not empty
    and the completion service answers, [ask] returns the answer with the
    length of the context and one of the labels [high], [medium] and [low]
    as confidence (which of them is decided by floating-point arithmetic on
    the mean similarity, so the label is not fixed here); it appends one
    entry to the conversation history, with the question, the answer, all
    the sources (also when [include_sources] is false, where the result
    has none) and the time after the request, and it adds one to
    [queries_processed]. *)
Theorem ask_records_answer
    (a : DocumentQAAgent) (w : World)
    (question : string) (num_sources : Z) (model : string)
    (include_sources : bool)
    (context : string) (srcs : list source_info) (reply : string) :
  let retrieved :=
    in_vector_store (get_context_for_query question num_sources 4000) (a, w) in
  let w1 := snd (snd retrieved) in
  let w2 := log_call (ChatCompletionsCreate model (system_prompt a)
                        (_build_qa_prompt question context)) w1 in
  documents_loaded (session_info a) <> [] ->
  fst retrieved = Ok (context, srcs) ->
  context <> "" ->
  chat_completions_create w1 (calls w1) model (system_prompt a)
    (_build_qa_prompt question context) = Ok reply ->
  let out := ask question num_sources model include_sources (a, w) in
  (exists label,
     In label ["high"; "medium"; "low"]
     /\ fst out = Ok {| answer := reply;
                        sources := if include_sources then srcs else [];
                        confidence := label;
                        error := None;
                        context_used := Some (len context) |})
  /\ conversation_history (fst (snd out))
     = conversation_history a
       ++ [{| h_question := question; h_answer := reply; h_sources := srcs;
              h_timestamp := now_isoformat w2 (calls w2) |}]
  /\ queries_processed (session_info (fst (snd out)))
     = queries_processed (session_info a) + 1
  /\ snd (snd out) = w2.
Proof.
  intros retrieved w1 w2 Hdocs Hctx Hne Hchat out.
  pose proof (session_facts.retrieval_effect a w question num_sources)
    as (Ha & _). simpl in Ha. fold retrieved in Ha.
  unfold out, ask, bind, self_, gets. simpl.
  destruct (documents_loaded (session_info a)); [congruence|].
  fold retrieved. unfold w2, w1 in *.
  destruct retrieved as [r [a1 w1']]. simpl in *. subst r a1.
  destruct context; [congruence|].
  unfold try_except, bind, in_world, zoom, request_completion, gets,
    update_self, modify, ret. simpl.
  rewrite Hchat. simpl. split; [|repeat split].
  exists (confidence_of (avg_similarity srcs)). split; [|reflexivity].
  unfold confidence_of.
  destruct (negb _); [now left|].
  destruct (negb _); [right; now left | right; right; now left].
Qed.

Lemma ask_records_answer_witness :
  let out := ask "What is this?" 5 "gpt-4o-mini" false demo_more.loaded in
  documents_loaded (session_info (fst demo_more.loaded)) <> []
  /\ (exists label,
        fst out = Ok {| answer := "An answer.";
                        sources := [];
                        confidence := label;
                        error := None;
                        context_used := Some 100 |})
  /\ queries_processed (session_info (fst (snd out))) = 1.
Proof.
  intros out.
  pose (retrieved :=
          in_vector_store (get_context_for_query "What is this?" 5 4000)
            demo_more.loaded).
  assert (H1 : documents_loaded (session_info (fst demo_more.loaded)) <> [])
    by (vm_compute; discriminate).
  pose proof (ask_records_answer
           (fst demo_more.loaded) (snd demo_more.loaded)
           "What is this?" 5 "gpt-4o-mini" false
           (match fst retrieved with Ok p => fst p | Raise _ => "" end)
           (match fst retrieved with Ok p => snd p | Raise _ => [] end)
           "An answer." H1
           ltac:(vm_compute; reflexivity)
           ltac:(vm_compute; discriminate)
           ltac:(vm_compute; reflexivity)) as (Hr & _ & Hq & _).
  split; [exact H1|]. split.
  - destruct Hr as (label & _ & Hr). exists label.
    unfold out. change demo_more.loaded
      with (fst demo_more.loaded, snd demo_more.loaded) at 1.
    rewrite Hr. vm_compute. reflexivity.
  - unfold out. change demo_more.loaded
      with (fst demo_more.loaded, snd demo_more.loaded) at 1.
    rewrite Hq. vm_compute. reflexivity.
Defined.

(** X15. [ask] raises when the query cannot be embedded: with documents
    loaded and a store that is not empty, an exception of the embedding
    request leaves [ask] as an [Exception] whose message is
    [Failed to create embedding: ] followed by the message of the request's
    exception; the agent is left as it was and the completion service is
    not called. *)
Theorem ask_embedding_failure_raises
    (a : DocumentQAAgent) (w : World)
    (question : string) (num_sources : Z) (model : string)
    (include_sources : bool) (e : exn) :
  documents_loaded (session_info a) <> [] ->
  chunks (vector_store a) <> [] ->
  embeddings_create w (calls w) (embedding_model (vector_store a))
    (Text question) = Raise e ->
  ask question num_sources model include_sources (a, w)
  = (Raise (mk_exn Exception ("Failed to create embedding: " +:+ exn_str e)),
     (a, log_call (EmbeddingsCreate (embedding_model (vector_store a))
                     (Text question)) w)).
Proof.
  intros Hdocs Hne He.
  unfold ask, bind, self_, gets. simpl.
  destruct (documents_loaded (session_info a)); [congruence|].
  unfold in_vector_store, zoom, get_context_for_query, search, bind,
    vector_store_manager.self_, gets. simpl.
  destruct (chunks (vector_store a)); [congruence|].
  unfold create_embedding, bind, vector_store_manager.self_, gets, try_except,
    vector_store_manager.in_world, zoom, request_embeddings. simpl.
  rewrite He. simpl. now rewrite session_facts.set_vector_store_same.
Qed.

Lemma ask_embedding_failure_raises_witness :
  let a := fst demo_more.loaded in
  documents_loaded (session_info a) <> []
  /\ chunks (vector_store a) <> []
  /\ fst (ask "What is this?" 5 "gpt-4o-mini" true (a, demo_more.w_embed_down))
     = Raise (mk_exn Exception
                "Failed to create embedding: Rate limit reached.").
Proof.
  intros a.
  assert (H1 : documents_loaded (session_info a) <> [])
    by (vm_compute; discriminate).
  assert (H2 : chunks (vector_store a) <> []) by (vm_compute; discriminate).
  split; [exact H1|]. split; [exact H2|].
  now rewrite (ask_embedding_failure_raises a demo_more.w_embed_down
                 "What is this?" 5 "gpt-4o-mini" true
                 (mk_exn Exception "Rate limit reached.") H1 H2 eq_refl).
Defined.

(** X16. When documents are recorded as loaded and the store holds no
    chunk (a loaded document gave no chunk), [ask] returns the fixed answer
    with confidence [none] and error [no_context]; no request reaches the
    embedding or the completion service and the agent is left as it was. *)
Theorem ask_with_empty_store
    (a : DocumentQAAgent) (w : World)
    (question : string) (num_sources : Z) (model : string)
    (include_sources : bool) :
  documents_loaded (session_info a) <> [] ->
  chunks (vector_store a) = [] ->
  ask question num_sources model include_sources (a, w)
  = (Ok no_context_result, (a, w)).
Proof.
  intros Hdocs He.
  unfold ask, bind, self_, gets. simpl.
  destruct (documents_loaded (session_info a)); [congruence|].
  unfold in_vector_store, zoom, get_context_for_query, search, bind,
    vector_store_manager.self_, gets. simpl.
  rewrite He. simpl. now rewrite session_facts.set_vector_store_same.
Qed.

Lemma ask_with_empty_store_witness :
  let a := fst demo_more.loaded_without_chunks in
  documents_loaded (session_info a) = ["a.pdf"]
  /\ chunks (vector_store a) = []
  /\ fst (ask "What is this?" 5 "gpt-4o-mini" true (a, demo_more.w_docs))
     = Ok no_context_result.
Proof.
  intros a.
  assert (H0 : documents_loaded (session_info a) = ["a.pdf"])
    by (vm_compute; reflexivity).
  assert (H1 : documents_loaded (session_info a) <> [])
    by (rewrite H0; discriminate).
  assert (H2 : chunks (vector_store a) = []) by (vm_compute; reflexivity).
  split; [exact H0|]. split; [exact H2|].
  now rewrite (ask_with_empty_store a demo_more.w_docs "What is this?" 5
                 "gpt-4o-mini" true H1 H2).
Defined.

(** X17. When the best result of the search is longer than
    [max_context_length], [get_context_for_query] returns the empty context
    and no source, whatever the other results are. *)
Theorem oversized_best_result_empties_context
    (self : VectorStoreManager) (w : World) (query : string) (k : Z)
    (max_context_length : Z)
    (r : DocumentChunk * Q) (rs : list (DocumentChunk * Q)) :
  fst (search query k (self, w)) = Ok (r :: rs) ->
  max_context_length < len (content (fst r)) ->
  fst (get_context_for_query query k max_context_length (self, w))
  = Ok ("", []).
Proof.
  intros Hs Hlen. unfold get_context_for_query, bind.
  destruct (search query k (self, w)) as [[rs'|ex] s']; simpl in Hs;
    [|discriminate].
  inversion Hs; subst rs'. destruct r as [c sim]. simpl in *.
  destruct (max_context_length <? 0 + len (content c))%Z eqn:T;
    [reflexivity|].
  apply Z.ltb_ge in T. lia.
Qed.

Lemma oversized_best_result_empties_context_witness :
  fst (search "q" 1 (demo.store2, demo.w0)) = Ok [(demo.c_ab, (1 # 2)%Q)]
  /\ 1 < len (content demo.c_ab)
  /\ fst (get_context_for_query "q" 1 1 (demo.store2, demo.w0)) = Ok ("", []).
Proof.
  assert (H1 : fst (search "q" 1 (demo.store2, demo.w0))
               = Ok [(demo.c_ab, (1 # 2)%Q)]) by (vm_compute; reflexivity).
  assert (H2 : 1 < len (content (fst (demo.c_ab, (1 # 2)%Q))))
    by (vm_compute; reflexivity).
  split; [exact H1|]. split; [exact H2|].
  exact (oversized_best_result_empties_context demo.store2 demo.w0 "q" 1 1
           _ _ H1 H2).
Defined.

(** X18. On an agent without loaded documents [chat] never calls [ask]:
    for every message it returns the answer of the general handler and
    leaves the agent and the world, the log of calls included, as they
    were. *)
Theorem chat_without_documents
    (a : DocumentQAAgent) (w : World) (message model : string) (minutes : Z) :
  documents_loaded (session_info a) = [] ->
  chat message model minutes (a, w)
  = (Ok (_handle_general_message a minutes message), (a, w)).
Proof.
  intros H. unfold chat, bind, self_, gets, ret. simpl. rewrite H.
  now rewrite andb_false_r.
Qed.

Lemma chat_without_documents_witness :
  documents_loaded (session_info demo.agent0) = []
  /\ chat "What is this?" "gpt-4o-mini" 3 (demo.agent0, demo.w0)
     = (Ok "Hello! I'm Document Q&A Agent. I can answer questions about documents you load. Use 'load' to add documents or 'help' for more information.",
        (demo.agent0, demo.w0)).
Proof.
  assert (H : documents_loaded (session_info demo.agent0) = [])
    by reflexivity.
  split; [exact H|].
  rewrite (chat_without_documents demo.agent0 demo.w0 "What is this?"
             "gpt-4o-mini" 3 H).
  vm_compute. reflexivity.
Defined.

(** X19. When [chat] passes a question to [ask] and gets an answer with
    sources and no error, it returns the answer followed by the header and
    one line for each distinct key [source (Page page)] of the sources: no
    key is listed twice, every source's key is listed, and the keys are
    listed in the order in which they first occur among the sources (of
    two listed keys, the earlier one occurs among the sources before every
    occurrence of the later one). *)
Theorem chat_lists_each_source_once
    (a : DocumentQAAgent) (w : World) (message model : string) (minutes : Z)
    (r : ask_result) :
  is_question message = true ->
  documents_loaded (session_info a) <> [] ->
  fst (ask message 5 model true (a, w)) = Ok r ->
  sources r <> [] ->
  error r = None ->
  exists keys,
    fst (chat message model minutes (a, w))
    = Ok (source_lines (doc_qa_agent.answer r +:+ sources_header) keys)
    /\ NoDup keys
    /\ (forall key, In key keys <-> In key (map source_key (sources r)))
    /\ sublist keys (map source_key (sources r))
    /\ by_first_occurrence keys (map source_key (sources r)).
Proof.
  intros Hq Hd Ha Hs He.
  destruct (session_facts.list_sources_fold (sources r) sources_header []
              (∅ : gset string))
    as (keys & seen' & E & N & H1 & H2 & H3 & H4).
  { intros k. split; [intros H; now apply not_elem_of_empty in H | intros []]. }
  { constructor. }
  simpl in E, N, H2. exists keys.
  split; [|split; [exact N | split; [split; [apply H1 | apply H2] |
                                     split; [exact H3 | exact H4]]]].
  unfold chat, bind, self_, gets. cbn [fst snd].
  unfold is_question in Hq. rewrite Hq.
  destruct (documents_loaded (session_info a)); [congruence|].
  cbn [andb].
  destruct (ask message 5 model true (a, w)) as [[r'|ex] s']; simpl in Ha;
    [|discriminate].
  inversion Ha; subst r'. cbn [fst snd].
  destruct (sources r) as [|s0 ss] eqn:Es; [congruence|].
  rewrite He. unfold ret. cbn [fst snd].
  rewrite E. cbn [fst].
  now rewrite session_facts.source_lines_prefix.
Qed.

Lemma chat_lists_each_source_once_witness :
  is_question "What is this?" = true
  /\ documents_loaded (session_info (fst demo_more.loaded)) <> []
  /\ fst (chat "What is this?" "gpt-4o-mini" 3 demo_more.loaded)
     = Ok ("An answer." +:+ sources_header +:+ "- doc.pdf (Page 1)" +:+ nl).
Proof.
  assert (H1 : is_question "What is this?" = true) by (vm_compute; reflexivity).
  assert (H2 : documents_loaded (session_info (fst demo_more.loaded)) <> [])
    by (vm_compute; discriminate).
  pose (r := match fst (ask "What is this?" 5 "gpt-4o-mini" true
                          (fst demo_more.loaded, snd demo_more.loaded)) with
             | Ok r => r
             | Raise _ => no_documents_result
             end).
  destruct (chat_lists_each_source_once (fst demo_more.loaded)
              (snd demo_more.loaded) "What is this?" "gpt-4o-mini" 3 r
              H1 H2
              ltac:(vm_compute; reflexivity)
              ltac:(vm_compute; discriminate)
              ltac:(vm_compute; reflexivity)) as (keys & _).
  split; [exact H1|]. split; [exact H2|].
  vm_compute. reflexivity.
Defined.

(** X20. [get_conversation_history(last_n)] returns the last [last_n]
    entries when [0 < last_n <= len(history)] and the whole history when
    [last_n] is larger; for [last_n = 0] it also returns the whole history,
    not the empty list, and for a negative [last_n] it drops the first
    [-last_n] entries. *)
Theorem get_conversation_history_cases (a : DocumentQAAgent) (last_n : Z) :
  let h := conversation_history a in
  let r := get_conversation_history a last_n in
  (0 < last_n <= llen h ->
   r = skipn (List.length h - Z.to_nat last_n) h /\ llen r = last_n)
  /\ (llen h <= last_n -> r = h)
  /\ (last_n = 0 -> r = h)
  /\ (last_n < 0 -> r = skipn (Z.to_nat (- last_n)) h).
Proof.
  intros h r. unfold r, get_conversation_history, slice_from. fold h.
  unfold llen.
  split; [|split; [|split]].
  - intros H.
    destruct (- last_n <? 0)%Z eqn:T; [|apply Z.ltb_ge in T; lia].
    replace (Z.to_nat (Z.max (- last_n + Z.of_nat (List.length h)) 0))
      with (List.length h - Z.to_nat last_n)%nat by lia.
    split; [reflexivity|]. rewrite length_skipn. lia.
  - intros H. destruct (- last_n <? 0)%Z eqn:T.
    + replace (Z.to_nat (Z.max (- last_n + Z.of_nat (List.length h)) 0))
        with 0%nat by lia. reflexivity.
    + apply Z.ltb_ge in T.
      replace (Z.to_nat (Z.min (- last_n) (Z.of_nat (List.length h))))
        with 0%nat by lia. reflexivity.
  - intros ->. simpl.
    replace (Z.to_nat (Z.min (- 0) (Z.of_nat (List.length h))))
      with 0%nat by lia.
    reflexivity.
  - intros H. destruct (- last_n <? 0)%Z eqn:T; [apply Z.ltb_lt in T; lia|].
    destruct (Z.min_spec (- last_n) (Z.of_nat (List.length h)))
      as [[_ ->] | [Hge ->]]; [reflexivity|].
    rewrite Nat2Z.id. rewrite !skipn_all2; [reflexivity | lia | lia].
Qed.

(* ===================================================================== *)
(** * Further results on the document processor                          *)
(* ===================================================================== *)

Import document_loading.

(** X21. The result of [clean_text] holds only characters of the class the
    second substitution keeps, its only white space is the space character,
    and it neither begins nor ends with white space.  No line break is left
    after the first substitution, so the third one (for three or more line
    breaks) never changes the text: the result is the stripped text after
    the first two substitutions. *)
Theorem clean_text_characters (t : string) :
  let r := clean_text t in
  r = strip (remove_special (collapse_whitespace false t))
  /\ Forall text.clean_char (text.chars r)
  /\ (forall c, head (text.chars r) = Some c -> is_space c = false)
  /\ (forall c, last (text.chars r) = Some c -> is_space c = false).
Proof.
  intros r. unfold r. rewrite text_facts.clean_text_unfold.
  split; [reflexivity|]. split.
  - apply text_facts.strip_Forall, text_facts.remove_special_chars,
      text_facts.collapse_chars.
  - split; intros c; apply text_facts.strip_edges.
Qed.

(** X22. White space in front of a text and after it does not change what
    [clean_text] returns. *)
Theorem clean_text_ignores_surrounding_space (a t b : string) :
  text.blank a -> text.blank b ->
  clean_text (a +:+ t +:+ b) = clean_text t.
Proof. apply loading_facts.clean_text_padded. Qed.

Lemma clean_text_ignores_surrounding_space_witness :
  text.blank (nl +:+ " ") /\ text.blank nl
  /\ clean_text ((nl +:+ " ") +:+ "Hello,  world!" +:+ nl) = "Hello, world!".
Proof.
  assert (Ha : text.blank (nl +:+ " ")) by (repeat constructor).
  assert (Hb : text.blank nl) by (repeat constructor).
  split; [exact Ha|]. split; [exact Hb|].
  rewrite (clean_text_ignores_surrounding_space (nl +:+ " ") "Hello,  world!"
             nl Ha Hb).
  reflexivity.
Defined.

(** X23. The chunk at position [i] of the result of [chunk_text] is the
    chunk made of its content for the given source, its page and the index
    [i]: its [source] is the source, its [char_count] is the length of its
    content, and its [chunk_id] is the source, [_page], the page number,
    [_chunk] and [i]; its page is one of the page numbers of the text. *)
Theorem chunk_metadata_from_position
    (self : DocumentProcessor) (text src : string) :
  forall i c,
    chunk_text self text src !! i = Some c ->
    c = new_chunk src (page (metadata c)) (Z.of_nat i) (content c)
    /\ source (metadata c) = src
    /\ char_count (metadata c) = len (content c)
    /\ chunk_id c = src +:+ "_page" +:+ str_of_int (page (metadata c))
                        +:+ "_chunk" +:+ str_of_int (Z.of_nat i)
    /\ In (page (metadata c)) (map fst (page_contents text)).
Proof.
  intros i c Hc.
  destruct (pipeline_facts.chunk_text_position self text src i c Hc)
    as [[Hp Em] Ei].
  rewrite Ei in Em. split; [exact Em|].
  split; [now rewrite Em|]. split; [now rewrite Em|].
  split; [now rewrite Em at 1 | exact Hp].
Qed.

Lemma chunk_metadata_from_position_witness :
  let self := mk_processor 10 200 0 in
  let c := new_chunk "f.pdf" 4 1 "Three!" in
  chunk_text self "[PAGE_4]One two. Three!" "f.pdf" !! 1%nat = Some c
  /\ chunk_id c = "f.pdf_page4_chunk1"
  /\ char_count (metadata c) = 6.
Proof.
  intros self c.
  assert (H : chunk_text self "[PAGE_4]One two. Three!" "f.pdf" !! 1%nat
              = Some c) by reflexivity.
  split; [exact H|].
  destruct (chunk_metadata_from_position self "[PAGE_4]One two. Three!"
              "f.pdf" 1%nat c H) as (_ & _ & Ec & Ei & _).
  split; [rewrite Ei | rewrite Ec]; reflexivity.
Defined.

(** X24. The chunks one call of [chunk_text] returns have pairwise distinct
    identifiers. *)
Theorem chunk_ids_distinct (self : DocumentProcessor) (text src : string) :
  NoDup (map chunk_id (chunk_text self text src)).
Proof.
  apply NoDup_alt. intros i j x Hi Hj.
  rewrite chunker_facts.lookup_map in Hi, Hj.
  destruct (chunk_text self text src !! i) as [ci|] eqn:Ei; [|discriminate].
  destruct (chunk_text self text src !! j) as [cj|] eqn:Ej; [|discriminate].
  simpl in Hi, Hj. inversion Hi as [Hi']. inversion Hj as [Hj'].
  destruct (pipeline_facts.chunk_text_position self text src i ci Ei)
    as [[_ Emi] Eii].
  destruct (pipeline_facts.chunk_text_position self text src j cj Ej)
    as [[_ Emj] Eij].
  rewrite Eii in Emi. rewrite Eij in Emj.
  assert (E : chunk_id (new_chunk src (page (metadata ci)) (Z.of_nat i) "")
              = chunk_id (new_chunk src (page (metadata cj)) (Z.of_nat j) "")).
  { transitivity (chunk_id ci); [now rewrite Emi at 2|].
    transitivity (chunk_id cj); [congruence | now rewrite Emj at 1]. }
  apply chunker_more_facts.chunk_id_index in E; lia.
Qed.

(** X25. A chunk whose content is more than [chunk_size + 1] characters
    long is a single sentence of one of the pages: sentences are never cut,
    and only a single sentence can take a chunk beyond that length. *)
Theorem chunk_beyond_chunk_size_is_one_sentence
    (self : DocumentProcessor) (text src : string) :
  Forall (fun c =>
            chunk_size self + 1 < len (content c) ->
            exists pc, In pc (page_contents text)
                       /\ In (content c) (sentences_of (snd pc)))
         (chunk_text self text src).
Proof.
  apply List.Forall_forall. intros c Hc Hlen.
  destruct (pipeline_facts.chunk_content_buffer self text src c Hc)
    as (pc & b & Hpc & Hb & Eb).
  exists pc. split; [exact Hpc|].
  pose proof (chunker_more_facts.page_buffers_bounded self pc) as Hbd.
  rewrite List.Forall_forall in Hbd. specialize (Hbd b Hb).
  destruct Hbd as [H1 | Hle]; [|rewrite Eb in Hlen; lia].
  destruct b as [|s [|s' b]]; try discriminate.
  simpl in Eb. rewrite Eb.
  pose proof (chunker_facts.buffers_partition self [] 0 (sentences_of (snd pc)))
    as Hp.
  simpl in Hp. rewrite <- Hp. apply in_concat. exists [s].
  split; [exact Hb | now left].
Qed.

(** X26. Text in front of the first page marker is dropped: when a marker
    follows a text without an opening bracket, [chunk_text] returns the
    chunks of the text from the marker on. *)
Theorem text_before_first_marker_is_dropped
    (self : DocumentProcessor) (pre s ds src : string) :
  text.no_bracket pre ->
  match_page_marker s = Some ds ->
  chunk_text self (pre +:+ s) src = chunk_text self s src.
Proof.
  intros Hp Hm. unfold chunk_text.
  now rewrite (page_facts.page_contents_prefix pre s ds Hp Hm).
Qed.

Lemma text_before_first_marker_is_dropped_witness :
  let self := mk_processor 1000 200 0 in
  text.no_bracket "Cover page. "
  /\ match_page_marker "[PAGE_2]Body." = Some "2"
  /\ chunk_text self ("Cover page. " +:+ "[PAGE_2]Body.") "f.pdf"
     = [new_chunk "f.pdf" 2 0 "Body."].
Proof.
  intros self.
  assert (H1 : text.no_bracket "Cover page. ")
    by (repeat constructor; discriminate).
  assert (H2 : match_page_marker "[PAGE_2]Body." = Some "2") by reflexivity.
  split; [exact H1|]. split; [exact H2|].
  rewrite (text_before_first_marker_is_dropped self "Cover page. "
             "[PAGE_2]Body." "2" "f.pdf" H1 H2).
  reflexivity.
Defined.

(** X27. A text without an opening bracket has no page marker: it is
    chunked as the single page 1, and every chunk carries page 1. *)
Theorem text_without_markers_is_page_one
    (self : DocumentProcessor) (text src : string) :
  text.no_bracket text ->
  chunk_text self text src = text.chunk_pages self src [(1, text)]
  /\ Forall (fun c => page (metadata c) = 1) (chunk_text self text src).
Proof.
  intros H. split.
  - unfold chunk_text, text.chunk_pages.
    now rewrite (page_facts.page_contents_without_bracket text H).
  - apply List.Forall_forall. intros c Hc.
    apply list_elem_of_In, list_elem_of_lookup_1 in Hc.
    destruct Hc as [i Hc].
    destruct (pipeline_facts.chunk_text_position self text src i c Hc)
      as [[Hp _] _].
    rewrite (page_facts.page_contents_without_bracket text H) in Hp.
    simpl in Hp. destruct Hp as [Hp | []]. now symmetry.
Qed.

Lemma text_without_markers_is_page_one_witness :
  let self := mk_processor 10 200 0 in
  text.no_bracket "One two. Three!"
  /\ map (fun c => (content c, page (metadata c)))
         (chunk_text self "One two. Three!" "f.pdf")
     = [("One two.", 1); ("Three!", 1)].
Proof.
  intros self.
  assert (H : text.no_bracket "One two. Three!")
    by (repeat constructor; discriminate).
  split; [exact H|].
  rewrite (proj1 (text_without_markers_is_page_one self "One two. Three!"
                    "f.pdf" H)).
  reflexivity.
Defined.

(** X28. [load_pdf] changes nothing in the world and raises only
    [FileNotFoundError] or [Exception]: a missing file gives
    [FileNotFoundError]; an error of the PDF reader is wrapped in an
    [Exception] with the prefix [Error processing PDF: ]; when no page has
    text, the [ValueError] raised inside is wrapped in the same way; and
    as soon as one page has text, even white space only, the marked text is
    returned. *)
Theorem load_pdf_outcomes (file_path : string) (w : World) :
  snd (load_pdf file_path w) = w
  /\ (pdf_reader w file_path = None ->
      fst (load_pdf file_path w)
      = Raise (mk_exn FileNotFoundError
                 ("PDF file not found: " +:+ file_path)))
  /\ (forall e, pdf_reader w file_path = Some (Raise e) ->
      fst (load_pdf file_path w)
      = Raise (mk_exn Exception ("Error processing PDF: " +:+ exn_str e)))
  /\ (forall page_texts, pdf_reader w file_path = Some (Ok page_texts) ->
      (Forall (fun t => t = "") page_texts ->
       fst (load_pdf file_path w)
       = Raise (mk_exn Exception
           "Error processing PDF: No text could be extracted from the PDF"))
      /\ (Exists (fun t => t <> "") page_texts ->
          fst (load_pdf file_path w) = Ok (mark_pages 1 page_texts "")))
  /\ (forall e, fst (load_pdf file_path w) = Raise e ->
      exn_cls e = FileNotFoundError \/ exn_cls e = Exception).
Proof.
  split; [apply session_facts.load_pdf_world|].
  split; [|split; [|split]].
  - intros H. unfold load_pdf, bind, get. cbn [fst snd]. now rewrite H.
  - intros e H. unfold load_pdf, bind, get, try_except, lift_res.
    cbn [fst snd]. now rewrite H.
  - intros pts H. split; intros Hp.
    + now rewrite (pipeline_facts.load_pdf_without_text _ _ _ H Hp).
    + now rewrite (pipeline_facts.load_pdf_with_text _ _ _ H Hp).
  - intros e. unfold load_pdf, bind, get, try_except, lift_res.
    cbn [fst snd].
    destruct (pdf_reader w file_path) as [[pts|ex]|]; simpl.
    + destruct (strip (mark_pages 1 pts "")); simpl; intros E;
        inversion E; now right.
    + intros E. inversion E. now right.
    + intros E. inversion E. now left.
Qed.

Lemma load_pdf_outcomes_witness :
  fst (load_pdf "empty.pdf" demo_more.w_docs)
  = Raise (mk_exn Exception
       "Error processing PDF: No text could be extracted from the PDF")
  /\ fst (load_pdf "missing.pdf" demo_more.w_docs)
     = Raise (mk_exn FileNotFoundError "PDF file not found: missing.pdf").
Proof.
  split.
  - apply (proj1 (proj1 (proj2 (proj2 (proj2
             (load_pdf_outcomes "empty.pdf" demo_more.w_docs)))) [""; ""]
             eq_refl)).
    repeat constructor.
  - apply (proj1 (proj2 (load_pdf_outcomes "missing.pdf" demo_more.w_docs))).
    reflexivity.
Defined.

(** X29. The page markers [load_pdf] writes are read back by [chunk_text]:
    when no page text of the PDF holds an opening bracket and some page has
    text, chunking the text [load_pdf] returns is chunking the pages that
    have text, each under its position in the PDF counted from 1; the
    markers and line breaks [load_pdf] adds leave no trace in the chunks,
    and pages without text are skipped without shifting the numbers. *)
Theorem chunk_text_reads_page_markers
    (self : DocumentProcessor) (w : World) (file_path src : string)
    (page_texts : list string) :
  pdf_reader w file_path = Some (Ok page_texts) ->
  Forall text.no_bracket page_texts ->
  Exists (fun t => t <> "") page_texts ->
  exists text,
    fst (load_pdf file_path w) = Ok text
    /\ chunk_text self text src
       = text.chunk_pages self src (text.marked 1 page_texts).
Proof.
  intros Hr Hb He. exists (mark_pages 1 page_texts "").
  rewrite (pipeline_facts.load_pdf_with_text _ _ _ Hr He).
  split; [reflexivity|].
  now apply loading_facts.chunk_text_marked.
Qed.

Lemma chunk_text_reads_page_markers_witness :
  let self := mk_processor 1000 200 0 in
  exists text,
    fst (load_pdf "a.pdf" demo_more.w_pages) = Ok text
    /\ chunk_text self text "a.pdf"
       = [new_chunk "a.pdf" 1 0 "One."; new_chunk "a.pdf" 3 1 "Three."].
Proof.
  intros self.
  assert (Hb : Forall text.no_bracket ["One."; ""; "Three."])
    by (repeat constructor; discriminate).
  assert (He : Exists (fun t => t <> "") ["One."; ""; "Three."])
    by (left; discriminate).
  destruct (chunk_text_reads_page_markers self demo_more.w_pages "a.pdf"
              "a.pdf" ["One."; ""; "Three."] eq_refl Hb He)
    as (text & E1 & E2).
  exists text. split; [exact E1|]. rewrite E2. reflexivity.
Defined.

(** X30. Chunks end where sentences end: the content of every chunk ends
    with [.], [!] or [?], unless it is the last closed buffer of its
    page. *)
Theorem chunk_ends_with_sentence
    (self : DocumentProcessor) (text src : string) :
  Forall (fun c =>
            text.ends_sentence (content c)
            \/ exists pc b,
                 In pc (page_contents text)
                 /\ last (chunker.page_buffers self pc) = Some b
                 /\ content c = join " " b)
         (chunk_text self text src).
Proof.
  apply List.Forall_forall. intros c Hc.
  destruct (pipeline_facts.chunk_content_buffer self text src c Hc)
    as (pc & b & Hpc & Hb & Eb).
  pose proof (sentence_facts.page_buffers_end self pc) as He.
  destruct (chunker.page_buffers self pc) as [|b0 bs] eqn:E; [destruct Hb|].
  destruct (@exists_last _ (b0 :: bs) ltac:(discriminate)) as (l & x & El).
  rewrite El in *. rewrite removelast_last in He.
  apply in_app_or in Hb. destruct Hb as [Hb | [<- | []]].
  - left. rewrite Eb. rewrite List.Forall_forall in He. now apply He.
  - right. exists pc, x. rewrite E, last_snoc. now split; [|split].
Qed.
